(** * Timer-driven demo pages of the concurrency visualiser

    Every page of the application is a React component that keeps a bag of
    state ([useState]), a handle on one or two interval timers ([useRef]) and
    a callback that the timer runs on every tick.  Each page is embedded
    below as a module: a record for the component state, one function per
    handler and one for the timer callback.

    Conventions of the embedding.
    - A handler or timer callback runs to its end before React renders
      the page again; a function of the embedding gives the state after
      that render.  A setter called with a value stores the value.  A
      setter called with an updater function queues it: React runs the
      updater when it renders, after the callback has returned, so that
      an updater which reads a local of the run function reads it as the
      callback left it.  Every state has its own queue, served in the
      order of the calls, and React serves the states in the order of
      their [useState] lines.  A setter called from inside an updater
      joins the queue of its state at that moment, behind what the
      callback has queued; if that state has been served already, it is
      served in a further pass over the states.  Updater functions run
      once.  Where the outcome depends on this order, the function of
      the embedding says so.
    - A value that a callback reads from the render it was created in, and
      not through an updater, is read from the copy captured when the run
      function was invoked (fields prefixed [cap_], or the field
      [captured]).
    - Locals of a run function that its interval callback closes over are
      fields of the state record, next to the flag saying whether the
      interval is still scheduled.
    - [new Date().toLocaleTimeString()] and [Date.now()] are arguments of
      the function that reads them; [Math.random()] draws are rational
      arguments.  Integers are [Z]; a number that holds a progress
      percentage is a rational that is a double, and arithmetic on it
      rounds as doubles do ([JS.add], [JS.mul], [JS.div]). *)

From stdpp Require Import base list strings pretty gmap.
From Stdlib Require Import ZArith QArith Qround Qabs Lia.
Close Scope Q_scope.
Open Scope Z_scope.

(** ** JavaScript helpers shared by the pages *)
Module JS.

(** [l.slice(-n)] for a positive literal [n]: the last [n] elements. *)
Definition slice_last {A : Type} (n : nat) (l : list A) : list A :=
  drop (length l - n)%nat l.

(** Truthiness of a [number | null]. *)
Definition truthy (v : option Z) : bool :=
  match v with
  | Some n => negb (n =? 0)
  | None => false
  end.

(** The double-quote character, as a string. *)
Definition dquote : string := String (Ascii.ascii_of_nat 34) EmptyString.

(** [r > c] on numbers. *)
Definition gt (r c : Q) : bool := negb (Qle_bool r c).

(** [r >= c] on numbers. *)
Definition ge (r c : Q) : bool := Qle_bool c r.

(** [a[i % a.length]] on a non-empty constant table. *)
Definition cyclic (table : list string) (i : Z) : string :=
  default EmptyString (table !! Z.to_nat (i mod Z.of_nat (length table))).

(** [a.sort(cmp)]: the sort is stable, so with a comparator that is a
    total preorder the outcome is that of this insertion sort.  (With an
    inconsistent comparator the outcome is left to the engine; the
    function below is then one admissible outcome.) *)
Fixpoint insert {A : Type} (cmp : A → A → Z) (a : A) (l : list A)
    : list A :=
  match l with
  | [] => [a]
  | b :: rest =>
      if cmp a b <=? 0 then a :: l else b :: insert cmp a rest
  end.

Definition sort {A : Type} (cmp : A → A → Z) (l : list A) : list A :=
  foldr (insert cmp) [] l.

(** *** Numbers that are not integers

    A JavaScript number is an IEEE 754 double: a rational of the form
    [m * 2^k] with [|m| < 2^53].  The result of an arithmetic operation
    is the double nearest to the exact result, the one with an even [m]
    when two are equally near. *)

(** [floor(log2(q))] for a positive rational. *)
Definition ilog2 (q : Q) : Z :=
  let e := Z.log2 (Qnum q) - Z.log2 (Z.pos (Qden q)) in
  if Qle_bool (Qpower 2 e) q then e else e - 1.

(** The integer nearest to a rational, the even one of two that are
    equally near. *)
Definition nearest_even (q : Q) : Z :=
  let f := Qfloor q in
  match (q - inject_Z f ?= 1 # 2)%Q with
  | Lt => f
  | Gt => f + 1
  | Eq => if Z.even f then f else f + 1
  end.

(** The double nearest to a rational: 53 significant bits, or a multiple
    of [2^-1074] below [2^-1022].  (Beyond [2^1024] a double is infinite;
    no page computes a number of that size.) *)
Definition double (q : Q) : Q :=
  if Qeq_bool q 0 then 0%Q else
  let e := Z.max (ilog2 (Qabs q)) (-1022) in
  let ulp := Qpower 2 (e - 52) in
  Qred (inject_Z (nearest_even (q / ulp)) * ulp).

(** [a + b], [a * b] and [a / b] on numbers (the pages never divide by
    zero: every divisor is at least 2). *)
Definition add (a b : Q) : Q := double (a + b).
Definition mul (a b : Q) : Q := double (a * b).
Definition div (a b : Q) : Q := double (a / b).

(** Rounding is evaluated, never unfolded by proof search. *)
#[global] Opaque double.

End JS.

(** ** Deadlock page *)
Module Deadlock.

Inductive Status := idle | acquired | waiting | deadlocked.

Record ThreadState := {
  id : Z;
  name : string;
  color : string;
  holdsLock : option string;
  wantsLock : option string;
  status : Status;
  x : Z;
  y : Z }.

Record LockState := {
  lock_id : string;
  lock_name : string;
  heldBy : option Z;
  lock_x : Z;
  lock_y : Z }.

Record State := {
  showExplanation : bool;
  isRunning : bool;
  isDeadlocked : bool;
  step : Z;
  logs : list string;
  threads : list ThreadState;
  locks : list LockState;
  (** whether the interval held by [intervalRef] is still scheduled *)
  interval : bool;
  (** [let currentStep] of the run function *)
  currentStep : nat }.

Definition initThreads : list ThreadState :=
  [ {| id := 1; name := "Thread A"; color := "blue"; holdsLock := None;
       wantsLock := None; status := idle; x := 100; y := 150 |};
    {| id := 2; name := "Thread B"; color := "green"; holdsLock := None;
       wantsLock := None; status := idle; x := 400; y := 150 |} ].

Definition initLocks : list LockState :=
  [ {| lock_id := "lock1"; lock_name := "Lock 1"; heldBy := None;
       lock_x := 180; lock_y := 80 |};
    {| lock_id := "lock2"; lock_name := "Lock 2"; heldBy := None;
       lock_x := 320; lock_y := 80 |} ].

(** The component as first rendered. *)
Definition initial : State :=
  {| showExplanation := true; isRunning := false; isDeadlocked := false;
     step := 0; logs := []; threads := initThreads; locks := initLocks;
     interval := false; currentStep := 0 |}.

Definition set_isRunning (v : bool) (s : State) : State :=
  {| showExplanation := showExplanation s; isRunning := v;
     isDeadlocked := isDeadlocked s; step := step s; logs := logs s;
     threads := threads s; locks := locks s; interval := interval s;
     currentStep := currentStep s |}.

Definition set_isDeadlocked (v : bool) (s : State) : State :=
  {| showExplanation := showExplanation s; isRunning := isRunning s;
     isDeadlocked := v; step := step s; logs := logs s;
     threads := threads s; locks := locks s; interval := interval s;
     currentStep := currentStep s |}.

Definition set_step (v : Z) (s : State) : State :=
  {| showExplanation := showExplanation s; isRunning := isRunning s;
     isDeadlocked := isDeadlocked s; step := v; logs := logs s;
     threads := threads s; locks := locks s; interval := interval s;
     currentStep := currentStep s |}.

Definition set_logs (f : list string → list string) (s : State) : State :=
  {| showExplanation := showExplanation s; isRunning := isRunning s;
     isDeadlocked := isDeadlocked s; step := step s; logs := f (logs s);
     threads := threads s; locks := locks s; interval := interval s;
     currentStep := currentStep s |}.

Definition set_threads (f : list ThreadState → list ThreadState)
    (s : State) : State :=
  {| showExplanation := showExplanation s; isRunning := isRunning s;
     isDeadlocked := isDeadlocked s; step := step s; logs := logs s;
     threads := f (threads s); locks := locks s; interval := interval s;
     currentStep := currentStep s |}.

Definition set_locks (f : list LockState → list LockState)
    (s : State) : State :=
  {| showExplanation := showExplanation s; isRunning := isRunning s;
     isDeadlocked := isDeadlocked s; step := step s; logs := logs s;
     threads := threads s; locks := f (locks s); interval := interval s;
     currentStep := currentStep s |}.

Definition set_timer (live : bool) (k : nat) (s : State) : State :=
  {| showExplanation := showExplanation s; isRunning := isRunning s;
     isDeadlocked := isDeadlocked s; step := step s; logs := logs s;
     threads := threads s; locks := locks s; interval := live;
     currentStep := k |}.

(** [{ ...t, wantsLock: w, status: st }] *)
Definition wanting (w : string) (t : ThreadState) : ThreadState :=
  {| id := id t; name := name t; color := color t;
     holdsLock := holdsLock t; wantsLock := Some w; status := waiting;
     x := x t; y := y t |}.

(** [{ ...t, holdsLock: h, wantsLock: null, status: "acquired" }] *)
Definition holding (h : string) (t : ThreadState) : ThreadState :=
  {| id := id t; name := name t; color := color t;
     holdsLock := Some h; wantsLock := None; status := acquired;
     x := x t; y := y t |}.

(** [{ ...t, status: st }] *)
Definition with_status (st : Status) (t : ThreadState) : ThreadState :=
  {| id := id t; name := name t; color := color t;
     holdsLock := holdsLock t; wantsLock := wantsLock t; status := st;
     x := x t; y := y t |}.

(** [{ ...l, heldBy: n }] *)
Definition held_by (n : Z) (l : LockState) : LockState :=
  {| lock_id := lock_id l; lock_name := lock_name l; heldBy := Some n;
     lock_x := lock_x l; lock_y := lock_y l |}.

(** [prev.map((t) => t.id === n ? f(t) : t)] *)
Definition on_thread (n : Z) (f : ThreadState → ThreadState)
    (prev : list ThreadState) : list ThreadState :=
  (λ t, if id t =? n then f t else t) <$> prev.

Definition on_lock (l : string) (f : LockState → LockState)
    (prev : list LockState) : list LockState :=
  (λ k, if String.eqb (lock_id k) l then f k else k) <$> prev.

Definition addLog (now message : string) : State → State :=
  set_logs (λ prev,
    JS.slice_last 8 prev ++ ["[" +:+ now +:+ "] " +:+ message]).

Definition reset (s : State) : State :=
  {| showExplanation := showExplanation s; isRunning := false;
     isDeadlocked := false; step := 0; logs := [];
     threads := initThreads; locks := initLocks;
     interval := false; currentStep := currentStep s |}.

(** The [steps] array of [runDeadlockScenario]; [now] is the wall-clock
    time string read by [addLog]. *)
Definition steps : list (string → State → State) :=
  [ (λ now s,
      let s := addLog now "Thread A: Acquiring Lock 1..." s in
      set_threads (on_thread 1 (wanting "lock1")) s);
    (λ now s,
      let s := addLog now "Thread A: ✓ Acquired Lock 1" s in
      let s := set_threads (on_thread 1 (holding "lock1")) s in
      set_locks (on_lock "lock1" (held_by 1)) s);
    (λ now s,
      let s := addLog now "Thread B: Acquiring Lock 2..." s in
      set_threads (on_thread 2 (wanting "lock2")) s);
    (λ now s,
      let s := addLog now "Thread B: ✓ Acquired Lock 2" s in
      let s := set_threads (on_thread 2 (holding "lock2")) s in
      set_locks (on_lock "lock2" (held_by 2)) s);
    (λ now s,
      let s :=
        addLog now "Thread A: Now I need Lock 2... (held by Thread B!)" s in
      set_threads (on_thread 1 (wanting "lock2")) s);
    (λ now s,
      let s :=
        addLog now "Thread B: Now I need Lock 1... (held by Thread A!)" s in
      set_threads (on_thread 2 (wanting "lock1")) s);
    (λ now s,
      let s :=
        addLog now "💀 DEADLOCK DETECTED! Both threads waiting forever!" s in
      let s := set_isDeadlocked true s in
      let s := set_threads (fmap (with_status deadlocked)) s in
      set_isRunning false s) ].

Definition runDeadlockScenario (s : State) : State :=
  set_timer true 0 (set_isRunning true (reset s)).

(** One firing of the interval callback. *)
Definition onTick (now : string) (s : State) : State :=
  if interval s then
    match steps !! currentStep s with
    | Some f =>
        let s' := set_step (Z.of_nat (currentStep s) + 1) (f now s) in
        set_timer true (S (currentStep s)) s'
    | None => set_timer false (currentStep s) s
    end
  else s.

(** [n] consecutive firings; the [k]-th firing of a run reads the time
    [clock k]. *)
Fixpoint ticks (clock : nat → string) (k n : nat) (s : State) : State :=
  match n with
  | O => s
  | S n' => ticks clock (S k) n' (onTick (clock k) s)
  end.

(** What can happen to the page. *)
Inductive Event :=
  | Run
  | Reset
  | ToggleExplanation
  | Tick (now : string).

Definition handle (e : Event) (s : State) : State :=
  match e with
  | Run => runDeadlockScenario s
  | Reset => reset s
  | ToggleExplanation =>
      {| showExplanation := negb (showExplanation s);
         isRunning := isRunning s; isDeadlocked := isDeadlocked s;
         step := step s; logs := logs s; threads := threads s;
         locks := locks s; interval := interval s;
         currentStep := currentStep s |}
  | Tick now => onTick now s
  end.

End Deadlock.

(** ** Race-condition page *)
Module RaceCondition.

(** A JavaScript number as the unsafe demo can produce it: reading a
    missing key of [threadLocalValues] gives [undefined], and adding one
    to that gives [NaN]. *)
Inductive num := Num (n : Z) | NaN | Undefined.

(** [v + 1] *)
Definition add1 (v : num) : num :=
  match v with
  | Num n => Num (n + 1)
  | NaN | Undefined => NaN
  end.

(** [a >= b] *)
Definition geq (a b : num) : bool :=
  match a, b with
  | Num p, Num q => q <=? p
  | _, _ => false
  end.

(** [`${v}`] *)
Definition show (v : num) : string :=
  match v with
  | Num n => pretty n
  | NaN => "NaN"
  | Undefined => "undefined"
  end.

Inductive Step := idle | reading | computing | writing | done.

Record ThreadState := {
  id : Z;
  step : Step;
  localValue : option num;
  color : string }.

Record LogEntry := {
  threadId : Z;
  action : string;
  value : num;
  timestamp : Z;
  isLostUpdate : option bool }.

Definition initThreads : list ThreadState :=
  [ {| id := 1; step := idle; localValue := None; color := "blue" |};
    {| id := 2; step := idle; localValue := None; color := "purple" |};
    {| id := 3; step := idle; localValue := None; color := "green" |} ].

(** [{ ...t, step: st }] *)
Definition with_step (st : Step) (t : ThreadState) : ThreadState :=
  {| id := id t; step := st; localValue := localValue t;
     color := color t |}.

(** [{ ...t, step: st, localValue: v }] *)
Definition with_step_value (st : Step) (v : num) (t : ThreadState)
    : ThreadState :=
  {| id := id t; step := st; localValue := Some v; color := color t |}.

(** The unsafe counter: its React state, its interval and the locals of
    [runUnsafeDemo]. *)
Module Unsafe.

Inductive Kind := read | compute | write.

Record Action := { a_threadId : Z; a_action : Kind; desc : string }.

Record State := {
  unsafeCounter : num;
  unsafeThreads : list ThreadState;
  unsafeLog : list LogEntry;
  unsafeRunning : bool;
  lostUpdates : Z;
  (** whether the interval held by [unsafeInterval] is scheduled *)
  unsafeInterval : bool;
  (** [let counter], [let step], [let lost], [threadLocalValues] *)
  counter : num;
  stepIndex : nat;
  lost : Z;
  threadLocalValues : gmap Z num }.

Definition initial : State :=
  {| unsafeCounter := Num 0; unsafeThreads := initThreads;
     unsafeLog := []; unsafeRunning := false; lostUpdates := 0;
     unsafeInterval := false; counter := Num 0; stepIndex := 0;
     lost := 0; threadLocalValues := ∅ |}.

Definition sequence : list Action :=
  [ {| a_threadId := 1; a_action := read; desc := "Read counter" |};
    {| a_threadId := 2; a_action := read; desc := "Read counter" |};
    {| a_threadId := 3; a_action := read; desc := "Read counter" |};
    {| a_threadId := 1; a_action := compute; desc := "Compute +1" |};
    {| a_threadId := 2; a_action := compute; desc := "Compute +1" |};
    {| a_threadId := 3; a_action := compute; desc := "Compute +1" |};
    {| a_threadId := 1; a_action := write; desc := "Write result" |};
    {| a_threadId := 2; a_action := write; desc := "Write result" |};
    {| a_threadId := 3; a_action := write; desc := "Write result" |} ].

Definition runUnsafeDemo (s : State) : State :=
  {| unsafeCounter := Num 0; unsafeThreads := initThreads;
     unsafeLog := []; unsafeRunning := true; lostUpdates := 0;
     unsafeInterval := true; counter := Num 0; stepIndex := 0;
     lost := 0; threadLocalValues := ∅ |}.

(** [tlv[k]] *)
Definition local (tlv : gmap Z num) (k : Z) : num :=
  default Undefined (tlv !! k).

(** The updater handed to [setUnsafeThreads]: it maps over the threads
    and, for a thread of the acting id, also writes
    [threadLocalValues]. *)
Fixpoint visit (a : Action) (c : num) (tlv : gmap Z num)
    (prev : list ThreadState) : list ThreadState * gmap Z num :=
  match prev with
  | [] => ([], tlv)
  | t :: rest =>
      if id t =? a_threadId a then
        match a_action a with
        | read =>
            let r := visit a c (<[id t := c]> tlv) rest in
            (with_step_value reading c t :: r.1, r.2)
        | compute =>
            let computed := add1 (local tlv (id t)) in
            let r := visit a c (<[id t := computed]> tlv) rest in
            (with_step_value computing computed t :: r.1, r.2)
        | write =>
            let r := visit a c tlv rest in
            (with_step writing t :: r.1, r.2)
        end
      else
        let r := visit a c tlv rest in (t :: r.1, r.2)
  end.

(** One firing of the interval callback; [now] is [Date.now()]. *)
Definition onTick (now : Z) (s : State) : State :=
  if negb (unsafeInterval s) then s else
  match sequence !! stepIndex s with
  | None =>
      {| unsafeCounter := unsafeCounter s;
         unsafeThreads := with_step done <$> unsafeThreads s;
         unsafeLog := unsafeLog s; unsafeRunning := false;
         lostUpdates := lostUpdates s; unsafeInterval := false;
         counter := counter s; stepIndex := stepIndex s;
         lost := lost s; threadLocalValues := threadLocalValues s |}
  | Some a =>
      let v := visit a (counter s) (threadLocalValues s)
                 (unsafeThreads s) in
      let tlv := v.2 in
      match a_action a with
      | write =>
          let valueToWrite := local tlv (a_threadId a) in
          let isLost := geq (counter s) valueToWrite in
          let lost' := if isLost then lost s + 1 else lost s in
          {| unsafeCounter := valueToWrite; unsafeThreads := v.1;
             unsafeLog := unsafeLog s ++
               [ {| threadId := a_threadId a;
                    action := "Wrote " +:+ show valueToWrite;
                    value := valueToWrite; timestamp := now;
                    isLostUpdate := Some isLost |} ];
             unsafeRunning := unsafeRunning s;
             lostUpdates := if isLost then lost' else lostUpdates s;
             unsafeInterval := true; counter := valueToWrite;
             stepIndex := S (stepIndex s); lost := lost';
             threadLocalValues := tlv |}
      | k =>
          {| unsafeCounter := unsafeCounter s; unsafeThreads := v.1;
             unsafeLog := unsafeLog s ++
               [ {| threadId := a_threadId a;
                    action := desc a +:+ " (" +:+
                      show (match k with
                            | read => counter s
                            | _ => local tlv (a_threadId a)
                            end) +:+ ")";
                    value := counter s; timestamp := now;
                    isLostUpdate := None |} ];
             unsafeRunning := unsafeRunning s;
             lostUpdates := lostUpdates s; unsafeInterval := true;
             counter := counter s; stepIndex := S (stepIndex s);
             lost := lost s; threadLocalValues := tlv |}
      end
  end.

Fixpoint ticks (clock : nat → Z) (k n : nat) (s : State) : State :=
  match n with
  | O => s
  | S n' => ticks clock (S k) n' (onTick (clock k) s)
  end.

End Unsafe.

(** The atomic counter: its React state, its interval and the locals of
    [runAtomicDemo]. *)
Module Atomic.

Record State := {
  atomicCounter : Z;
  atomicThreads : list ThreadState;
  atomicLog : list LogEntry;
  atomicRunning : bool;
  (** whether the interval held by [atomicInterval] is scheduled *)
  atomicInterval : bool;
  (** [let counter], [let threadIndex] *)
  counter : Z;
  threadIndex : nat }.

Definition initial : State :=
  {| atomicCounter := 0; atomicThreads := initThreads; atomicLog := [];
     atomicRunning := false; atomicInterval := false; counter := 0;
     threadIndex := 0 |}.

Definition threadOrder : list Z := [1; 2; 3].

Definition runAtomicDemo (s : State) : State :=
  {| atomicCounter := 0; atomicThreads := initThreads; atomicLog := [];
     atomicRunning := true; atomicInterval := true; counter := 0;
     threadIndex := 0 |}.

(** One firing of the interval callback; [now] is [Date.now()].  The
    callback hands its updater to [setAtomicThreads] and then runs
    [counter++]; the updater is run afterwards, when the page renders, so
    that the [counter + 1] it stores is one more than the incremented
    counter [c]. *)
Definition onTick (now : Z) (s : State) : State :=
  if negb (atomicInterval s) then s else
  match threadOrder !! threadIndex s with
  | None =>
      {| atomicCounter := atomicCounter s;
         atomicThreads := with_step done <$> atomicThreads s;
         atomicLog := atomicLog s; atomicRunning := false;
         atomicInterval := false; counter := counter s;
         threadIndex := threadIndex s |}
  | Some currentThread =>
      let c := counter s + 1 in
      {| atomicCounter := c;
         atomicThreads :=
           (λ t, if id t =? currentThread
                 then with_step_value writing (Num (c + 1)) t
                 else t) <$> atomicThreads s;
         atomicLog := atomicLog s ++
           [ {| threadId := currentThread;
                action := "Atomic increment → " +:+ pretty c;
                value := Num c; timestamp := now;
                isLostUpdate := None |} ];
         atomicRunning := atomicRunning s; atomicInterval := true;
         counter := c; threadIndex := S (threadIndex s) |}
  end.

Fixpoint ticks (clock : nat → Z) (k n : nat) (s : State) : State :=
  match n with
  | O => s
  | S n' => ticks clock (S k) n' (onTick (clock k) s)
  end.

End Atomic.

(** The page: both demos side by side. *)
Record State := { unsafe : Unsafe.State; atomic : Atomic.State }.

Definition initial : State :=
  {| unsafe := Unsafe.initial; atomic := Atomic.initial |}.

Definition runUnsafeDemo (s : State) : State :=
  {| unsafe := Unsafe.runUnsafeDemo (unsafe s); atomic := atomic s |}.

Definition runAtomicDemo (s : State) : State :=
  {| unsafe := unsafe s; atomic := Atomic.runAtomicDemo (atomic s) |}.

(** The click handler of "Run Both Demos". *)
Definition runBoth (s : State) : State := runAtomicDemo (runUnsafeDemo s).

Definition resetAll (s : State) : State :=
  {| unsafe :=
       {| Unsafe.unsafeCounter := Num 0;
          Unsafe.unsafeThreads := initThreads; Unsafe.unsafeLog := [];
          Unsafe.unsafeRunning := false; Unsafe.lostUpdates := 0;
          Unsafe.unsafeInterval := false;
          Unsafe.counter := Unsafe.counter (unsafe s);
          Unsafe.stepIndex := Unsafe.stepIndex (unsafe s);
          Unsafe.lost := Unsafe.lost (unsafe s);
          Unsafe.threadLocalValues :=
            Unsafe.threadLocalValues (unsafe s) |};
     atomic :=
       {| Atomic.atomicCounter := 0; Atomic.atomicThreads := initThreads;
          Atomic.atomicLog := []; Atomic.atomicRunning := false;
          Atomic.atomicInterval := false;
          Atomic.counter := Atomic.counter (atomic s);
          Atomic.threadIndex := Atomic.threadIndex (atomic s) |} |}.

(** How many scripts are playing: the intervals still scheduled. *)
Definition playing (s : State) : nat :=
  ((if Unsafe.unsafeInterval (unsafe s) then 1 else 0) +
   (if Atomic.atomicInterval (atomic s) then 1 else 0))%nat.

(** What can happen to the page: its two buttons and the firings of its
    two timers. *)
Inductive Event :=
  | RunBoth
  | ResetAll
  | TickUnsafe (now : Z)
  | TickAtomic (now : Z).

Definition handle (e : Event) (s : State) : State :=
  match e with
  | RunBoth => runBoth s
  | ResetAll => resetAll s
  | TickUnsafe now =>
      {| unsafe := Unsafe.onTick now (unsafe s); atomic := atomic s |}
  | TickAtomic now =>
      {| unsafe := unsafe s; atomic := Atomic.onTick now (atomic s) |}
  end.

(** "Run Both Demos" is disabled while either demo is running. *)
Definition offered (e : Event) (s : State) : bool :=
  match e with
  | RunBoth =>
      negb (Unsafe.unsafeRunning (unsafe s) ||
            Atomic.atomicRunning (atomic s))
  | _ => true
  end.

Definition perform (e : Event) (s : State) : State :=
  if offered e s then handle e s else s.

Definition play (events : list Event) : State :=
  foldl (λ s e, perform e s) initial events.

End RaceCondition.

(** ** Locks and compare-and-swap page *)
Module LocksCAS.

(** [`${v}`] for a [number | null]. *)
Definition show (v : option Z) : string :=
  match v with
  | Some n => pretty n
  | None => "null"
  end.

(** The lock demo: its React state, its interval and [let step]. *)
Module Lock.

Inductive Phase := idle | acquiring | holding | releasing.

Record LockDemo := {
  active : bool;
  waiting : list Z;
  currentHolder : option Z;
  completedThreads : list Z;
  phase : Phase;
  executionLog : list string }.

Record State := {
  lockDemo : LockDemo;
  (** whether the interval held by [lockInterval] is scheduled *)
  lockInterval : bool;
  step : nat }.

Definition idleDemo : LockDemo :=
  {| active := false; waiting := []; currentHolder := None;
     completedThreads := []; phase := idle; executionLog := [] |}.

Definition initial : State :=
  {| lockDemo := idleDemo; lockInterval := false; step := 0 |}.

Definition initialThreads : list Z := [1; 2; 3; 4].

Definition startLockDemo (s : State) : State :=
  {| lockDemo :=
       {| active := true; waiting := drop 1 initialThreads;
          currentHolder := head initialThreads;
          completedThreads := []; phase := acquiring;
          executionLog := ["Thread 1 acquired the lock"] |};
     lockInterval := true; step := 0 |}.

Definition phases : list Phase := [holding; releasing; acquiring].

(** One firing of the interval callback: the updater handed to
    [setLockDemo], which also advances [step] and may stop the
    interval. *)
Definition onTick (s : State) : State :=
  if negb (lockInterval s) then s else
  let prev := lockDemo s in
  if (4 <=? length (completedThreads prev))%nat then
    {| lockDemo :=
         {| active := false; waiting := waiting prev;
            currentHolder := None;
            completedThreads := completedThreads prev; phase := idle;
            executionLog := executionLog prev ++
              ["‚úÖ All threads completed successfully!"] |};
       lockInterval := false; step := step s |}
  else
    match phases !! (step s mod 3)%nat with
    | Some holding =>
        {| lockDemo :=
             {| active := active prev; waiting := waiting prev;
                currentHolder := currentHolder prev;
                completedThreads := completedThreads prev;
                phase := holding;
                executionLog := executionLog prev ++
                  ["Thread " +:+ show (currentHolder prev) +:+
                   " is doing critical work..."] |};
           lockInterval := true; step := S (step s) |}
    | Some releasing =>
        let completed := currentHolder prev in
        {| lockDemo :=
             {| active := active prev; waiting := waiting prev;
                currentHolder := currentHolder prev;
                completedThreads :=
                  match completed with
                  | Some c =>
                      if JS.truthy completed
                      then completedThreads prev ++ [c]
                      else completedThreads prev
                  | None => completedThreads prev
                  end;
                phase := releasing;
                executionLog := executionLog prev ++
                  ["Thread " +:+ show completed +:+
                   " released the lock"] |};
           lockInterval := true; step := S (step s) |}
    | _ =>
        match waiting prev with
        | nextThread :: rest =>
            if JS.truthy (Some nextThread) then
              {| lockDemo :=
                   {| active := active prev; waiting := rest;
                      currentHolder := Some nextThread;
                      completedThreads := completedThreads prev;
                      phase := acquiring;
                      executionLog := executionLog prev ++
                        ["Thread " +:+ pretty nextThread +:+
                         " acquired the lock"] |};
                 lockInterval := true; step := S (step s) |}
            else
              {| lockDemo :=
                   {| active := false; waiting := waiting prev;
                      currentHolder := None;
                      completedThreads := completedThreads prev;
                      phase := idle;
                      executionLog := executionLog prev |};
                 lockInterval := false; step := S (step s) |}
        | [] =>
            {| lockDemo :=
                 {| active := false; waiting := waiting prev;
                    currentHolder := None;
                    completedThreads := completedThreads prev;
                    phase := idle;
                    executionLog := executionLog prev |};
               lockInterval := false; step := S (step s) |}
        end
    end.

Definition resetLockDemo (s : State) : State :=
  {| lockDemo := idleDemo; lockInterval := false; step := step s |}.

End Lock.

(** The compare-and-swap demo: its React state, its interval and the
    locals [attemptIndex] and [currentValue]. *)
Module CAS.

Inductive Phase := idle | reading | comparing | swapping | retrying.

Record CASAttempt := {
  expected : Z;
  actual : Z;
  newValue : Z;
  success : bool;
  id : Z;
  threadId : Z;
  timestamp : Z }.

Record CASDemo := {
  attempts : list CASAttempt;
  value : Z;
  isRunning : bool;
  phase : Phase;
  currentThread : option Z }.

Record State := {
  casDemo : CASDemo;
  (** whether the interval held by [casInterval] is scheduled *)
  casInterval : bool;
  attemptIndex : nat;
  currentValue : Z }.

Definition idleDemo : CASDemo :=
  {| attempts := []; value := 100; isRunning := false; phase := idle;
     currentThread := None |}.

Definition initial : State :=
  {| casDemo := idleDemo; casInterval := false; attemptIndex := 0;
     currentValue := 100 |}.

(** The [threads] table of [startCASDemo]: thread id and delay. *)
Definition threads : list (Z * Z) :=
  [(1, 0); (2, 300); (3, 600); (1, 1500); (2, 2100)].

Definition startCASDemo (s : State) : State :=
  {| casDemo :=
       {| attempts := []; value := 100; isRunning := true;
          phase := idle; currentThread := None |};
     casInterval := true; attemptIndex := 0; currentValue := 100 |}.

(** One firing of the interval callback; [now] is [Date.now()].  The
    constants of the callback ([thread], [expectedValue], [actualValue],
    [success], [newValue]) are computed from [attemptIndex] and
    [currentValue] as the firing finds them.  The updater handed to
    [setCasDemo] is run when the page renders, after [attemptIndex++]:
    the [id] it records is the incremented index. *)
Definition onTick (now : Z) (s : State) : State :=
  if negb (casInterval s) then s else
  let prev := casDemo s in
  match threads !! attemptIndex s with
  | None =>
      {| casDemo :=
           {| attempts := attempts prev; value := value prev;
              isRunning := false; phase := idle;
              currentThread := None |};
         casInterval := false; attemptIndex := attemptIndex s;
         currentValue := currentValue s |}
  | Some thread =>
      let expectedValue := currentValue s in
      let actualValue :=
        if ((0 <? attemptIndex s) && (attemptIndex s <? 3))%nat
        then currentValue s + 1 else currentValue s in
      let ok := expectedValue =? actualValue in
      let new := actualValue + 1 in
      {| casDemo :=
           {| attempts := attempts prev ++
                [ {| expected := expectedValue; actual := actualValue;
                     newValue := new; success := ok;
                     id := Z.of_nat (S (attemptIndex s));
                     threadId := thread.1; timestamp := now |} ];
              value := if ok then new else value prev;
              isRunning := isRunning prev;
              phase := if ok then swapping else retrying;
              currentThread := Some thread.1 |};
         casInterval := true; attemptIndex := S (attemptIndex s);
         currentValue := if ok then new else currentValue s |}
  end.

Fixpoint ticks (clock : nat → Z) (k n : nat) (s : State) : State :=
  match n with
  | O => s
  | S n' => ticks clock (S k) n' (onTick (clock k) s)
  end.

Definition resetCASDemo (s : State) : State :=
  {| casDemo := idleDemo; casInterval := false;
     attemptIndex := attemptIndex s; currentValue := currentValue s |}.

End CAS.

(** The page: the explanation toggle and both demos. *)
Record State := {
  showExplanation : bool;
  lock : Lock.State;
  cas : CAS.State }.

Definition initial : State :=
  {| showExplanation := true; lock := Lock.initial; cas := CAS.initial |}.

Definition startLockDemo (s : State) : State :=
  {| showExplanation := showExplanation s;
     lock := Lock.startLockDemo (lock s); cas := cas s |}.

Definition startCASDemo (s : State) : State :=
  {| showExplanation := showExplanation s; lock := lock s;
     cas := CAS.startCASDemo (cas s) |}.

Definition resetLockDemo (s : State) : State :=
  {| showExplanation := showExplanation s;
     lock := Lock.resetLockDemo (lock s); cas := cas s |}.

Definition resetCASDemo (s : State) : State :=
  {| showExplanation := showExplanation s; lock := lock s;
     cas := CAS.resetCASDemo (cas s) |}.

(** How many scripts are playing: the intervals still scheduled. *)
Definition playing (s : State) : nat :=
  ((if Lock.lockInterval (lock s) then 1 else 0) +
   (if CAS.casInterval (cas s) then 1 else 0))%nat.

(** What can happen to the page: the buttons of its two demos and the
    firings of their timers. *)
Inductive Event :=
  | StartLock
  | StartCAS
  | ResetLock
  | ResetCAS
  | TickLock
  | TickCAS (now : Z).

Definition handle (e : Event) (s : State) : State :=
  match e with
  | StartLock => startLockDemo s
  | StartCAS => startCASDemo s
  | ResetLock => resetLockDemo s
  | ResetCAS => resetCASDemo s
  | TickLock =>
      {| showExplanation := showExplanation s;
         lock := Lock.onTick (lock s); cas := cas s |}
  | TickCAS now =>
      {| showExplanation := showExplanation s; lock := lock s;
         cas := CAS.onTick now (cas s) |}
  end.

(** The start button of a demo is disabled while that demo is active. *)
Definition offered (e : Event) (s : State) : bool :=
  match e with
  | StartLock => negb (Lock.active (Lock.lockDemo (lock s)))
  | StartCAS => negb (CAS.isRunning (CAS.casDemo (cas s)))
  | _ => true
  end.

Definition perform (e : Event) (s : State) : State :=
  if offered e s then handle e s else s.

Definition play (events : list Event) : State :=
  foldl (λ s e, perform e s) initial events.

End LocksCAS.

(** ** Starvation page *)
Module Starvation.

Inductive Priority := high | medium | low.
Inductive Status := running | waiting | starving.
Inductive Scenario := unfair | fair.

#[global] Instance Status_eq_dec : EqDecision Status.
Proof. solve_decision. Defined.

Record Thread := {
  id : Z;
  name : string;
  priority : Priority;
  status : Status;
  waitTime : Z;
  executionTime : Z;
  color : string }.

Record State := {
  showExplanation : bool;
  isRunning : bool;
  isPaused : bool;
  scenario : Scenario;
  threads : list Thread;
  currentThread : option Thread;
  logs : list string;
  lockHolder : option Z;
  tick : Z;
  (** whether the interval held by [intervalRef] is scheduled *)
  interval : bool;
  pauseRef : bool;
  (** [let localTick] of the run function *)
  localTick : Z;
  (** [scenario], [lockHolder] and [tick] as the render in which the run
      function was invoked saw them; the interval callback and the
      [addLog] it calls read these. *)
  cap_scenario : Scenario;
  cap_lockHolder : option Z;
  cap_tick : Z }.

Definition mkThread (i : Z) (n : string) (p : Priority) (c : string)
    : Thread :=
  {| id := i; name := n; priority := p; status := waiting; waitTime := 0;
     executionTime := 0; color := c |}.

Definition initThreads : list Thread :=
  [ mkThread 1 "High Priority 1" high "#ef4444";
    mkThread 2 "High Priority 2" high "#f97316";
    mkThread 3 "Medium Priority" medium "#eab308";
    mkThread 4 "Low Priority 1" low "#22c55e";
    mkThread 5 "Low Priority 2" low "#3b82f6" ].

(** The component as first rendered: [threads] starts empty. *)
Definition initial : State :=
  {| showExplanation := true; isRunning := false; isPaused := false;
     scenario := unfair; threads := []; currentThread := None; logs := [];
     lockHolder := None; tick := 0; interval := false; pauseRef := false;
     localTick := 0; cap_scenario := unfair; cap_lockHolder := None;
     cap_tick := 0 |}.

(** [addLog] as captured by the interval callback. *)
Definition addLog (cap : Z) (message : string) (prev : list string)
    : list string :=
  JS.slice_last 12 prev ++ ["[" +:+ pretty cap +:+ "] " +:+ message].

Definition reset (s : State) : State :=
  {| showExplanation := showExplanation s; isRunning := false;
     isPaused := false; scenario := scenario s; threads := initThreads;
     currentThread := None; logs := []; lockHolder := None; tick := 0;
     interval := false; pauseRef := false; localTick := localTick s;
     cap_scenario := cap_scenario s; cap_lockHolder := cap_lockHolder s;
     cap_tick := cap_tick s |}.

Definition runSimulation (s : State) : State :=
  {| showExplanation := showExplanation s; isRunning := true;
     isPaused := false; scenario := scenario s; threads := initThreads;
     currentThread := None; logs := []; lockHolder := None; tick := 0;
     interval := true; pauseRef := false; localTick := 0;
     cap_scenario := scenario s; cap_lockHolder := lockHolder s;
     cap_tick := tick s |}.

Definition togglePause (s : State) : State :=
  {| showExplanation := showExplanation s; isRunning := isRunning s;
     isPaused := negb (isPaused s); scenario := scenario s;
     threads := threads s; currentThread := currentThread s;
     logs := logs s; lockHolder := lockHolder s; tick := tick s;
     interval := interval s; pauseRef := negb (pauseRef s);
     localTick := localTick s; cap_scenario := cap_scenario s;
     cap_lockHolder := cap_lockHolder s; cap_tick := cap_tick s |}.

Definition priorityOrder (p : Priority) : Z :=
  match p with
  | high => 0
  | medium => 1
  | low => 2
  end.

(** The first [map] of the updater: waiting time and starvation. *)
Definition age (t : Thread) : Thread :=
  {| id := id t; name := name t; priority := priority t;
     status :=
       match status t with
       | waiting => if 20 <? waitTime t then starving else waiting
       | st => st
       end;
     waitTime :=
       match status t with
       | waiting | starving => waitTime t + 1
       | running => waitTime t
       end;
     executionTime := executionTime t; color := color t |}.

(** [threads.filter((t) => t.status !== "running")]; an object of the
    array is named by its position, so that the later assignments to
    [selected] reach the element of [threads] they alias. *)
Definition waitingOf (ts : list Thread) : list (nat * Thread) :=
  List.filter (λ p, bool_decide (status p.2 ≠ running))
    (imap (λ i t, (i, t)) ts).

Definition byPriority (a b : nat * Thread) : Z :=
  priorityOrder (priority a.2) - priorityOrder (priority b.2).

Definition byPriorityAndWait (a b : nat * Thread) : Z :=
  let priorityDiff := byPriority a b in
  let waitBonus := (waitTime b.2 - waitTime a.2) / 10 in
  priorityDiff - waitBonus.

(** [waiting.sort(...)[0] || null] *)
Definition select (sc : Scenario) (ts : list Thread)
    : option (nat * Thread) :=
  match sc with
  | unfair => head (JS.sort byPriority (waitingOf ts))
  | fair => head (JS.sort byPriorityAndWait (waitingOf ts))
  end.

(** The thread the callback gives the lock to on a firing from [s], if
    any: [!lockHolder && selected]. *)
Definition assignment (s : State) : option (nat * Thread) :=
  if JS.truthy (cap_lockHolder s) then None
  else select (cap_scenario s) (age <$> threads s).

Definition released (t : Thread) : Thread :=
  {| id := id t; name := name t; priority := priority t;
     status := waiting; waitTime := 0;
     executionTime := executionTime t; color := color t |}.

Definition granted (t : Thread) : Thread :=
  {| id := id t; name := name t; priority := priority t;
     status := running; waitTime := waitTime t;
     executionTime := executionTime t + 1; color := color t |}.

(** One firing of the interval callback; [r] is the [Math.random()]
    draw, made only when some thread is running. *)
Definition onTick (r : Q) (s : State) : State :=
  if negb (interval s) then s else
  if pauseRef s then s else
  let localTick' := localTick s + 1 in
  let aged := age <$> threads s in
  let selected := assignment s in
  let running := list_find (λ t, status t = running) aged in
  let release :=
    match running with
    | Some _ => JS.gt r (7 # 10)
    | None => false
    end in
  let ts1 :=
    match running with
    | Some (i, _) => if release then alter released i aged else aged
    | None => aged
    end in
  let logs1 :=
    match running with
    | Some (_, t) =>
        if release
        then addLog (cap_tick s) (name t +:+ ": Released lock") (logs s)
        else logs s
    | None => logs s
    end in
  match selected with
  | Some (i, t) =>
      {| showExplanation := showExplanation s; isRunning := isRunning s;
         isPaused := isPaused s; scenario := scenario s;
         threads := alter granted i ts1;
         currentThread := Some (granted t);
         logs :=
           addLog (cap_tick s)
             (name t +:+ ": Acquired lock" +:+
              (if 20 <? waitTime t then " (was starving!)" else EmptyString))
             logs1;
         lockHolder := Some (id t); tick := localTick';
         interval := true; pauseRef := pauseRef s;
         localTick := localTick'; cap_scenario := cap_scenario s;
         cap_lockHolder := cap_lockHolder s; cap_tick := cap_tick s |}
  | None =>
      {| showExplanation := showExplanation s; isRunning := isRunning s;
         isPaused := isPaused s; scenario := scenario s; threads := ts1;
         currentThread := if release then None else currentThread s;
         logs := logs1;
         lockHolder := if release then None else lockHolder s;
         tick := localTick'; interval := true; pauseRef := pauseRef s;
         localTick := localTick'; cap_scenario := cap_scenario s;
         cap_lockHolder := cap_lockHolder s; cap_tick := cap_tick s |}
  end.

(** The scenario buttons: [!isRunning && setScenario(sc)]. *)
Definition clickScenario (sc : Scenario) (s : State) : State :=
  if isRunning s then s else
  {| showExplanation := showExplanation s; isRunning := isRunning s;
     isPaused := isPaused s; scenario := sc; threads := threads s;
     currentThread := currentThread s; logs := logs s;
     lockHolder := lockHolder s; tick := tick s; interval := interval s;
     pauseRef := pauseRef s; localTick := localTick s;
     cap_scenario := cap_scenario s; cap_lockHolder := cap_lockHolder s;
     cap_tick := cap_tick s |}.

(** What can happen to the page. *)
Inductive Event :=
  | Start
  | Reset
  | TogglePause
  | ClickScenario (sc : Scenario)
  | Tick (r : Q).

Definition handle (e : Event) (s : State) : State :=
  match e with
  | Start => runSimulation s
  | Reset => reset s
  | TogglePause => togglePause s
  | ClickScenario sc => clickScenario sc s
  | Tick r => onTick r s
  end.

(** Whether the page, as rendered in state [s], lets an event happen: the
    start button is rendered while no run is on and the pause button
    while one is; the scenario buttons are disabled during a run; the
    reset button is always there and the timer is not the user's. *)
Definition offered (e : Event) (s : State) : bool :=
  match e with
  | Start => negb (isRunning s)
  | TogglePause => isRunning s
  | ClickScenario _ => negb (isRunning s)
  | Reset => true
  | Tick _ => true
  end.

(** An event reaching the page between two renders. *)
Definition perform (e : Event) (s : State) : State :=
  if offered e s then handle e s else s.

(** The page after a sequence of events, from the first render. *)
Definition play (events : list Event) : State :=
  foldl (λ s e, perform e s) initial events.

End Starvation.

(** ** Semaphore page *)
Module Semaphore.

Inductive Status := waiting | processing | completed | rejected.

Record Request := {
  id : Z;
  status : Status;
  color : string;
  progress : Q }.

Definition COLORS : list string :=
  ["#ef4444"; "#f97316"; "#eab308"; "#22c55e"; "#3b82f6"; "#8b5cf6";
   "#ec4899"]%string.

(** What a handler reads directly from the render it belongs to. *)
Record Render := {
  r_maxPermits : Z;
  r_availablePermits : Z;
  r_waitingRequests : list Request;
  r_requestCounter : Z;
  r_autoSpawn : bool }.

Record State := {
  isRunning : bool;
  isPaused : bool;
  maxPermits : Z;
  availablePermits : Z;
  waitingRequests : list Request;
  activeRequests : list Request;
  completedCount : Z;
  rejectedCount : Z;
  logs : list string;
  requestCounter : Z;
  autoSpawn : bool;
  (** whether the interval held by [intervalRef] is scheduled *)
  interval : bool;
  pauseRef : bool;
  (** the render in which the run function was invoked *)
  captured : Render }.

(** The render of the current state. *)
Definition render (s : State) : Render :=
  {| r_maxPermits := maxPermits s;
     r_availablePermits := availablePermits s;
     r_waitingRequests := waitingRequests s;
     r_requestCounter := requestCounter s; r_autoSpawn := autoSpawn s |}.

Definition initial : State :=
  {| isRunning := false; isPaused := false; maxPermits := 3;
     availablePermits := 3; waitingRequests := []; activeRequests := [];
     completedCount := 0; rejectedCount := 0; logs := [];
     requestCounter := 0; autoSpawn := true; interval := false;
     pauseRef := false;
     captured :=
       {| r_maxPermits := 3; r_availablePermits := 3;
          r_waitingRequests := []; r_requestCounter := 0;
          r_autoSpawn := true |} |}.

Definition set_availablePermits (f : Z → Z) (s : State) : State :=
  {| isRunning := isRunning s; isPaused := isPaused s;
     maxPermits := maxPermits s;
     availablePermits := f (availablePermits s);
     waitingRequests := waitingRequests s;
     activeRequests := activeRequests s;
     completedCount := completedCount s; rejectedCount := rejectedCount s;
     logs := logs s; requestCounter := requestCounter s;
     autoSpawn := autoSpawn s; interval := interval s;
     pauseRef := pauseRef s; captured := captured s |}.

Definition set_waitingRequests (f : list Request → list Request) (s : State) : State :=
  {| isRunning := isRunning s; isPaused := isPaused s;
     maxPermits := maxPermits s; availablePermits := availablePermits s;
     waitingRequests := f (waitingRequests s);
     activeRequests := activeRequests s;
     completedCount := completedCount s; rejectedCount := rejectedCount s;
     logs := logs s; requestCounter := requestCounter s;
     autoSpawn := autoSpawn s; interval := interval s;
     pauseRef := pauseRef s; captured := captured s |}.

Definition set_activeRequests (f : list Request → list Request) (s : State) : State :=
  {| isRunning := isRunning s; isPaused := isPaused s;
     maxPermits := maxPermits s; availablePermits := availablePermits s;
     waitingRequests := waitingRequests s;
     activeRequests := f (activeRequests s);
     completedCount := completedCount s; rejectedCount := rejectedCount s;
     logs := logs s; requestCounter := requestCounter s;
     autoSpawn := autoSpawn s; interval := interval s;
     pauseRef := pauseRef s; captured := captured s |}.

Definition set_completedCount (f : Z → Z) (s : State) : State :=
  {| isRunning := isRunning s; isPaused := isPaused s;
     maxPermits := maxPermits s; availablePermits := availablePermits s;
     waitingRequests := waitingRequests s;
     activeRequests := activeRequests s;
     completedCount := f (completedCount s);
     rejectedCount := rejectedCount s; logs := logs s;
     requestCounter := requestCounter s; autoSpawn := autoSpawn s;
     interval := interval s; pauseRef := pauseRef s;
     captured := captured s |}.

Definition set_rejectedCount (f : Z → Z) (s : State) : State :=
  {| isRunning := isRunning s; isPaused := isPaused s;
     maxPermits := maxPermits s; availablePermits := availablePermits s;
     waitingRequests := waitingRequests s;
     activeRequests := activeRequests s;
     completedCount := completedCount s;
     rejectedCount := f (rejectedCount s); logs := logs s;
     requestCounter := requestCounter s; autoSpawn := autoSpawn s;
     interval := interval s; pauseRef := pauseRef s;
     captured := captured s |}.

Definition set_logs (f : list string → list string) (s : State) : State :=
  {| isRunning := isRunning s; isPaused := isPaused s;
     maxPermits := maxPermits s; availablePermits := availablePermits s;
     waitingRequests := waitingRequests s;
     activeRequests := activeRequests s;
     completedCount := completedCount s; rejectedCount := rejectedCount s;
     logs := f (logs s); requestCounter := requestCounter s;
     autoSpawn := autoSpawn s; interval := interval s;
     pauseRef := pauseRef s; captured := captured s |}.

Definition set_requestCounter (f : Z → Z) (s : State) : State :=
  {| isRunning := isRunning s; isPaused := isPaused s;
     maxPermits := maxPermits s; availablePermits := availablePermits s;
     waitingRequests := waitingRequests s;
     activeRequests := activeRequests s;
     completedCount := completedCount s; rejectedCount := rejectedCount s;
     logs := logs s; requestCounter := f (requestCounter s);
     autoSpawn := autoSpawn s; interval := interval s;
     pauseRef := pauseRef s; captured := captured s |}.

Inductive LogType := acquired | released | rejected_log | info.

Definition colors (type : LogType) : string :=
  match type with
  | acquired => "text-green-400"
  | released => "text-blue-400"
  | rejected_log => "text-red-400"
  | info => "text-slate-400"
  end.

(** The line [addLog] stores for a message. *)
Definition line (now message : string) (type : LogType) : string :=
  "<span class=" +:+ JS.dquote +:+ colors type +:+ JS.dquote +:+ ">[" +:+
  now +:+ "] " +:+ message +:+ "</span>".

Definition addLog (now message : string) (type : LogType)
    : State → State :=
  set_logs (λ prev, JS.slice_last 12 prev ++ [line now message type]).

Definition reset (s : State) : State :=
  {| isRunning := false; isPaused := false; maxPermits := maxPermits s;
     availablePermits := maxPermits s; waitingRequests := [];
     activeRequests := []; completedCount := 0; rejectedCount := 0;
     logs := []; requestCounter := 0; autoSpawn := autoSpawn s;
     interval := false; pauseRef := false; captured := captured s |}.

(** [{ ...r, status: st }] *)
Definition with_status (st : Status) (r : Request) : Request :=
  {| id := id r; status := st; color := color r;
     progress := progress r |}.

(** [spawnRequest] as created by the render [view]: the branch taken
    depends on [view], the updaters act on the current state. *)
Definition spawnRequest (view : Render) (now : string) (s : State)
    : State :=
  let newRequest :=
    {| id := r_requestCounter view + 1; status := waiting;
       color := JS.cyclic COLORS (r_requestCounter view);
       progress := 0%Q |} in
  let s := set_requestCounter (λ prev, prev + 1) s in
  if 0 <? r_availablePermits view then
    let s := set_availablePermits (λ prev, prev - 1) s in
    let s :=
      set_activeRequests
        (λ prev, prev ++ [with_status processing newRequest]) s in
    addLog now
      ("Request #" +:+ pretty (id newRequest) +:+ ": Acquired permit (" +:+
       pretty (r_availablePermits view - 1) +:+ " left)") acquired s
  else if (length (r_waitingRequests view) <? 10)%nat then
    let s := set_waitingRequests (λ prev, prev ++ [newRequest]) s in
    addLog now
      ("Request #" +:+ pretty (id newRequest) +:+ ": Waiting for permit...")
      info s
  else
    let s := set_rejectedCount (λ prev, prev + 1) s in
    addLog now
      ("Request #" +:+ pretty (id newRequest) +:+ ": REJECTED - Queue full!")
      rejected_log s.

(** The "Add Request" button: [spawnRequest] of the current render. *)
Definition clickAddRequest (now : string) (s : State) : State :=
  spawnRequest (render s) now s.

Definition runSimulation (s : State) : State :=
  {| isRunning := true; isPaused := false; maxPermits := maxPermits s;
     availablePermits := maxPermits s; waitingRequests := [];
     activeRequests := []; completedCount := 0; rejectedCount := 0;
     logs := []; requestCounter := 0; autoSpawn := autoSpawn s;
     interval := true; pauseRef := false; captured := render s |}.

Definition togglePause (s : State) : State :=
  {| isRunning := isRunning s; isPaused := negb (isPaused s);
     maxPermits := maxPermits s; availablePermits := availablePermits s;
     waitingRequests := waitingRequests s;
     activeRequests := activeRequests s;
     completedCount := completedCount s;
     rejectedCount := rejectedCount s; logs := logs s;
     requestCounter := requestCounter s; autoSpawn := autoSpawn s;
     interval := interval s; pauseRef := negb (pauseRef s);
     captured := captured s |}.

Definition updateMaxPermits (delta : Z) (s : State) : State :=
  if isRunning s then s else
  let newMax := Z.max 1 (Z.min 8 (maxPermits s + delta)) in
  {| isRunning := isRunning s; isPaused := isPaused s;
     maxPermits := newMax; availablePermits := newMax;
     waitingRequests := waitingRequests s;
     activeRequests := activeRequests s;
     completedCount := completedCount s;
     rejectedCount := rejectedCount s; logs := logs s;
     requestCounter := requestCounter s; autoSpawn := autoSpawn s;
     interval := interval s; pauseRef := pauseRef s;
     captured := captured s |}.

(** The random draws of one firing: one per active request, by position,
    and the one deciding whether a request is spawned. *)
Record Draws := { progress_draw : nat → Q; spawn_draw : Q }.

(** [r.progress + 100 / (Math.random() * 3 + 2)] *)
Definition newProgress (d : Q) (r : Request) : Q :=
  JS.add (progress r) (JS.div 100 (JS.add (JS.mul d 3) 2)).

(** The two arrays built by the [forEach] of the first updater. *)
Definition progressed (d : nat → Q) (prev : list Request)
    : list Request * list Request :=
  let tagged := imap (λ i r, (newProgress (d i) r, r)) prev in
  ( omap (λ p, if JS.ge p.1 100%Q then None
               else Some {| id := id p.2; status := status p.2;
                            color := color p.2; progress := p.1 |})
      tagged,
    omap (λ p, if JS.ge p.1 100%Q
               then Some {| id := id p.2; status := completed;
                            color := color p.2; progress := 100%Q |}
               else None)
      tagged ).

(** The [filter] of the second updater: requests promoted while
    [tempPermits] lasts, the permits left, and the requests that stay. *)
Fixpoint promote (tempPermits : Z) (prev : list Request)
    : list Request * Z * list Request :=
  match prev with
  | [] => ([], tempPermits, [])
  | r :: rest =>
      if 0 <? tempPermits then
        let '(promoting, permits, remaining) :=
          promote (tempPermits - 1) rest in
        (with_status processing r :: promoting, permits, remaining)
      else
        let '(promoting, permits, remaining) := promote tempPermits rest in
        (promoting, permits, r :: remaining)
  end.

(** The calls the first updater makes for the requests it found
    completed ([completed.forEach]): each gives its permit back, is
    counted and logged. *)
Definition release (now : string) (cap : Render) (done : list Request)
    (s : State) : State :=
  foldl (λ s r,
    let s :=
      set_availablePermits (λ p, Z.min (p + 1) (r_maxPermits cap)) s in
    let s := set_completedCount (λ c, c + 1) s in
    addLog now
      ("Request #" +:+ pretty (id r) +:+ ": ✓ Completed, released permit")
      released s) s done.

(** The first updater of the callback, [setActiveRequests], when no other
    update is pending: every active request advances; the completed ones
    leave, give their permit back and are logged. *)
Definition progressActive (now : string) (d : nat → Q) (cap : Render)
    (s : State) : State :=
  let '(stillActive, done) := progressed d (activeRequests s) in
  let s := set_activeRequests (λ _, stillActive) s in
  release now cap done s.

(** The calls the second updater makes: a line for each request it
    promotes, logged while filtering; then, [if (promoting.length > 0)],
    the permits left and the promoted requests, appended to the active
    ones. *)
Definition promoted (now : string) (promoting : list Request)
    (tempPermits : Z) (s : State) : State :=
  let s :=
    foldl (λ s r,
      addLog now
        ("Request #" +:+ pretty (id r) +:+ ": Acquired permit")
        acquired s) s promoting in
  match promoting with
  | [] => s
  | _ =>
      let s := set_availablePermits (λ _, tempPermits) s in
      set_activeRequests (λ active, active ++ promoting) s
  end.

(** The second updater, [setWaitingRequests], when no other update is
    pending: waiting requests are promoted while the permits the render
    showed last. *)
Definition promoteWaiting (now : string) (cap : Render) (s : State)
    : State :=
  match waitingRequests s with
  | [] => s
  | prev =>
      let '(promoting, tempPermits, remaining) :=
        promote (r_availablePermits cap) prev in
      let s := set_waitingRequests (λ _, remaining) s in
      promoted now promoting tempPermits s
  end.

(** One firing of the interval callback.

    The callback itself only queues updates: the first updater for
    [activeRequests], the second for [waitingRequests] and then, in
    [spawnRequest], those of the new request.  React serves the queues
    when it renders, state by state in the order of the [useState] lines
    ([availablePermits], [waitingRequests], [activeRequests],
    [completedCount], [rejectedCount], [logs], [requestCounter]), each
    queue in the order of the calls.  The calls an updater makes join the
    queues at that moment: behind what the callback has queued, those of
    the second updater before those of the first, which is served later;
    a call for a state served already ([availablePermits]) is served in
    a second pass.  So each updater works on the list the firing found,
    the new request comes behind the requests that stay active and
    before the promoted ones, and the permits are decremented for the
    new request, then set by the promotion, then given back by the
    completed requests. *)
Definition onTick (now : string) (d : Draws) (s : State) : State :=
  if negb (interval s) then s else
  if pauseRef s then s else
  let cap := captured s in
  (* what the two updaters return *)
  let '(stillActive, done) :=
    progressed (progress_draw d) (activeRequests s) in
  let '(promoting, tempPermits, remaining) :=
    promote (r_availablePermits cap) (waitingRequests s) in
  let s := set_activeRequests (λ _, stillActive) s in
  let s := set_waitingRequests (λ _, remaining) s in
  (* auto-spawn: the calls of the callback, queued behind the updaters *)
  let s :=
    if r_autoSpawn cap && JS.gt (spawn_draw d) (6 # 10)
    then spawnRequest cap now s
    else s in
  (* the calls of the second updater, then those of the first *)
  let s := promoted now promoting tempPermits s in
  release now cap done s.

(** What can happen to the page. *)
Inductive Event :=
  | Start
  | Reset
  | TogglePause
  | UpdateMaxPermits (delta : Z)
  | AddRequest (now : string)
  | Tick (now : string) (d : Draws).

Definition handle (e : Event) (s : State) : State :=
  match e with
  | Start => runSimulation s
  | Reset => reset s
  | TogglePause => togglePause s
  | UpdateMaxPermits delta => updateMaxPermits delta s
  | AddRequest now => clickAddRequest now s
  | Tick now d => onTick now d s
  end.

(** The "Auto-spawn requests" checkbox: [setAutoSpawn(e.target.checked)]. *)
Definition setAutoSpawn (checked : bool) (s : State) : State :=
  {| isRunning := isRunning s; isPaused := isPaused s;
     maxPermits := maxPermits s; availablePermits := availablePermits s;
     waitingRequests := waitingRequests s;
     activeRequests := activeRequests s;
     completedCount := completedCount s;
     rejectedCount := rejectedCount s; logs := logs s;
     requestCounter := requestCounter s; autoSpawn := checked;
     interval := interval s; pauseRef := pauseRef s;
     captured := captured s |}.

(** What reaches the page: the events above and the checkbox. *)
Inductive Input :=
  | Page (e : Event)
  | AutoSpawn (checked : bool).

(** Whether the page, as rendered in state [s], lets an input happen: the
    start button is rendered while no run is on and the pause button
    while one is; the permit buttons are disabled during a run (and at the
    end of the range, where [updateMaxPermits] changes nothing); "Add
    Request" is disabled unless a run is on and not paused. *)
Definition offered (i : Input) (s : State) : bool :=
  match i with
  | Page Start => negb (isRunning s)
  | Page TogglePause => isRunning s
  | Page (UpdateMaxPermits _) => negb (isRunning s)
  | Page (AddRequest _) => isRunning s && negb (isPaused s)
  | Page Reset => true
  | Page (Tick _ _) => true
  | AutoSpawn _ => true
  end.

(** An input reaching the page between two renders. *)
Definition perform (i : Input) (s : State) : State :=
  if offered i s then
    match i with
    | Page e => handle e s
    | AutoSpawn checked => setAutoSpawn checked s
    end
  else s.

(** The page after a sequence of inputs, from the first render. *)
Definition play (inputs : list Input) : State :=
  foldl (λ s i, perform i s) initial inputs.

End Semaphore.

(** ** Producer-consumer page *)
Module ProducerConsumer.

Module Item.
Inductive Status := producing | inQueue | consuming | consumed.
Record Item := {
  id : Z;
  color : string;
  producedBy : Z;
  status : Status }.
End Item.
Abbreviation Item := Item.Item.

Inductive Kind := producer | consumer.
Inductive Status := idle | working | blocked | done.

Record ThreadState := {
  id : Z;
  name : string;
  type : Kind;
  status : Status;
  currentItem : option Z }.

Definition BUFFER_SIZE : nat := 5.

Definition COLORS : list string :=
  ["#ef4444"; "#f97316"; "#eab308"; "#22c55e"; "#3b82f6"; "#8b5cf6";
   "#ec4899"]%string.

(** The callbacks handed to [setTimeout]: what each does when it
    fires. *)
Inductive Timeout :=
  | producer_finished (producerId : Z)
  | producer_unblocked (producerId : Z)
  | consumer_finished (consumerId : Z)
  | consumer_unblocked (consumerId : Z).

Record State := {
  isRunning : bool;
  isPaused : bool;
  queue : list Item;
  produced : Z;
  consumed : Z;
  logs : list string;
  itemCounter : Z;
  producers : list ThreadState;
  consumers : list ThreadState;
  (** whether the interval held by [intervalRef] is scheduled *)
  interval : bool;
  pauseRef : bool;
  (** locals of the run function *)
  localItemCounter : Z;
  localQueue : list Item;
  localProduced : Z;
  localConsumed : Z;
  (** timeouts scheduled and not yet fired *)
  timeouts : list Timeout }.

Definition initProducers : list ThreadState :=
  [ {| id := 1; name := "Producer 1"; type := producer; status := idle;
       currentItem := None |};
    {| id := 2; name := "Producer 2"; type := producer; status := idle;
       currentItem := None |} ].

Definition initConsumers : list ThreadState :=
  [ {| id := 1; name := "Consumer 1"; type := consumer; status := idle;
       currentItem := None |};
    {| id := 2; name := "Consumer 2"; type := consumer; status := idle;
       currentItem := None |} ].

Definition initial : State :=
  {| isRunning := false; isPaused := false; queue := []; produced := 0;
     consumed := 0; logs := []; itemCounter := 0;
     producers := initProducers; consumers := initConsumers;
     interval := false; pauseRef := false; localItemCounter := 0;
     localQueue := []; localProduced := 0; localConsumed := 0;
     timeouts := [] |}.

Inductive LogType := produce | consume | blocked_log | info.

Definition colors (type : LogType) : string :=
  match type with
  | produce => "text-green-400"
  | consume => "text-blue-400"
  | blocked_log => "text-yellow-400"
  | info => "text-slate-400"
  end.

(** The line [addLog] stores for a message. *)
Definition line (now message : string) (type : LogType) : string :=
  "<span class=" +:+ JS.dquote +:+ colors type +:+ JS.dquote +:+ ">[" +:+
  now +:+ "] " +:+ message +:+ "</span>".

Definition addLog (now message : string) (type : LogType)
    (prev : list string) : list string :=
  JS.slice_last 12 prev ++ [line now message type].

Definition reset (s : State) : State :=
  {| isRunning := false; isPaused := false; queue := []; produced := 0;
     consumed := 0; logs := []; itemCounter := 0;
     producers := initProducers; consumers := initConsumers;
     interval := false; pauseRef := false;
     localItemCounter := localItemCounter s; localQueue := localQueue s;
     localProduced := localProduced s; localConsumed := localConsumed s;
     timeouts := timeouts s |}.

Definition runSimulation (s : State) : State :=
  {| isRunning := true; isPaused := false; queue := []; produced := 0;
     consumed := 0; logs := []; itemCounter := 0;
     producers := initProducers; consumers := initConsumers;
     interval := true; pauseRef := false; localItemCounter := 0;
     localQueue := []; localProduced := 0; localConsumed := 0;
     timeouts := timeouts s |}.

Definition togglePause (s : State) : State :=
  {| isRunning := isRunning s; isPaused := negb (isPaused s);
     queue := queue s; produced := produced s; consumed := consumed s;
     logs := logs s; itemCounter := itemCounter s;
     producers := producers s; consumers := consumers s;
     interval := interval s; pauseRef := negb (pauseRef s);
     localItemCounter := localItemCounter s; localQueue := localQueue s;
     localProduced := localProduced s; localConsumed := localConsumed s;
     timeouts := timeouts s |}.

(** [prev.map((p) => p.id === n ? f(p) : p)] *)
Definition on_thread (n : Z) (f : ThreadState → ThreadState)
    (prev : list ThreadState) : list ThreadState :=
  (λ p, if id p =? n then f p else p) <$> prev.

(** [{ ...p, status: st, currentItem: c }] *)
Definition with_work (st : Status) (c : option Z) (p : ThreadState)
    : ThreadState :=
  {| id := id p; name := name p; type := type p; status := st;
     currentItem := c |}.

(** [{ ...p, status: st }] *)
Definition with_status (st : Status) (p : ThreadState) : ThreadState :=
  {| id := id p; name := name p; type := type p; status := st;
     currentItem := currentItem p |}.

(** [p.status === "blocked" ? { ...p, status: "idle" } : p] *)
Definition unblock (p : ThreadState) : ThreadState :=
  match status p with
  | blocked => with_status idle p
  | _ => p
  end.

(** The producer branch of the callback, for the drawn [producerId]. *)
Definition produceAction (now : string) (producerId : Z) (s : State)
    : State :=
  if (length (localQueue s) <? BUFFER_SIZE)%nat then
    let n := localItemCounter s + 1 in
    let newItem :=
      {| Item.id := n; Item.color := JS.cyclic COLORS n;
         Item.producedBy := producerId; Item.status := Item.inQueue |} in
    let q := localQueue s ++ [newItem] in
    {| isRunning := isRunning s; isPaused := isPaused s; queue := q;
       produced := localProduced s + 1; consumed := consumed s;
       logs := addLog now
         ("Producer " +:+ pretty producerId +:+ ": Produced item #" +:+
          pretty n) produce (logs s);
       itemCounter := n;
       producers := on_thread producerId (with_work working (Some n)) (producers s);
       consumers := consumers s; interval := interval s;
       pauseRef := pauseRef s; localItemCounter := n; localQueue := q;
       localProduced := localProduced s + 1;
       localConsumed := localConsumed s;
       timeouts := timeouts s ++ [producer_finished producerId] |}
  else
    {| isRunning := isRunning s; isPaused := isPaused s; queue := queue s;
       produced := produced s; consumed := consumed s;
       logs := addLog now
         ("Producer " +:+ pretty producerId +:+ ": BLOCKED - Queue full!")
         blocked_log (logs s);
       itemCounter := itemCounter s;
       producers := on_thread producerId (with_status blocked) (producers s);
       consumers := consumers s; interval := interval s;
       pauseRef := pauseRef s; localItemCounter := localItemCounter s;
       localQueue := localQueue s; localProduced := localProduced s;
       localConsumed := localConsumed s;
       timeouts := timeouts s ++ [producer_unblocked producerId] |}.

(** The consumer branch of the callback, for the drawn [consumerId]. *)
Definition consumeAction (now : string) (consumerId : Z) (s : State)
    : State :=
  match localQueue s with
  | item :: rest =>
      {| isRunning := isRunning s; isPaused := isPaused s; queue := rest;
         produced := produced s; consumed := localConsumed s + 1;
         logs := addLog now
         ("Consumer " +:+ pretty consumerId +:+ ": Consumed item #" +:+
          pretty (Item.id item)) consume (logs s);
         itemCounter := itemCounter s; producers := producers s;
         consumers := on_thread consumerId (with_work working (Some (Item.id item))) (consumers s);
         interval := interval s; pauseRef := pauseRef s;
         localItemCounter := localItemCounter s; localQueue := rest;
         localProduced := localProduced s;
         localConsumed := localConsumed s + 1;
         timeouts := timeouts s ++ [consumer_finished consumerId] |}
  | [] =>
      {| isRunning := isRunning s; isPaused := isPaused s;
         queue := queue s; produced := produced s; consumed := consumed s;
         logs := addLog now
         ("Consumer " +:+ pretty consumerId +:+ ": BLOCKED - Queue empty!")
         blocked_log (logs s);
         itemCounter := itemCounter s; producers := producers s;
         consumers := on_thread consumerId (with_status blocked) (consumers s);
         interval := interval s; pauseRef := pauseRef s;
         localItemCounter := localItemCounter s;
         localQueue := localQueue s; localProduced := localProduced s;
         localConsumed := localConsumed s;
         timeouts := timeouts s ++ [consumer_unblocked consumerId] |}
  end.

(** The four [Math.random()] draws a firing can make. *)
Record Draws := {
  produce_draw : Q;
  producer_draw : Q;
  consume_draw : Q;
  consumer_draw : Q }.

(** One firing of the interval callback. *)
Definition onTick (now : string) (d : Draws) (s : State) : State :=
  if negb (interval s) then s else
  if pauseRef s then s else
  let s :=
    if JS.gt (produce_draw d) (4 # 10) then
      produceAction now (if JS.gt (producer_draw d) (5 # 10) then 1 else 2)
        s
    else s in
  if JS.gt (consume_draw d) (3 # 10) then
    consumeAction now (if JS.gt (consumer_draw d) (5 # 10) then 1 else 2) s
  else s.

Definition set_threads (ps cs : list ThreadState) (pending : list Timeout)
    (s : State) : State :=
  {| isRunning := isRunning s; isPaused := isPaused s; queue := queue s;
     produced := produced s; consumed := consumed s; logs := logs s;
     itemCounter := itemCounter s; producers := ps; consumers := cs;
     interval := interval s; pauseRef := pauseRef s;
     localItemCounter := localItemCounter s; localQueue := localQueue s;
     localProduced := localProduced s; localConsumed := localConsumed s;
     timeouts := pending |}.

(** The [i]-th pending timeout fires. *)
Definition onTimeout (i : nat) (s : State) : State :=
  match timeouts s !! i with
  | None => s
  | Some t =>
      let pending := delete i (timeouts s) in
      match t with
      | producer_finished n =>
          set_threads (on_thread n (with_work idle None) (producers s))
            (consumers s) pending s
      | producer_unblocked n =>
          set_threads (on_thread n unblock (producers s)) (consumers s)
            pending s
      | consumer_finished n =>
          set_threads (producers s)
            (on_thread n (with_work idle None) (consumers s)) pending s
      | consumer_unblocked n =>
          set_threads (producers s) (on_thread n unblock (consumers s))
            pending s
      end
  end.

(** What can happen to the page. *)
Inductive Event :=
  | Start
  | Reset
  | TogglePause
  | Tick (now : string) (d : Draws)
  | Fire (i : nat).

Definition handle (e : Event) (s : State) : State :=
  match e with
  | Start => runSimulation s
  | Reset => reset s
  | TogglePause => togglePause s
  | Tick now d => onTick now d s
  | Fire i => onTimeout i s
  end.

(** The states the page can be in: those reached from the first render
    by a sequence of events. *)
Inductive reachable : State → Prop :=
  | reachable_initial : reachable initial
  | reachable_step e s : reachable s → reachable (handle e s).

End ProducerConsumer.

(** ** Thread-pool page *)
Module ThreadPool.

Module Task.
Inductive Status := queued | processing | completed.
Record Task := {
  id : Z;
  duration : Z;
  status : Status;
  assignedTo : option Z;
  progress : Q;
  color : string }.
End Task.
Abbreviation Task := Task.Task.

Module Worker.
Inductive Status := idle | busy.
Record Worker := {
  id : Z;
  name : string;
  status : Status;
  currentTask : option Z;
  completedTasks : Z }.
End Worker.
Abbreviation Worker := Worker.Worker.

Definition COLORS : list string :=
  ["#ef4444"; "#f97316"; "#eab308"; "#22c55e"; "#3b82f6"; "#8b5cf6";
   "#ec4899"; "#06b6d4"]%string.

Record State := {
  isRunning : bool;
  isPaused : bool;
  workerCount : nat;
  taskQueue : list Task;
  completedTasks : list Task;
  workers : list Worker;
  logs : list string;
  taskCounter : Z;
  totalProcessed : Z;
  (** whether the interval held by [intervalRef] is scheduled *)
  interval : bool;
  pauseRef : bool }.

(** [Array.from({ length: n }, (_, i) => ({ id: i + 1, ... }))] *)
Definition makeWorkers (n : nat) : list Worker :=
  (λ i : nat,
     {| Worker.id := Z.of_nat i + 1;
        Worker.name := "Worker " +:+ pretty (Z.of_nat i + 1);
        Worker.status := Worker.idle; Worker.currentTask := None;
        Worker.completedTasks := 0 |}) <$> seq 0 n.

(** The state the hooks are created with. *)
Definition initial : State :=
  {| isRunning := false; isPaused := false; workerCount := 4;
     taskQueue := []; completedTasks := []; workers := []; logs := [];
     taskCounter := 0; totalProcessed := 0; interval := false;
     pauseRef := false |}.

(** The effect that runs after the first render and whenever
    [workerCount] changes. *)
Definition initWorkers (s : State) : State :=
  {| isRunning := isRunning s; isPaused := isPaused s;
     workerCount := workerCount s; taskQueue := taskQueue s;
     completedTasks := completedTasks s;
     workers := makeWorkers (workerCount s); logs := logs s;
     taskCounter := taskCounter s; totalProcessed := totalProcessed s;
     interval := interval s; pauseRef := pauseRef s |}.

(** The worker-count buttons: [!isRunning && setWorkerCount(count)],
    followed by the effect. *)
Definition clickWorkerCount (count : nat) (s : State) : State :=
  if isRunning s then s else
  {| isRunning := isRunning s; isPaused := isPaused s;
     workerCount := count; taskQueue := taskQueue s;
     completedTasks := completedTasks s;
     workers := if (count =? workerCount s)%nat then workers s else makeWorkers count;
     logs := logs s; taskCounter := taskCounter s;
     totalProcessed := totalProcessed s; interval := interval s;
     pauseRef := pauseRef s |}.

Definition addLog (now message : string) (prev : list string)
    : list string :=
  JS.slice_last 15 prev ++ ["[" +:+ now +:+ "] " +:+ message].

Definition reset (s : State) : State :=
  {| isRunning := false; isPaused := false; workerCount := workerCount s;
     taskQueue := []; completedTasks := [];
     workers := makeWorkers (workerCount s); logs := []; taskCounter := 0;
     totalProcessed := 0; interval := false; pauseRef := false |}.

(** [{ id: n + 1, duration: Math.floor(Math.random() * 3) + 2, ... }]
    for the counter value [n] and the draw [d]. *)
Definition newTask (n : Z) (d : Q) : Task :=
  {| Task.id := n + 1; Task.duration := Qfloor (d * 3)%Q + 2;
     Task.status := Task.queued; Task.assignedTo := None;
     Task.progress := 0%Q; Task.color := JS.cyclic COLORS n |}.

Definition addTask (now : string) (d : Q) (s : State) : State :=
  let t := newTask (taskCounter s) d in
  {| isRunning := isRunning s; isPaused := isPaused s;
     workerCount := workerCount s; taskQueue := taskQueue s ++ [t];
     completedTasks := completedTasks s; workers := workers s;
     logs := addLog now
         ("Task #" +:+ pretty (Task.id t) +:+ " added to queue (" +:+
          pretty (Task.duration t) +:+ "s)") (logs s);
     taskCounter := taskCounter s + 1; totalProcessed := totalProcessed s;
     interval := interval s; pauseRef := pauseRef s |}.

Definition addBatchTasks (now : string) (d : nat → Q) (s : State)
    : State :=
  let batch :=
    (λ i : nat, newTask (taskCounter s + Z.of_nat i) (d i)) <$> seq 0 10 in
  {| isRunning := isRunning s; isPaused := isPaused s;
     workerCount := workerCount s; taskQueue := taskQueue s ++ batch;
     completedTasks := completedTasks s; workers := workers s;
     logs := addLog now "Added batch of 10 tasks to queue" (logs s);
     taskCounter := taskCounter s + 10; totalProcessed := totalProcessed s;
     interval := interval s; pauseRef := pauseRef s |}.

Definition runSimulation (s : State) : State :=
  {| isRunning := true; isPaused := isPaused s;
     workerCount := workerCount s; taskQueue := taskQueue s;
     completedTasks := completedTasks s; workers := workers s;
     logs := logs s; taskCounter := taskCounter s;
     totalProcessed := totalProcessed s; interval := true;
     pauseRef := pauseRef s |}.

Definition togglePause (s : State) : State :=
  {| isRunning := isRunning s; isPaused := negb (isPaused s);
     workerCount := workerCount s; taskQueue := taskQueue s;
     completedTasks := completedTasks s; workers := workers s;
     logs := logs s; taskCounter := taskCounter s;
     totalProcessed := totalProcessed s; interval := interval s;
     pauseRef := negb (pauseRef s) |}.

(** What the [forEach] over the workers carries along: [newQueue],
    [newCompleted], the messages logged and the number of
    [setTotalProcessed] increments. *)
Record Acc := {
  newQueue : list Task;
  newCompleted : list Task;
  messages : list string;
  processed : Z }.

(** [task.progress + 100 / task.duration / 4] *)
Definition advanced (t : Task) : Q :=
  JS.add (Task.progress t)
    (JS.div (JS.div 100 (inject_Z (Task.duration t))) 4).

Definition with_progress (p : Q) (t : Task) : Task :=
  {| Task.id := Task.id t; Task.duration := Task.duration t;
     Task.status := Task.status t; Task.assignedTo := Task.assignedTo t;
     Task.progress := p; Task.color := Task.color t |}.

Definition finished (t : Task) : Task :=
  {| Task.id := Task.id t; Task.duration := Task.duration t;
     Task.status := Task.completed; Task.assignedTo := Task.assignedTo t;
     Task.progress := 100%Q; Task.color := Task.color t |}.

Definition assigned (w : Z) (t : Task) : Task :=
  {| Task.id := Task.id t; Task.duration := Task.duration t;
     Task.status := Task.processing; Task.assignedTo := Some w;
     Task.progress := Task.progress t; Task.color := Task.color t |}.

Definition is_queued (t : Task) : bool :=
  match Task.status t with
  | Task.queued => true
  | _ => false
  end.

(** First position and element satisfying a test ([findIndex], [find]). *)
Fixpoint find_from {A : Type} (p : A → bool) (i : nat) (l : list A)
    : option (nat * A) :=
  match l with
  | [] => None
  | a :: rest => if p a then Some (i, a) else find_from p (S i) rest
  end.

(** The first half of the loop body: a busy worker advances its task. *)
Definition work (w : Worker) (acc : Acc) : Worker * Acc :=
  match Worker.status w, Worker.currentTask w with
  | Worker.busy, Some c =>
      if c =? 0 then (w, acc) else
      match find_from (λ t, Task.id t =? c) 0 (newQueue acc) with
      | None => (w, acc)
      | Some (taskIndex, task) =>
          let p := advanced task in
          if JS.ge p 100%Q then
            ( {| Worker.id := Worker.id w; Worker.name := Worker.name w;
                 Worker.status := Worker.idle;
                 Worker.currentTask := None;
                 Worker.completedTasks := Worker.completedTasks w + 1 |},
              {| newQueue :=
                   List.filter (λ t, negb (Task.id t =? Task.id task))
                     (newQueue acc);
                 newCompleted := newCompleted acc ++ [finished task];
                 messages := messages acc ++
                   ["Worker " +:+ pretty (Worker.id w) +:+
                    ": ✓ Completed task #" +:+ pretty (Task.id task)];
                 processed := processed acc + 1 |} )
          else
            ( w,
              {| newQueue :=
                   <[taskIndex := with_progress p task]> (newQueue acc);
                 newCompleted := newCompleted acc;
                 messages := messages acc;
                 processed := processed acc |} )
      end
  | _, _ => (w, acc)
  end.

(** The second half: an idle worker takes the first queued task. *)
Definition assign (w : Worker) (acc : Acc) : Worker * Acc :=
  match Worker.status w with
  | Worker.idle =>
      match find_from is_queued 0 (newQueue acc) with
      | None => (w, acc)
      | Some (j, nextTask) =>
          ( {| Worker.id := Worker.id w; Worker.name := Worker.name w;
               Worker.status := Worker.busy;
               Worker.currentTask := Some (Task.id nextTask);
               Worker.completedTasks := Worker.completedTasks w |},
            {| newQueue :=
                 <[j := assigned (Worker.id w) nextTask]> (newQueue acc);
               newCompleted := newCompleted acc;
               messages := messages acc ++
                 ["Worker " +:+ pretty (Worker.id w) +:+
                  ": Started task #" +:+ pretty (Task.id nextTask)];
               processed := processed acc |} )
      end
  | Worker.busy => (w, acc)
  end.

(** [newWorkers.forEach(...)]: the workers are mutated in place. *)
Fixpoint forEachWorker (ws : list Worker) (acc : Acc)
    : list Worker * Acc :=
  match ws with
  | [] => ([], acc)
  | w :: rest =>
      let '(w1, acc1) := work w acc in
      let '(w2, acc2) := assign w1 acc1 in
      let '(rest', acc') := forEachWorker rest acc2 in
      (w2 :: rest', acc')
  end.

(** One firing of the interval callback. *)
Definition onTick (now : string) (s : State) : State :=
  if negb (interval s) then s else
  if pauseRef s then s else
  let '(newWorkers, acc) :=
    forEachWorker (workers s)
      {| newQueue := taskQueue s; newCompleted := []; messages := [];
         processed := 0 |} in
  {| isRunning := isRunning s; isPaused := isPaused s;
     workerCount := workerCount s; taskQueue := newQueue acc;
     completedTasks := match newCompleted acc with
       | [] => completedTasks s
       | _ => JS.slice_last 20 (completedTasks s ++ newCompleted acc)
       end;
     workers := newWorkers;
     logs := foldl (λ l m, addLog now m l) (logs s) (messages acc);
     taskCounter := taskCounter s;
     totalProcessed := totalProcessed s + processed acc;
     interval := interval s; pauseRef := pauseRef s |}.

(** What can happen to the page. *)
Inductive Event :=
  | Start
  | Reset
  | TogglePause
  | ClickWorkerCount (count : nat)
  | AddTask (now : string) (d : Q)
  | AddBatchTasks (now : string) (d : nat → Q)
  | Tick (now : string).

Definition handle (e : Event) (s : State) : State :=
  match e with
  | Start => runSimulation s
  | Reset => reset s
  | TogglePause => togglePause s
  | ClickWorkerCount count => clickWorkerCount count s
  | AddTask now d => addTask now d s
  | AddBatchTasks now d => addBatchTasks now d s
  | Tick now => onTick now s
  end.

(** The page once mounted. *)
Definition mounted : State := initWorkers initial.

(** Whether the page, as rendered in state [s], lets an event happen: the
    start button is rendered while no run is on and the pause button
    while one is; the worker-count buttons are disabled during a run; the
    two "add" buttons are disabled unless a run is on and not paused. *)
Definition offered (e : Event) (s : State) : bool :=
  match e with
  | Start => negb (isRunning s)
  | TogglePause => isRunning s
  | ClickWorkerCount _ => negb (isRunning s)
  | AddTask _ _ => isRunning s && negb (isPaused s)
  | AddBatchTasks _ _ => isRunning s && negb (isPaused s)
  | Reset => true
  | Tick _ => true
  end.

(** An event reaching the page between two renders. *)
Definition perform (e : Event) (s : State) : State :=
  if offered e s then handle e s else s.

(** The page after a sequence of events, from the moment it is mounted. *)
Definition play (events : list Event) : State :=
  foldl (λ s e, perform e s) mounted events.

End ThreadPool.

(** ** Reader-writer page *)
Module ReaderWriter.

Inductive Kind := reader | writer.
Inductive Status := idle | waiting | active | done.

Record Thread := {
  id : Z;
  type : Kind;
  status : Status;
  startTime : Z }.

(** What a handler reads directly from the render it belongs to. *)
Record Render := {
  r_activeReaders : list Thread;
  r_activeWriter : option Thread;
  r_waitingWriters : list Thread;
  r_threadCounter : Z;
  r_dataVersion : Z }.

Record State := {
  isRunning : bool;
  isPaused : bool;
  activeReaders : list Thread;
  activeWriter : option Thread;
  waitingReaders : list Thread;
  waitingWriters : list Thread;
  completedReads : Z;
  completedWrites : Z;
  logs : list string;
  threadCounter : Z;
  sharedData : string;
  dataVersion : Z;
  (** whether the interval held by [intervalRef] is scheduled *)
  interval : bool;
  pauseRef : bool;
  (** the render in which the run function was invoked *)
  captured : Render }.

Definition render (s : State) : Render :=
  {| r_activeReaders := activeReaders s; r_activeWriter := activeWriter s;
     r_waitingWriters := waitingWriters s;
     r_threadCounter := threadCounter s;
     r_dataVersion := dataVersion s |}.

Definition initial : State :=
  {| isRunning := false; isPaused := false; activeReaders := [];
     activeWriter := None; waitingReaders := []; waitingWriters := [];
     completedReads := 0; completedWrites := 0; logs := [];
     threadCounter := 0; sharedData := "Initial Value"; dataVersion := 1;
     interval := false; pauseRef := false;
     captured :=
       {| r_activeReaders := []; r_activeWriter := None;
          r_waitingWriters := []; r_threadCounter := 0;
          r_dataVersion := 1 |} |}.

Definition set_activeReaders (f : list Thread → list Thread) (s : State) : State :=
  {| isRunning := isRunning s; isPaused := isPaused s;
     activeReaders := f (activeReaders s); activeWriter := activeWriter s;
     waitingReaders := waitingReaders s;
     waitingWriters := waitingWriters s;
     completedReads := completedReads s;
     completedWrites := completedWrites s; logs := logs s;
     threadCounter := threadCounter s; sharedData := sharedData s;
     dataVersion := dataVersion s; interval := interval s;
     pauseRef := pauseRef s; captured := captured s |}.

Definition set_activeWriter (f : option Thread → option Thread) (s : State) : State :=
  {| isRunning := isRunning s; isPaused := isPaused s;
     activeReaders := activeReaders s; activeWriter := f (activeWriter s);
     waitingReaders := waitingReaders s;
     waitingWriters := waitingWriters s;
     completedReads := completedReads s;
     completedWrites := completedWrites s; logs := logs s;
     threadCounter := threadCounter s; sharedData := sharedData s;
     dataVersion := dataVersion s; interval := interval s;
     pauseRef := pauseRef s; captured := captured s |}.

Definition set_waitingReaders (f : list Thread → list Thread) (s : State) : State :=
  {| isRunning := isRunning s; isPaused := isPaused s;
     activeReaders := activeReaders s; activeWriter := activeWriter s;
     waitingReaders := f (waitingReaders s);
     waitingWriters := waitingWriters s;
     completedReads := completedReads s;
     completedWrites := completedWrites s; logs := logs s;
     threadCounter := threadCounter s; sharedData := sharedData s;
     dataVersion := dataVersion s; interval := interval s;
     pauseRef := pauseRef s; captured := captured s |}.

Definition set_waitingWriters (f : list Thread → list Thread) (s : State) : State :=
  {| isRunning := isRunning s; isPaused := isPaused s;
     activeReaders := activeReaders s; activeWriter := activeWriter s;
     waitingReaders := waitingReaders s;
     waitingWriters := f (waitingWriters s);
     completedReads := completedReads s;
     completedWrites := completedWrites s; logs := logs s;
     threadCounter := threadCounter s; sharedData := sharedData s;
     dataVersion := dataVersion s; interval := interval s;
     pauseRef := pauseRef s; captured := captured s |}.

Definition set_completedReads (f : Z → Z) (s : State) : State :=
  {| isRunning := isRunning s; isPaused := isPaused s;
     activeReaders := activeReaders s; activeWriter := activeWriter s;
     waitingReaders := waitingReaders s;
     waitingWriters := waitingWriters s;
     completedReads := f (completedReads s);
     completedWrites := completedWrites s; logs := logs s;
     threadCounter := threadCounter s; sharedData := sharedData s;
     dataVersion := dataVersion s; interval := interval s;
     pauseRef := pauseRef s; captured := captured s |}.

Definition set_completedWrites (f : Z → Z) (s : State) : State :=
  {| isRunning := isRunning s; isPaused := isPaused s;
     activeReaders := activeReaders s; activeWriter := activeWriter s;
     waitingReaders := waitingReaders s;
     waitingWriters := waitingWriters s;
     completedReads := completedReads s;
     completedWrites := f (completedWrites s); logs := logs s;
     threadCounter := threadCounter s; sharedData := sharedData s;
     dataVersion := dataVersion s; interval := interval s;
     pauseRef := pauseRef s; captured := captured s |}.

Definition set_logs (f : list string → list string) (s : State) : State :=
  {| isRunning := isRunning s; isPaused := isPaused s;
     activeReaders := activeReaders s; activeWriter := activeWriter s;
     waitingReaders := waitingReaders s;
     waitingWriters := waitingWriters s;
     completedReads := completedReads s;
     completedWrites := completedWrites s; logs := f (logs s);
     threadCounter := threadCounter s; sharedData := sharedData s;
     dataVersion := dataVersion s; interval := interval s;
     pauseRef := pauseRef s; captured := captured s |}.

Definition set_threadCounter (f : Z → Z) (s : State) : State :=
  {| isRunning := isRunning s; isPaused := isPaused s;
     activeReaders := activeReaders s; activeWriter := activeWriter s;
     waitingReaders := waitingReaders s;
     waitingWriters := waitingWriters s;
     completedReads := completedReads s;
     completedWrites := completedWrites s; logs := logs s;
     threadCounter := f (threadCounter s); sharedData := sharedData s;
     dataVersion := dataVersion s; interval := interval s;
     pauseRef := pauseRef s; captured := captured s |}.

Definition set_sharedData (f : string → string) (s : State) : State :=
  {| isRunning := isRunning s; isPaused := isPaused s;
     activeReaders := activeReaders s; activeWriter := activeWriter s;
     waitingReaders := waitingReaders s;
     waitingWriters := waitingWriters s;
     completedReads := completedReads s;
     completedWrites := completedWrites s; logs := logs s;
     threadCounter := threadCounter s; sharedData := f (sharedData s);
     dataVersion := dataVersion s; interval := interval s;
     pauseRef := pauseRef s; captured := captured s |}.

Definition set_dataVersion (f : Z → Z) (s : State) : State :=
  {| isRunning := isRunning s; isPaused := isPaused s;
     activeReaders := activeReaders s; activeWriter := activeWriter s;
     waitingReaders := waitingReaders s;
     waitingWriters := waitingWriters s;
     completedReads := completedReads s;
     completedWrites := completedWrites s; logs := logs s;
     threadCounter := threadCounter s; sharedData := sharedData s;
     dataVersion := f (dataVersion s); interval := interval s;
     pauseRef := pauseRef s; captured := captured s |}.

Inductive LogType := read | write | wait | info.

Definition colors (type : LogType) : string :=
  match type with
  | read => "text-blue-400"
  | write => "text-orange-400"
  | wait => "text-yellow-400"
  | info => "text-slate-400"
  end.

(** The line [addLog] stores for a message. *)
Definition line (now message : string) (type : LogType) : string :=
  "<span class=" +:+ JS.dquote +:+ colors type +:+ JS.dquote +:+ ">[" +:+
  now +:+ "] " +:+ message +:+ "</span>".

Definition addLog (now message : string) (type : LogType)
    : State → State :=
  set_logs (λ prev, JS.slice_last 12 prev ++ [line now message type]).

Definition reset (s : State) : State :=
  {| isRunning := false; isPaused := false; activeReaders := [];
     activeWriter := None; waitingReaders := []; waitingWriters := [];
     completedReads := 0; completedWrites := 0; logs := [];
     threadCounter := 0; sharedData := "Initial Value"; dataVersion := 1;
     interval := false; pauseRef := false; captured := captured s |}.

Definition runSimulation (s : State) : State :=
  {| isRunning := true; isPaused := isPaused s;
     activeReaders := activeReaders s; activeWriter := activeWriter s;
     waitingReaders := waitingReaders s;
     waitingWriters := waitingWriters s;
     completedReads := completedReads s;
     completedWrites := completedWrites s; logs := logs s;
     threadCounter := threadCounter s; sharedData := sharedData s;
     dataVersion := dataVersion s; interval := true;
     pauseRef := pauseRef s; captured := render s |}.

Definition togglePause (s : State) : State :=
  {| isRunning := isRunning s; isPaused := negb (isPaused s);
     activeReaders := activeReaders s; activeWriter := activeWriter s;
     waitingReaders := waitingReaders s;
     waitingWriters := waitingWriters s;
     completedReads := completedReads s;
     completedWrites := completedWrites s; logs := logs s;
     threadCounter := threadCounter s; sharedData := sharedData s;
     dataVersion := dataVersion s; interval := interval s;
     pauseRef := negb (pauseRef s); captured := captured s |}.

(** [{ ...t, status: "active" }] *)
Definition activated (t : Thread) : Thread :=
  {| id := id t; type := type t; status := active;
     startTime := startTime t |}.

(** [addReader] as created by the render [view]; [now] is the time
    string read by [addLog], [ms] is [Date.now()]. *)
Definition addReader (view : Render) (now : string) (ms : Z) (s : State)
    : State :=
  let newThread :=
    {| id := r_threadCounter view + 1; type := reader; status := waiting;
       startTime := ms |} in
  let s := set_threadCounter (λ prev, prev + 1) s in
  match r_activeWriter view with
  | Some _ =>
      let s := set_waitingReaders (λ prev, prev ++ [newThread]) s in
      addLog now
        ("Reader #" +:+ pretty (id newThread) +:+
         ": Waiting (writer active)") wait s
  | None =>
      let s :=
        set_activeReaders (λ prev, prev ++ [activated newThread]) s in
      addLog now
        ("Reader #" +:+ pretty (id newThread) +:+ ": Started reading")
        read s
  end.

Definition addWriter (view : Render) (now : string) (ms : Z) (s : State)
    : State :=
  let newThread :=
    {| id := r_threadCounter view + 1; type := writer; status := waiting;
       startTime := ms |} in
  let s := set_threadCounter (λ prev, prev + 1) s in
  match r_activeWriter view, r_activeReaders view with
  | None, [] =>
      let s := set_activeWriter (λ _, Some (activated newThread)) s in
      addLog now
        ("Writer #" +:+ pretty (id newThread) +:+ ": Started writing")
        write s
  | w, _ =>
      let s := set_waitingWriters (λ prev, prev ++ [newThread]) s in
      addLog now
        ("Writer #" +:+ pretty (id newThread) +:+ ": Waiting (" +:+
         (match w with Some _ => "writer" | None => "readers" end) +:+
         " active)") wait s
  end.

(** The random draws of one firing: one per active reader, by position;
    the one for the active writer; the two for a new thread. *)
Record Draws := {
  reader_draw : nat → Q;
  writer_draw : Q;
  spawn_draw : Q;
  kind_draw : Q }.

(** The first updater of the callback, [setActiveReaders], on the list
    it is handed: the readers that finish and those that remain. *)
Definition finishing (d : nat → Q) (prev : list Thread)
    : list Thread * list Thread :=
  let tagged := imap (λ i r, (JS.gt (d i) (7 # 10), r)) prev in
  (snd <$> List.filter fst tagged,
   snd <$> List.filter (λ p, negb p.1) tagged).

(** The calls the first updater makes for the readers that finish
    ([completed.forEach]). *)
Definition finished (now : string) (completed : list Thread) (s : State)
    : State :=
  foldl (λ s r,
    let s :=
      addLog now ("Reader #" +:+ pretty (id r) +:+ ": ✓ Finished reading")
        read s in
    set_completedReads (λ c, c + 1) s) s completed.

(** [if (activeWriter && Math.random() > 0.6) { ... }]: calls of the
    callback itself. *)
Definition finishWriter (now : string) (d : Q) (cap : Render) (s : State)
    : State :=
  match r_activeWriter cap with
  | Some w =>
      if JS.gt d (6 # 10) then
        let s :=
          addLog now
            ("Writer #" +:+ pretty (id w) +:+ ": ✓ Finished writing")
            write s in
        let s := set_dataVersion (λ v, v + 1) s in
        let s :=
          set_sharedData
            (λ _, "Modified v" +:+ pretty (r_dataVersion cap + 1)) s in
        let s := set_completedWrites (λ c, c + 1) s in
        set_activeWriter (λ _, None) s
      else s
  | None => s
  end.

(** The updater handed to [setActiveWriter] returns the writer it is
    handed, if there is one, and [null] if there is none: it leaves the
    active writer as it is.  When there is none and the render of the run
    showed a waiting writer, it hands an updater to [setActiveReaders]:
    whether it does. *)
Definition asksForWriter (cap : Render) (prev : option Thread) : bool :=
  match prev, r_waitingWriters cap with
  | None, _ :: _ => true
  | _, _ => false
  end.

(** That updater, with the one it hands to [setWaitingWriters]: if no
    reader is active, the first waiting writer leaves the queue, is
    logged and becomes the active writer. *)
Definition startWriter (now : string) (s : State) : State :=
  match activeReaders s with
  | [] =>
      match waitingWriters s with
      | next :: rest =>
          let s := set_waitingWriters (λ _, rest) s in
          let s :=
            addLog now
              ("Writer #" +:+ pretty (id next) +:+ ": Started writing")
              write s in
          set_activeWriter (λ _, Some (activated next)) s
      | [] => s
      end
  | _ :: _ => s
  end.

(** The updater handed to [setWaitingReaders], on the list it is handed:
    the readers it promotes, up to three when the render of the run
    showed no writer, active or waiting, and the list it returns. *)
Definition promoting (cap : Render) (prev : list Thread)
    : list Thread * list Thread :=
  match prev, r_activeWriter cap, r_waitingWriters cap with
  | _ :: _, None, [] => (take 3 prev, drop 3 prev)
  | _, _, _ => ([], prev)
  end.

(** The calls it makes for the promoted readers ([promoted.forEach]): the
    lines it logs, and the appends to the active readers. *)
Definition promotedLogs (now : string) (promoted : list Thread) (s : State)
    : State :=
  foldl (λ s r,
    addLog now ("Reader #" +:+ pretty (id r) +:+ ": Started reading")
      read s) s promoted.

Definition promotedReaders (promoted : list Thread) (s : State) : State :=
  foldl (λ s r, set_activeReaders (λ ar, ar ++ [activated r]) s) s promoted.

(** [if (Math.random() > 0.85) { ... }]: a new thread arrives; calls of
    the callback itself, through the handlers of the render of the
    run. *)
Definition arrival (now : string) (ms : Z) (d : Draws) (cap : Render)
    (s : State) : State :=
  if JS.gt (spawn_draw d) (85 # 100) then
    if JS.gt (kind_draw d) (3 # 10)
    then addReader cap now ms s
    else addWriter cap now ms s
  else s.

(** One firing of the interval callback.

    The callback itself only queues updates: the first updater for
    [activeReaders], the calls for a writer that finishes, the updaters
    for [activeWriter] and [waitingReaders], and then, in [addReader] or
    [addWriter], those of a thread that arrives.  React serves the queues
    when it renders, state by state in the order of the [useState] lines
    ([activeReaders], [activeWriter], [waitingReaders], [waitingWriters],
    [completedReads], [completedWrites], [logs], [threadCounter],
    [sharedData], [dataVersion]), each queue in the order of the calls.
    The calls an updater makes join the queues at that moment, behind
    what the callback has queued; a call for a state served already is
    served in a further pass over the states.  So each updater works on
    the list the firing found; the lines of the callback come first in
    the log; and the queue of [activeReaders] is served again in a
    second pass, with the updater that looks for a waiting writer and
    then the appends of the promoted readers, which come behind a reader
    that has arrived. *)
Definition onTick (now : string) (ms : Z) (d : Draws) (s : State)
    : State :=
  if negb (interval s) then s else
  if pauseRef s then s else
  let cap := captured s in
  (* what the updaters of the two lists return *)
  let '(completed, remaining) :=
    finishing (reader_draw d) (activeReaders s) in
  let '(promoted, staying) := promoting cap (waitingReaders s) in
  (* first pass: each queue starts with what the callback has queued *)
  let s := set_activeReaders (λ _, remaining) s in
  let s := finishWriter now (writer_draw d) cap s in
  let asks := asksForWriter cap (activeWriter s) in
  let s := set_waitingReaders (λ _, staying) s in
  let s := arrival now ms d cap s in
  let s := finished now completed s in
  let s := promotedLogs now promoted s in
  (* second pass, for [activeReaders], and what follows from it *)
  let s := if asks then startWriter now s else s in
  promotedReaders promoted s.

(** What can happen to the page; the two "add" buttons call the handlers
    of the current render. *)
Inductive Event :=
  | Start
  | Reset
  | TogglePause
  | AddReader (now : string) (ms : Z)
  | AddWriter (now : string) (ms : Z)
  | Tick (now : string) (ms : Z) (d : Draws).

Definition handle (e : Event) (s : State) : State :=
  match e with
  | Start => runSimulation s
  | Reset => reset s
  | TogglePause => togglePause s
  | AddReader now ms => addReader (render s) now ms s
  | AddWriter now ms => addWriter (render s) now ms s
  | Tick now ms d => onTick now ms d s
  end.

(** Whether the page, as rendered in state [s], lets an event happen: the
    start button is rendered while no run is on and the pause button
    while one is; the two "add" buttons are disabled unless a run is on
    and not paused. *)
Definition offered (e : Event) (s : State) : bool :=
  match e with
  | Start => negb (isRunning s)
  | TogglePause => isRunning s
  | AddReader _ _ => isRunning s && negb (isPaused s)
  | AddWriter _ _ => isRunning s && negb (isPaused s)
  | Reset => true
  | Tick _ _ _ => true
  end.

(** An event reaching the page between two renders. *)
Definition perform (e : Event) (s : State) : State :=
  if offered e s then handle e s else s.

(** The page after a sequence of events, from the first render. *)
Definition play (events : list Event) : State :=
  foldl (λ s e, perform e s) initial events.

End ReaderWriter.

(** ** Async-versus-threads page

    The handlers come first; the interval callback, which works on locals
    of [runDemo], follows with the record [Run] that holds them. *)
Module AsyncVsThreads.

Inductive Kind := io | cpu.
Inductive Status := pending | running | waiting | completed.

Record Task := {
  id : Z;
  type : Kind;
  duration : Z;
  status : Status;
  startTime : Z;
  color : string;
  progress : Q }.

Record State := {
  asyncTasks : list Task;
  threadTasks : list Task;
  parallelTasks : list Task;
  asyncTime : Z;
  threadTime : Z;
  parallelTime : Z;
  isRunning : bool;
  logs : list string;
  (** whether the interval held by [intervalRef] is scheduled *)
  interval : bool }.

Definition initial : State :=
  {| asyncTasks := []; threadTasks := []; parallelTasks := [];
     asyncTime := 0; threadTime := 0; parallelTime := 0;
     isRunning := false; logs := []; interval := false |}.

Definition addLog (message : string) (prev : list string) : list string :=
  JS.slice_last 10 prev ++ [message].

Definition reset (s : State) : State :=
  {| asyncTasks := []; threadTasks := []; parallelTasks := [];
     asyncTime := 0; threadTime := 0; parallelTime := 0;
     isRunning := false; logs := []; interval := false |}.

Definition mkTask (i : Z) (k : Kind) (d : Z) (c : string) : Task :=
  {| id := i; type := k; duration := d; status := pending; startTime := 0;
     color := c; progress := 0%Q |}.

Definition createDemoTasks : list Task :=
  [ mkTask 1 io 3 "#ef4444"; mkTask 2 io 2 "#f97316";
    mkTask 3 io 4 "#eab308"; mkTask 4 cpu 2 "#22c55e" ].

(** [runDemo] up to the point where the interval is scheduled. *)
Definition runDemo (s : State) : State :=
  {| asyncTasks := createDemoTasks; threadTasks := createDemoTasks;
     parallelTasks := createDemoTasks; asyncTime := 0; threadTime := 0;
     parallelTime := 0; isRunning := true; logs := []; interval := true |}.

#[global] Instance TaskStatus_eq_dec : EqDecision Status.
Proof. solve_decision. Defined.

(** The page together with the locals of [runDemo] that its interval
    callback closes over, [tick], [asyncCurrentTask] and
    [asyncWaitingFor], and with the three task lists as the render in
    which [runDemo] was invoked showed them: the callback reads these to
    decide whether to stop. *)
Record Run := {
  page : State;
  tick : Z;
  asyncCurrentTask : nat;
  asyncWaitingFor : list Z;
  cap_asyncTasks : list Task;
  cap_threadTasks : list Task;
  cap_parallelTasks : list Task }.

(** The page as first rendered, before any run. *)
Definition unstarted : Run :=
  {| page := initial; tick := 0; asyncCurrentTask := 0;
     asyncWaitingFor := []; cap_asyncTasks := []; cap_threadTasks := [];
     cap_parallelTasks := [] |}.

(** The "Run Comparison" button. *)
Definition start (r : Run) : Run :=
  {| page := runDemo (page r); tick := 0; asyncCurrentTask := 0;
     asyncWaitingFor := []; cap_asyncTasks := asyncTasks (page r);
     cap_threadTasks := threadTasks (page r);
     cap_parallelTasks := parallelTasks (page r) |}.

(** The "Reset" button. *)
Definition resetRun (r : Run) : Run :=
  {| page := reset (page r); tick := tick r;
     asyncCurrentTask := asyncCurrentTask r;
     asyncWaitingFor := asyncWaitingFor r;
     cap_asyncTasks := cap_asyncTasks r;
     cap_threadTasks := cap_threadTasks r;
     cap_parallelTasks := cap_parallelTasks r |}.

(** [task.progress + 100 / task.duration / 4] *)
Definition advanced (t : Task) : Q :=
  JS.add (progress t) (JS.div (JS.div 100 (inject_Z (duration t))) 4).

Definition with_progress (p : Q) (t : Task) : Task :=
  {| id := id t; type := type t; duration := duration t;
     status := status t; startTime := startTime t; color := color t;
     progress := p |}.

Definition with_status (st : Status) (t : Task) : Task :=
  {| id := id t; type := type t; duration := duration t; status := st;
     startTime := startTime t; color := color t; progress := progress t |}.

(** [current.status = "running"; current.startTime = tick] *)
Definition started (now : Z) (t : Task) : Task :=
  {| id := id t; type := type t; duration := duration t;
     status := running; startTime := now; color := color t;
     progress := progress t |}.

(** [task.progress += ...; if (task.progress >= 100) task.status =
    "completed"]: the task after the assignment, and whether it
    completed. *)
Definition progressed (t : Task) : Task * bool :=
  let p := advanced t in
  if JS.ge p 100%Q then (with_status completed (with_progress p t), true)
  else (with_progress p t, false).

(** [tasks.every((t) => t.status === "completed")] *)
Definition allDone (tasks : list Task) : bool :=
  forallb (λ t, bool_decide (status t = completed)) tasks.

(** What the updater of the async simulation works on: the task list,
    the two locals and the log. *)
Record Async := {
  a_tasks : list Task;
  a_current : nat;
  a_waiting : list Z;
  a_logs : list string }.

(** The callback of [asyncWaitingFor.filter(...)], for the waiting id
    [n]: the tasks and the log after it, and the ids kept so far. *)
Definition ioStep (acc : list Task * list string * list Z) (n : Z)
    : list Task * list string * list Z :=
  let '(tasks, log, kept) := acc in
  match list_find (λ t, id t = n) tasks with
  | Some (j, task) =>
      match status task with
      | waiting =>
          let '(task', finished) := progressed task in
          if finished then
            (<[j := task']> tasks,
             addLog ("[Async] Task " +:+ pretty n +:+
                     " completed (I/O returned)") log,
             kept)
          else (<[j := task']> tasks, log, kept ++ [n])
      | _ => (tasks, log, kept ++ [n])
      end
  | None => (tasks, log, kept ++ [n])
  end.

(** [while (asyncCurrentTask < tasks.length) { ... }].  Every iteration
    that does not leave the loop increments [asyncCurrentTask], so the
    loop is over after at most [tasks.length] iterations: [fuel] counts
    them. *)
Fixpoint eventLoop (fuel : nat) (now : Z) (a : Async) : Async :=
  match fuel with
  | O => a
  | S fuel =>
      match a_tasks a !! a_current a with
      | None => a
      | Some current =>
          let '(current, log) :=
            match status current with
            | pending =>
                (started now current,
                 addLog ("[Async] Started task " +:+ pretty (id current))
                   (a_logs a))
            | _ => (current, a_logs a)
            end in
          match status current with
          | running =>
              match type current with
              | io =>
                  eventLoop fuel now
                    {| a_tasks :=
                         <[a_current a := with_status waiting current]>
                           (a_tasks a);
                       a_current := S (a_current a);
                       a_waiting := a_waiting a ++ [id current];
                       a_logs :=
                         addLog ("[Async] Task " +:+ pretty (id current) +:+
                                 " awaiting I/O (yields)") log |}
              | cpu =>
                  let '(current', finished) := progressed current in
                  if finished then
                    {| a_tasks := <[a_current a := current']> (a_tasks a);
                       a_current := S (a_current a);
                       a_waiting := a_waiting a;
                       a_logs :=
                         addLog ("[Async] Task " +:+ pretty (id current) +:+
                                 " completed (CPU done)") log |}
                  else
                    {| a_tasks := <[a_current a := current']> (a_tasks a);
                       a_current := a_current a;
                       a_waiting := a_waiting a; a_logs := log |}
              end
          | completed | waiting =>
              eventLoop fuel now
                {| a_tasks := a_tasks a; a_current := S (a_current a);
                   a_waiting := a_waiting a; a_logs := log |}
          | pending =>
              {| a_tasks := a_tasks a; a_current := a_current a;
                 a_waiting := a_waiting a; a_logs := log |}
          end
      end
  end.

(** The updater handed to [setAsyncTasks]; the second component is the
    argument of [setAsyncTime], if it is called. *)
Definition asyncUpdater (now : Z) (a : Async) : Async * option Z :=
  if allDone (a_tasks a) then (a, Some now) else
  let '(tasks, log, kept) :=
    foldl ioStep (a_tasks a, a_logs a, []) (a_waiting a) in
  (eventLoop (length tasks) now
     {| a_tasks := tasks; a_current := a_current a; a_waiting := kept;
        a_logs := log |},
   None).

(** The updater handed to [setThreadTasks]. *)
Definition threadUpdater (now : Z) (tasks : list Task) (log : list string)
    : list Task * list string * option Z :=
  if allDone tasks then (tasks, log, Some now) else
  match list_find (λ t, status t ≠ completed) tasks with
  | Some (j, activeTask) =>
      let '(activeTask, log) :=
        match status activeTask with
        | pending =>
            (with_status running activeTask,
             addLog ("[Thread] Started task " +:+ pretty (id activeTask))
               log)
        | _ => (activeTask, log)
        end in
      let '(activeTask', finished) := progressed activeTask in
      (<[j := activeTask']> tasks,
       if finished
       then addLog ("[Thread] Task " +:+ pretty (id activeTask) +:+
                    " completed") log
       else log,
       None)
  | None => (tasks, log, None)
  end.

(** The body of [tasks.forEach(...)] in the parallel simulation. *)
Definition parallelStep (t : Task) : Task :=
  let t :=
    match status t with
    | pending => with_status running t
    | _ => t
    end in
  match status t with
  | running => (progressed t).1
  | _ => t
  end.

(** The updater handed to [setParallelTasks]. *)
Definition parallelUpdater (now : Z) (tasks : list Task)
    : list Task * option Z :=
  if allDone tasks then (tasks, Some now) else (parallelStep <$> tasks, None).

(** One firing of the interval callback. *)
Definition onTick (r : Run) : Run :=
  let s := page r in
  if negb (interval s) then r else
  let now := tick r + 1 in
  let '(a, asyncDone) :=
    asyncUpdater now
      {| a_tasks := asyncTasks s; a_current := asyncCurrentTask r;
         a_waiting := asyncWaitingFor r; a_logs := logs s |} in
  let '(threads, log, threadDone) :=
    threadUpdater now (threadTasks s) (a_logs a) in
  let '(parallel, parallelDone) := parallelUpdater now (parallelTasks s) in
  let stop :=
    (100 <? now) ||
    (allDone (cap_asyncTasks r) && allDone (cap_threadTasks r) &&
     allDone (cap_parallelTasks r)) in
  {| page :=
       {| asyncTasks := a_tasks a; threadTasks := threads;
          parallelTasks := parallel;
          asyncTime := default (asyncTime s) asyncDone;
          threadTime := default (threadTime s) threadDone;
          parallelTime := default (parallelTime s) parallelDone;
          isRunning := if stop then false else isRunning s;
          logs := log; interval := negb stop |};
     tick := now; asyncCurrentTask := a_current a;
     asyncWaitingFor := a_waiting a; cap_asyncTasks := cap_asyncTasks r;
     cap_threadTasks := cap_threadTasks r;
     cap_parallelTasks := cap_parallelTasks r |}.

(** What can happen to the page. *)
Inductive Event := Start | Reset | Tick.

Definition handle (e : Event) (r : Run) : Run :=
  match e with
  | Start => start r
  | Reset => resetRun r
  | Tick => onTick r
  end.

(** "Run Comparison" is disabled while a run is on. *)
Definition offered (e : Event) (r : Run) : bool :=
  match e with
  | Start => negb (isRunning (page r))
  | _ => true
  end.

Definition perform (e : Event) (r : Run) : Run :=
  if offered e r then handle e r else r.

Definition play (events : list Event) : Run :=
  foldl (λ r e, perform e r) unstarted events.

End AsyncVsThreads.

(** ** Memory-ordering page *)
Module MemoryOrdering.

Record CacheState := { value : Z; dirty : bool; version : Z }.
Record Memory := { data : Z; ready : bool }.
Inductive Scenario := broken | fixed.
Inductive Result := success | failure.

Record State := {
  isRunning : bool;
  step : Z;
  mainMemory : Memory;
  core1Cache : CacheState;
  core2Cache : CacheState;
  core1Action : string;
  core2Action : string;
  logs : list string;
  scenario : Scenario;
  result : option Result;
  (** whether the interval held by [intervalRef] is scheduled *)
  interval : bool;
  (** [let currentStep], and which run function created the interval *)
  currentStep : nat;
  playing : Scenario }.

Definition emptyCache : CacheState :=
  {| value := 0; dirty := false; version := 0 |}.

Definition initial : State :=
  {| isRunning := false; step := 0;
     mainMemory := {| data := 0; ready := false |};
     core1Cache := emptyCache; core2Cache := emptyCache;
     core1Action := EmptyString; core2Action := EmptyString; logs := [];
     scenario := broken; result := None; interval := false;
     currentStep := 0; playing := broken |}.

Definition set_isRunning (f : bool → bool) (s : State) : State :=
  {| isRunning := f (isRunning s); step := step s;
     mainMemory := mainMemory s; core1Cache := core1Cache s;
     core2Cache := core2Cache s; core1Action := core1Action s;
     core2Action := core2Action s; logs := logs s; scenario := scenario s;
     result := result s; interval := interval s;
     currentStep := currentStep s; playing := playing s |}.

Definition set_mainMemory (f : Memory → Memory) (s : State) : State :=
  {| isRunning := isRunning s; step := step s;
     mainMemory := f (mainMemory s); core1Cache := core1Cache s;
     core2Cache := core2Cache s; core1Action := core1Action s;
     core2Action := core2Action s; logs := logs s; scenario := scenario s;
     result := result s; interval := interval s;
     currentStep := currentStep s; playing := playing s |}.

Definition set_core1Cache (f : CacheState → CacheState) (s : State) : State :=
  {| isRunning := isRunning s; step := step s; mainMemory := mainMemory s;
     core1Cache := f (core1Cache s); core2Cache := core2Cache s;
     core1Action := core1Action s; core2Action := core2Action s;
     logs := logs s; scenario := scenario s; result := result s;
     interval := interval s; currentStep := currentStep s;
     playing := playing s |}.

Definition set_core2Cache (f : CacheState → CacheState) (s : State) : State :=
  {| isRunning := isRunning s; step := step s; mainMemory := mainMemory s;
     core1Cache := core1Cache s; core2Cache := f (core2Cache s);
     core1Action := core1Action s; core2Action := core2Action s;
     logs := logs s; scenario := scenario s; result := result s;
     interval := interval s; currentStep := currentStep s;
     playing := playing s |}.

Definition set_core1Action (f : string → string) (s : State) : State :=
  {| isRunning := isRunning s; step := step s; mainMemory := mainMemory s;
     core1Cache := core1Cache s; core2Cache := core2Cache s;
     core1Action := f (core1Action s); core2Action := core2Action s;
     logs := logs s; scenario := scenario s; result := result s;
     interval := interval s; currentStep := currentStep s;
     playing := playing s |}.

Definition set_core2Action (f : string → string) (s : State) : State :=
  {| isRunning := isRunning s; step := step s; mainMemory := mainMemory s;
     core1Cache := core1Cache s; core2Cache := core2Cache s;
     core1Action := core1Action s; core2Action := f (core2Action s);
     logs := logs s; scenario := scenario s; result := result s;
     interval := interval s; currentStep := currentStep s;
     playing := playing s |}.

Definition set_logs (f : list string → list string) (s : State) : State :=
  {| isRunning := isRunning s; step := step s; mainMemory := mainMemory s;
     core1Cache := core1Cache s; core2Cache := core2Cache s;
     core1Action := core1Action s; core2Action := core2Action s;
     logs := f (logs s); scenario := scenario s; result := result s;
     interval := interval s; currentStep := currentStep s;
     playing := playing s |}.

Definition set_result (f : option Result → option Result) (s : State) : State :=
  {| isRunning := isRunning s; step := step s; mainMemory := mainMemory s;
     core1Cache := core1Cache s; core2Cache := core2Cache s;
     core1Action := core1Action s; core2Action := core2Action s;
     logs := logs s; scenario := scenario s; result := f (result s);
     interval := interval s; currentStep := currentStep s;
     playing := playing s |}.

Inductive LogType := core1 | core2 | memory | error.

Definition colors (type : LogType) : string :=
  match type with
  | core1 => "text-blue-400"
  | core2 => "text-green-400"
  | memory => "text-purple-400"
  | error => "text-red-400"
  end.

Definition addLog (message : string) (type : LogType) : State → State :=
  set_logs (λ prev,
    JS.slice_last 12 prev ++
    ["<span class=" +:+ JS.dquote +:+ colors type +:+ JS.dquote +:+ ">" +:+
     message +:+ "</span>"]).

Definition reset (s : State) : State :=
  {| isRunning := false; step := 0;
     mainMemory := {| data := 0; ready := false |};
     core1Cache := emptyCache; core2Cache := emptyCache;
     core1Action := EmptyString; core2Action := EmptyString; logs := [];
     scenario := scenario s; result := None; interval := false;
     currentStep := currentStep s; playing := playing s |}.

Definition start (sc : Scenario) (s : State) : State :=
  {| isRunning := true; step := 0;
     mainMemory := {| data := 0; ready := false |};
     core1Cache := emptyCache; core2Cache := emptyCache;
     core1Action := EmptyString; core2Action := EmptyString; logs := [];
     scenario := sc; result := None; interval := true;
     currentStep := 0%nat; playing := sc |}.

Definition runBrokenScenario : State → State := start broken.
Definition runFixedScenario : State → State := start fixed.

(** The [steps] array of [runBrokenScenario]. *)
Definition brokenSteps : list (State → State) :=
  [ (λ s,
      let s := set_core1Action (λ _, "Writing data=42 to cache") s in
      let s :=
        set_core1Cache
          (λ _, {| value := 42; dirty := true; version := 1 |}) s in
      addLog "[Core 1] Write data=42 to local cache" core1 s);
    (λ s,
      let s := set_core1Action (λ _, "Writing ready=true") s in
      let s :=
        set_mainMemory (λ prev, {| data := data prev; ready := true |}) s in
      let s :=
        addLog
          "[Core 1] Write ready=true (CPU reordered! flushed before data)"
          core1 s in
      addLog "⚠️ CPU optimized by reordering writes!" error s);
    (λ s,
      let s := set_core2Action (λ _, "Checking ready flag...") s in
      addLog "[Core 2] Read ready=true from memory" core2 s);
    (λ s,
      let s := set_core2Action (λ _, "Reading data...") s in
      let s := set_core2Cache (λ _, emptyCache) s in
      let s := addLog "[Core 2] Read data=0 from memory (STALE!)" core2 s in
      let s :=
        addLog "💥 RACE CONDITION: Core 2 saw ready=true but data=0!"
          error s in
      set_result (λ _, Some failure) s);
    (λ s,
      let s := set_core1Action (λ _, "Cache flush") s in
      let s := set_mainMemory (λ _, {| data := 42; ready := true |}) s in
      let s :=
        addLog "[Memory] Core 1's data=42 finally visible... too late!"
          memory s in
      set_isRunning (λ _, false) s) ].

(** The [steps] array of [runFixedScenario]. *)
Definition fixedSteps : list (State → State) :=
  [ (λ s,
      let s := set_core1Action (λ _, "Writing data=42") s in
      let s :=
        set_core1Cache
          (λ _, {| value := 42; dirty := true; version := 1 |}) s in
      addLog "[Core 1] Write data=42 to local cache" core1 s);
    (λ s,
      let s := set_core1Action (λ _, "🔒 RELEASE BARRIER") s in
      let s :=
        set_mainMemory (λ prev, {| data := 42; ready := ready prev |}) s in
      let s :=
        addLog "[Core 1] 🔒 RELEASE barrier - flush all writes before ready"
          core1 s in
      addLog "[Memory] data=42 now visible to all cores" memory s);
    (λ s,
      let s := set_core1Action (λ _, "Writing ready=true") s in
      let s :=
        set_mainMemory (λ prev, {| data := data prev; ready := true |}) s in
      addLog "[Core 1] Write ready=true (AFTER barrier)" core1 s);
    (λ s,
      let s := set_core2Action (λ _, "🔒 ACQUIRE + check ready") s in
      let s :=
        addLog "[Core 2] 🔒 ACQUIRE barrier - sync cache before read"
          core2 s in
      addLog "[Core 2] Read ready=true" core2 s);
    (λ s,
      let s := set_core2Action (λ _, "Reading data...") s in
      let s :=
        set_core2Cache
          (λ _, {| value := 42; dirty := false; version := 1 |}) s in
      let s := addLog "[Core 2] Read data=42 ✓" core2 s in
      let s :=
        addLog "✅ SUCCESS: Acquire-Release guarantees order!" core2 s in
      let s := set_result (λ _, Some success) s in
      set_isRunning (λ _, false) s) ].

Definition stepsOf (sc : Scenario) : list (State → State) :=
  match sc with
  | broken => brokenSteps
  | fixed => fixedSteps
  end.

(** One firing of the interval callback. *)
Definition onTick (s : State) : State :=
  if negb (interval s) then s else
  match stepsOf (playing s) !! currentStep s with
  | Some f =>
      let s' := f s in
      {| isRunning := isRunning s'; step := Z.of_nat (currentStep s) + 1;
         mainMemory := mainMemory s'; core1Cache := core1Cache s';
         core2Cache := core2Cache s'; core1Action := core1Action s';
         core2Action := core2Action s'; logs := logs s';
         scenario := scenario s'; result := result s';
         interval := interval s'; currentStep := S (currentStep s);
         playing := playing s' |}
  | None =>
      {| isRunning := isRunning s; step := step s;
         mainMemory := mainMemory s; core1Cache := core1Cache s;
         core2Cache := core2Cache s; core1Action := core1Action s;
         core2Action := core2Action s; logs := logs s;
         scenario := scenario s; result := result s; interval := false;
         currentStep := currentStep s; playing := playing s |}
  end.

(** What can happen to the page. *)
Inductive Event :=
  | RunBroken
  | RunFixed
  | Reset
  | Tick.

Definition handle (e : Event) (s : State) : State :=
  match e with
  | RunBroken => runBrokenScenario s
  | RunFixed => runFixedScenario s
  | Reset => reset s
  | Tick => onTick s
  end.

End MemoryOrdering.

(** * Vocabulary of the properties *)

(** ** Expected contents of the scripted runs *)

Section RunVocabulary.
Import Deadlock.

(** The messages handed to [addLog] by the seven steps, in order. *)
Definition script_messages : list string :=
  [ "Thread A: Acquiring Lock 1...";
    "Thread A: ✓ Acquired Lock 1";
    "Thread B: Acquiring Lock 2...";
    "Thread B: ✓ Acquired Lock 2";
    "Thread A: Now I need Lock 2... (held by Thread B!)";
    "Thread B: Now I need Lock 1... (held by Thread A!)";
    "💀 DEADLOCK DETECTED! Both threads waiting forever!" ]%string.

(** A log holding the first [n] script messages, stamped by [clock]. *)
Definition stamped (clock : nat → string) (n : nat) : list string :=
  imap (λ k m, "[" +:+ clock k +:+ "] " +:+ m) (take n script_messages).

(** The deadlock page seven firings after the scenario was started from
    the first render. *)
Definition deadlock_after_step_7 : State :=
  ticks (λ _, "10:00:00") 0 7 (runDeadlockScenario initial).

End RunVocabulary.

Section RaceVocabulary.
Import RaceCondition.

(** What a log entry of the race-condition page records besides the text
    of its action. *)
Definition recorded (e : LogEntry) : Z * num * Z * option bool :=
  (threadId e, value e, timestamp e, isLostUpdate e).

(** What the entries of the unsafe log record at the end of a run whose
    [k]-th firing read the time [clock k]: three reads and three computes
    at counter 0, three writes of 1, the last two of them lost. *)
Definition unsafe_entries (clock : nat → Z)
    : list (Z * num * Z * option bool) :=
  [ (1, Num 0, clock 0%nat, None); (2, Num 0, clock 1%nat, None);
    (3, Num 0, clock 2%nat, None); (1, Num 0, clock 3%nat, None);
    (2, Num 0, clock 4%nat, None); (3, Num 0, clock 5%nat, None);
    (1, Num 1, clock 6%nat, Some false); (2, Num 1, clock 7%nat, Some true);
    (3, Num 1, clock 8%nat, Some true) ].

(** The entries of the atomic log at the end of a run. *)
Definition atomic_entries (clock : nat → Z) : list LogEntry :=
  [ {| threadId := 1; action := "Atomic increment → 1"; value := Num 1;
       timestamp := clock 0%nat; isLostUpdate := None |};
    {| threadId := 2; action := "Atomic increment → 2"; value := Num 2;
       timestamp := clock 1%nat; isLostUpdate := None |};
    {| threadId := 3; action := "Atomic increment → 3"; value := Num 3;
       timestamp := clock 2%nat; isLostUpdate := None |} ].

End RaceVocabulary.

Section CasVocabulary.
Import LocksCAS.

(** The attempts recorded by a run of the CAS demo whose [k]-th firing
    read the time [clock k]; the [id] of an attempt is its position in the
    script plus one. *)
Definition cas_attempts (clock : nat → Z) : list CAS.CASAttempt :=
  [ {| CAS.expected := 100; CAS.actual := 100; CAS.newValue := 101;
       CAS.success := true; CAS.id := 1; CAS.threadId := 1;
       CAS.timestamp := clock 0%nat |};
    {| CAS.expected := 101; CAS.actual := 102; CAS.newValue := 103;
       CAS.success := false; CAS.id := 2; CAS.threadId := 2;
       CAS.timestamp := clock 1%nat |};
    {| CAS.expected := 101; CAS.actual := 102; CAS.newValue := 103;
       CAS.success := false; CAS.id := 3; CAS.threadId := 3;
       CAS.timestamp := clock 2%nat |};
    {| CAS.expected := 101; CAS.actual := 101; CAS.newValue := 102;
       CAS.success := true; CAS.id := 4; CAS.threadId := 1;
       CAS.timestamp := clock 3%nat |};
    {| CAS.expected := 102; CAS.actual := 102; CAS.newValue := 103;
       CAS.success := true; CAS.id := 5; CAS.threadId := 2;
       CAS.timestamp := clock 4%nat |} ].

(** An attempt is consistent when it succeeded exactly if the expected
    value was the actual one. *)
Definition consistent (a : CAS.CASAttempt) : Prop :=
  CAS.success a = true ↔ CAS.expected a = CAS.actual a.

End CasVocabulary.

(** ** Comparators *)

(** A comparator that orders by a key, [(a, b) => key(a) - key(b)]. *)
Definition by_key {A : Type} (key : A → Z) (a b : A) : Z := key a - key b.

(** ** Invariant of the producer-consumer page *)

Section BufferVocabulary.
Import ProducerConsumer.

(** What the displayed counters and queue satisfy, and how the locals of
    a live run relate to them. *)
Record buffer_ok (s : State) : Prop := {
  queue_bounded : (length (queue s) ≤ BUFFER_SIZE)%nat;
  consumed_le : consumed s ≤ produced s;
  balance : produced s - consumed s = Z.of_nat (length (queue s));
  locals_shown :
    interval s = true →
    localQueue s = queue s ∧ localProduced s = produced s ∧
    localConsumed s = consumed s }.

End BufferVocabulary.

(** ** Run state of the pages *)

(** The fields of each page that a run changes and the user does not set
    directly. *)
Definition deadlock_run_state (s : Deadlock.State) :=
  (Deadlock.isRunning s, Deadlock.isDeadlocked s, Deadlock.step s,
   Deadlock.logs s, Deadlock.threads s, Deadlock.locks s).

Definition memory_run_state (s : MemoryOrdering.State) :=
  (MemoryOrdering.isRunning s, MemoryOrdering.step s,
   MemoryOrdering.mainMemory s, MemoryOrdering.core1Cache s,
   MemoryOrdering.core2Cache s, MemoryOrdering.core1Action s,
   MemoryOrdering.core2Action s, MemoryOrdering.logs s,
   MemoryOrdering.result s).

Definition buffer_run_state (s : ProducerConsumer.State) :=
  (ProducerConsumer.isRunning s, ProducerConsumer.isPaused s,
   ProducerConsumer.pauseRef s, ProducerConsumer.queue s,
   ProducerConsumer.produced s, ProducerConsumer.consumed s,
   ProducerConsumer.logs s, ProducerConsumer.itemCounter s,
   ProducerConsumer.producers s, ProducerConsumer.consumers s).

Definition readers_run_state (s : ReaderWriter.State) :=
  (ReaderWriter.isRunning s, ReaderWriter.isPaused s,
   ReaderWriter.pauseRef s, ReaderWriter.activeReaders s,
   ReaderWriter.activeWriter s, ReaderWriter.waitingReaders s,
   ReaderWriter.waitingWriters s, ReaderWriter.completedReads s,
   ReaderWriter.completedWrites s, ReaderWriter.logs s,
   ReaderWriter.threadCounter s, ReaderWriter.sharedData s,
   ReaderWriter.dataVersion s).

Definition pool_run_state (s : ThreadPool.State) :=
  (ThreadPool.isRunning s, ThreadPool.isPaused s, ThreadPool.pauseRef s,
   ThreadPool.taskQueue s, ThreadPool.completedTasks s, ThreadPool.logs s,
   ThreadPool.taskCounter s, ThreadPool.totalProcessed s).

Definition semaphore_run_state (s : Semaphore.State) :=
  (Semaphore.isRunning s, Semaphore.isPaused s, Semaphore.pauseRef s,
   Semaphore.waitingRequests s, Semaphore.activeRequests s,
   Semaphore.completedCount s, Semaphore.rejectedCount s, Semaphore.logs s,
   Semaphore.requestCounter s).

Definition starvation_run_state (s : Starvation.State) :=
  (Starvation.isRunning s, Starvation.isPaused s, Starvation.pauseRef s,
   Starvation.currentThread s, Starvation.logs s, Starvation.lockHolder s,
   Starvation.tick s).

Definition unsafe_run_state (s : RaceCondition.Unsafe.State) :=
  (RaceCondition.Unsafe.unsafeCounter s,
   RaceCondition.Unsafe.unsafeThreads s, RaceCondition.Unsafe.unsafeLog s,
   RaceCondition.Unsafe.unsafeRunning s,
   RaceCondition.Unsafe.lostUpdates s).

Definition atomic_run_state (s : RaceCondition.Atomic.State) :=
  (RaceCondition.Atomic.atomicCounter s,
   RaceCondition.Atomic.atomicThreads s, RaceCondition.Atomic.atomicLog s,
   RaceCondition.Atomic.atomicRunning s).

(** ** Example states *)

Section SemaphoreVocabulary.
Import Semaphore.

(** The request [spawnRequest] builds in the render [view]. *)
Definition spawned (view : Render) : Request :=
  {| id := r_requestCounter view + 1; status := waiting;
     color := JS.cyclic COLORS (r_requestCounter view);
     progress := 0%Q |}.

(** A fresh run with three permits; the same run after three clicks on
    "Add Request", when no permit is left and nobody waits; and after
    thirteen, when three requests hold a permit and ten wait. *)
Definition fresh_run : State := runSimulation initial.

Definition permits_taken : State :=
  Nat.iter 3 (clickAddRequest "10:00:00") fresh_run.

Definition queue_full : State :=
  Nat.iter 13 (clickAddRequest "10:00:00") fresh_run.

End SemaphoreVocabulary.

(** The thread-pool page after sixteen clicks on "Add Task" in a fresh
    run. *)
Definition sixteen_tasks : ThreadPool.State :=
  Nat.iter 16 (ThreadPool.addTask "10:00:00" 0%Q)
    (ThreadPool.runSimulation ThreadPool.mounted).

(** Draws above every threshold the callbacks compare them with. *)
Definition buffer_draws : ProducerConsumer.Draws :=
  {| ProducerConsumer.produce_draw := (9 # 10)%Q;
     ProducerConsumer.producer_draw := (9 # 10)%Q;
     ProducerConsumer.consume_draw := (9 # 10)%Q;
     ProducerConsumer.consumer_draw := (9 # 10)%Q |}.

Definition semaphore_draws : Semaphore.Draws :=
  {| Semaphore.progress_draw := λ _, (9 # 10)%Q;
     Semaphore.spawn_draw := (9 # 10)%Q |}.

Definition readers_draws : ReaderWriter.Draws :=
  {| ReaderWriter.reader_draw := λ _, (9 # 10)%Q;
     ReaderWriter.writer_draw := (9 # 10)%Q;
     ReaderWriter.spawn_draw := (9 # 10)%Q; ReaderWriter.kind_draw := (9 # 10)%Q |}.

(** Each page with a pause button, started from its first render and then
    paused. *)
Definition buffer_paused : ProducerConsumer.State :=
  ProducerConsumer.togglePause
    (ProducerConsumer.runSimulation ProducerConsumer.initial).

Definition starvation_paused : Starvation.State :=
  Starvation.togglePause (Starvation.runSimulation Starvation.initial).

Definition semaphore_paused : Semaphore.State :=
  Semaphore.togglePause (Semaphore.runSimulation Semaphore.initial).

Definition pool_paused : ThreadPool.State :=
  ThreadPool.togglePause (ThreadPool.runSimulation ThreadPool.mounted).

Definition readers_paused : ReaderWriter.State :=
  ReaderWriter.togglePause (ReaderWriter.runSimulation ReaderWriter.initial).

(** The starvation page after the first firing of a run: thread 1 runs. *)
Definition starvation_second : Starvation.State :=
  Starvation.onTick 0%Q (Starvation.runSimulation Starvation.initial).

(** The producer-consumer page started, and after one firing in which
    producer 1 produces and consumer 1 consumes. *)
Definition buffer_started : ProducerConsumer.State :=
  ProducerConsumer.handle ProducerConsumer.Start ProducerConsumer.initial.

Definition buffer_fired : ProducerConsumer.State :=
  ProducerConsumer.handle (ProducerConsumer.Tick "10:00:00" buffer_draws)
    buffer_started.

(** The producer-consumer page after five productions and no consumption:
    the queue is full. *)
Definition buffer_full : ProducerConsumer.State :=
  Nat.iter 5 (ProducerConsumer.produceAction "10:00:00" 1) buffer_started.

(** ** The lock demo *)

Section LockVocabulary.
Import LocksCAS.Lock.

(** The threads of the lock demo in the order they are served: those that
    have released the lock, the holder unless it is one of them, and the
    waiting queue. *)
Definition lock_order (d : LockDemo) : list Z :=
  completedThreads d ++
  match currentHolder d with
  | Some h => if bool_decide (h ∈ completedThreads d) then [] else [h]
  | None => []
  end ++
  waiting d.

(** A lock demo in which thread 7 holds the lock and 8 and 9 wait. *)
Definition lock_held_by_7 : State :=
  {| lockDemo :=
       {| active := true; waiting := [8; 9]; currentHolder := Some 7;
          completedThreads := [5]; phase := acquiring;
          executionLog := ["Thread 7 acquired the lock"] |};
     lockInterval := true; step := 3 |}.

End LockVocabulary.

(** ** The deadlock page seen as a script *)

Section DeadlockVocabulary.
Import Deadlock.

(** The deadlock page after a sequence of events, from the first render. *)
Definition deadlock_after (events : list Event) : State :=
  foldl (λ s e, handle e s) initial events.

(** Threads, locks and deadlock flag once [k] steps of the script have
    been applied. *)
Definition scene (s : State) := (threads s, locks s, isDeadlocked s).

Definition scene_at (k : nat) :=
  scene (ticks (λ _, EmptyString) 0 k (runDeadlockScenario initial)).

(** The page shows the scene of some step of the script; while the timer
    is scheduled, that step is the one its counter is at. *)
Definition on_script (s : State) : Prop :=
  ∃ k, (k ≤ 7)%nat ∧ scene s = scene_at k ∧
       (interval s = true → currentStep s = k).

(** Threads and locks agree on who holds what. *)
Definition holders_agree (s : State) : Prop :=
  (∀ t l, t ∈ threads s → holdsLock t = Some l →
     ∃ k, k ∈ locks s ∧ lock_id k = l ∧ heldBy k = Some (id t)) ∧
  (∀ k n, k ∈ locks s → heldBy k = Some n →
     ∃ t, t ∈ threads s ∧ id t = n ∧ holdsLock t = Some (lock_id k)).

(** Two threads each hold the lock the other one wants. *)
Definition circular_wait (s : State) : Prop :=
  ∃ a b la lb,
    a ∈ threads s ∧ b ∈ threads s ∧ la ≠ lb ∧
    holdsLock a = Some la ∧ wantsLock a = Some lb ∧
    holdsLock b = Some lb ∧ wantsLock b = Some la ∧
    status a = deadlocked ∧ status b = deadlocked.

(** The scenario run until the deadlock is detected. *)
Definition deadlock_detected : list Event :=
  Run :: replicate 7 (Tick "10:00:00").

End DeadlockVocabulary.

(** ** The memory-ordering page *)

Section MemoryVocabulary.
Import MemoryOrdering.

(** The memory-ordering page after a sequence of events, from the first
    render. *)
Definition memory_after (events : list Event) : State :=
  foldl (λ s e, handle e s) initial events.

(** The flag in main memory is raised only over the data it announces. *)
Definition published (m : Memory) : Prop := ready m = true → data m = 42.

(** What holds of the page however it is used: the interval plays the
    scenario shown, and in the fixed scenario the data is in main memory
    from the second step on. *)
Record memory_ok (s : State) : Prop := {
  plays_shown : playing s = scenario s;
  fixed_published : scenario s = fixed → published (mainMemory s);
  fixed_flushed :
    scenario s = fixed → interval s = true → (2 ≤ currentStep s)%nat →
    data (mainMemory s) = 42 }.

End MemoryVocabulary.

(** ** The starvation page as the user drives it *)

Section StarvationVocabulary.
Import Starvation.

(** What holds of the starvation page however it is used: the timer is
    scheduled exactly during a run; outside a run nobody holds the lock
    and the tick counter is zero; during a run the callback reads the lock
    holder and the tick of the render the run was started in; all log
    lines carry that tick. *)
Record starvation_ok (s : State) : Prop := {
  timer_while_running : interval s = isRunning s;
  idle_unlocked : isRunning s = false → lockHolder s = None ∧ tick s = 0;
  run_reads_start :
    isRunning s = true → cap_lockHolder s = None ∧ cap_tick s = 0;
  lines_stamped : Forall (λ l, ∃ m, l = "[0] " +:+ m) (logs s) }.

(** A run of the starvation page after its first firing: thread 1 holds
    the lock. *)
Definition one_firing : list Event := [Start; Tick 0%Q].

End StarvationVocabulary.

(** ** The semaphore page as the user drives it *)

Section SemaphoreRunVocabulary.
Import Semaphore.

(** What the stages of the callback leave alone. *)
Definition semaphore_frame (s : State) :=
  (isRunning s, maxPermits s, interval s, captured s).

(** What holds of the semaphore page however it is used. *)
Record semaphore_ok (s : State) : Prop := {
  sem_timer_while_running : interval s = isRunning s;
  sem_max_in_range : 1 ≤ maxPermits s ≤ 8;
  sem_idle :
    isRunning s = false →
    availablePermits s = maxPermits s ∧ waitingRequests s = [] ∧
    requestCounter s = 0;
  sem_run_reads_start :
    isRunning s = true →
    r_maxPermits (captured s) = maxPermits s ∧
    r_availablePermits (captured s) = maxPermits s ∧
    r_waitingRequests (captured s) = [] ∧
    r_requestCounter (captured s) = 0 }.

(** Four auto-spawned requests in a run with three permits, none of them
    completing. *)
Definition slow_draws : Draws :=
  {| progress_draw := λ _, (99 # 100)%Q; spawn_draw := (9 # 10)%Q |}.

Definition over_admitted : list Input :=
  Page Start :: replicate 4 (Page (Tick "10:00:00" slow_draws)).

(** What the updaters of the callback leave alone besides. *)
Definition semaphore_counts (s : State) := (rejectedCount s, requestCounter s).

(** A run with three permits in which the user adds four requests: three
    take the permits, the fourth waits. *)
Definition queue_of_one : list Input :=
  Page Start :: replicate 4 (Page (AddRequest "10:00:00")).

End SemaphoreRunVocabulary.

(** ** Order of the items of the producer-consumer page *)

Section FifoVocabulary.
Import ProducerConsumer.

(** The numbers [first], [first + 1], ... of [n] consecutive items. *)
Definition consecutive (first : Z) (n : nat) : list Z :=
  (λ k : nat, first + Z.of_nat k) <$> seq 0 n.

(** The queue a live run works on holds the items produced and not yet
    consumed, oldest first. *)
Record fifo_ok (s : State) : Prop := {
  local_ids :
    Item.id <$> localQueue s =
    consecutive (localConsumed s + 1) (length (localQueue s));
  local_counter :
    localItemCounter s =
    localConsumed s + Z.of_nat (length (localQueue s));
  local_produced : localProduced s = localItemCounter s;
  shown_ids :
    Item.id <$> queue s = consecutive (consumed s + 1) (length (queue s));
  shown_counter : itemCounter s = produced s }.

(** A run in which three items are produced and one is consumed. *)
Definition produce_only : Draws :=
  {| produce_draw := (9 # 10)%Q; producer_draw := (9 # 10)%Q;
     consume_draw := 0%Q; consumer_draw := 0%Q |}.

Definition two_in_queue : State :=
  handle (Tick "10:00:03" buffer_draws)
    (handle (Tick "10:00:02" produce_only)
       (handle (Tick "10:00:01" produce_only) (handle Start initial))).

End FifoVocabulary.

(** ** The thread pool *)

Section PoolVocabulary.
Import ThreadPool.

(** The pool page after a sequence of events, once mounted. *)
Definition pool_after (events : list Event) : State :=
  foldl (λ s e, handle e s) mounted events.

(** No task of a queue is still queued. *)
Definition none_queued (q : list Task) : Prop :=
  Forall (λ t, is_queued t = false) q.

(** A pool of two workers with three tasks of two seconds, after two
    firings: both workers are busy and one task is queued. *)
Definition pool_busy : State :=
  pool_after
    [ ClickWorkerCount 2; Start; AddTask "10:00:00" 0%Q;
      AddTask "10:00:00" 0%Q; AddTask "10:00:00" 0%Q; Tick "10:00:01";
      Tick "10:00:02" ].

(** A pool of two workers with one task, before the first firing. *)
Definition pool_one_task : State :=
  pool_after [ClickWorkerCount 2; Start; AddTask "10:00:00" 0%Q].

(** The second worker of a pool, idle. *)
Definition idle_worker_2 : Worker :=
  {| Worker.id := 2; Worker.name := "Worker 2";
     Worker.status := Worker.idle; Worker.currentTask := None;
     Worker.completedTasks := 0 |}.

(** Every busy worker of [ws] works on a task of the queue [q] that is
    marked as processed by that worker. *)
Definition owns (ws : list Worker) (q : list Task) : Prop :=
  ∀ w, w ∈ ws → Worker.status w = Worker.busy →
    ∃ t, t ∈ q ∧ Worker.currentTask w = Some (Task.id t) ∧
         Task.status t = Task.processing ∧
         Task.assignedTo t = Some (Worker.id w).

(** The sum of a list of numbers. *)
Definition sum_list (l : list Z) : Z := foldr Z.add 0 l.

(** Ids in use: without repetition, positive and not above the counter. *)
Definition ids_ok (s : State) : Prop :=
  NoDup (Task.id <$> taskQueue s) ∧
  Forall (λ n, 0 < n ≤ taskCounter s) (Task.id <$> taskQueue s) ∧
  0 ≤ taskCounter s.

(** Every completion shortens the queue by one and is counted once, by
    the page and by the worker. *)
Definition pool_balance (acc : Acc) : Z :=
  Z.of_nat (length (newQueue acc)) + processed acc.

(** What the counters of the pool satisfy. *)
Record counters_ok (s : State) : Prop := {
  ids_in_use : ids_ok s;
  timer_while_run : interval s = isRunning s;
  nothing_lost :
    taskCounter s = totalProcessed s + Z.of_nat (length (taskQueue s));
  idle_unprocessed : isRunning s = false → totalProcessed s = 0;
  workers_credit :
    sum_list (Worker.completedTasks <$> workers s) = totalProcessed s;
  completed_shown : (length (completedTasks s) ≤ 20)%nat;
  workers_named :
    (λ w, (Worker.id w, Worker.name w)) <$> workers s =
    (λ w, (Worker.id w, Worker.name w)) <$> makeWorkers (workerCount s) }.

(** What holds of the workers of the pool however the page is used. *)
Definition workers_ok (s : State) : Prop :=
  ids_ok s ∧ NoDup (Worker.id <$> workers s) ∧
  owns (workers s) (taskQueue s).

End PoolVocabulary.

(** ** The reader-writer page as the user drives it *)

Section ReadersVocabulary.
Import ReaderWriter.

(** Readers and a writer are never active together. *)
Definition exclusive (s : State) : Prop :=
  activeWriter s = None ∨ activeReaders s = [].

(** What the stages of the callback and the "add" handlers leave alone. *)
Definition readers_frame (s : State) :=
  (isRunning s, interval s, captured s, completedWrites s, dataVersion s,
   sharedData s).

(** What holds of the reader-writer page however it is used. *)
Record readers_ok (s : State) : Prop := {
  rw_timer_while_running : interval s = isRunning s;
  rw_nothing_written :
    completedWrites s = 0 ∧ dataVersion s = 1 ∧
    sharedData s = "Initial Value";
  rw_idle :
    isRunning s = false →
    activeWriter s = None ∧ activeReaders s = [] ∧ waitingWriters s = [] ∧
    threadCounter s = 0;
  rw_run_reads_start :
    isRunning s = true →
    r_activeWriter (captured s) = None ∧
    r_activeReaders (captured s) = [] ∧
    r_waitingWriters (captured s) = [] ∧
    r_threadCounter (captured s) = 0 }.

(** Draws with which no active reader finishes and a thread arrives: a
    reader, or a writer. *)
Definition reader_arrives : Draws :=
  {| reader_draw := λ _, 0%Q; writer_draw := 0%Q;
     spawn_draw := (9 # 10)%Q; kind_draw := (9 # 10)%Q |}.

Definition writer_arrives : Draws :=
  {| reader_draw := λ _, 0%Q; writer_draw := 0%Q;
     spawn_draw := (9 # 10)%Q; kind_draw := 0%Q |}.

(** A run in which the user adds a writer. *)
Definition writer_added : list Event := [Start; AddWriter "10:00:00" 0].

(** A run in which the user adds a writer and then a reader, which has to
    wait. *)
Definition reader_waits : list Event :=
  [Start; AddWriter "10:00:00" 0; AddReader "10:00:01" 1].

(** A run in which the user adds a reader. *)
Definition reader_added : State :=
  play [Start; AddReader "10:00:00" 0].

End ReadersVocabulary.

(** ** Runs of the async-versus-threads page *)

Section AsyncVocabulary.
Import AsyncVsThreads.

(** Whether the callback of a run stops it as soon as it fires: it reads
    the task lists of the render the run was started in. *)
Definition finished_at_start (r : Run) : bool :=
  allDone (cap_asyncTasks r) && allDone (cap_threadTasks r) &&
  allDone (cap_parallelTasks r).

(** The first run of the page: started from the first render, fired
    once. *)
Definition first_run : Run := onTick (start unstarted).

(** The run started after it, fired [n] times. *)
Definition second_run (n : nat) : Run := Nat.iter n onTick (start first_run).

(** The three times the page shows. *)
Definition times (r : Run) : Z * Z * Z :=
  (asyncTime (page r), threadTime (page r), parallelTime (page r)).

End AsyncVocabulary.

(** * Properties *)

(** ** Scripted runs *)

(** A fact about a closed run is settled by evaluating the run. *)
Ltac by_evaluation := vm_compute; reflexivity.

(** The same for a fact stated of each of the first firings. *)
Ltac by_evaluation_each :=
  repeat (apply Forall_cons_2; [repeat apply conj; by_evaluation|]);
  apply Forall_nil_2.

(** ** Doubles *)

Section Doubles.

(** Rounding gives the doubles JavaScript shows as [0.1],
    [0.30000000000000004] (the sum of the doubles of 0.1 and 0.2) and
    [8.333333333333334] (100 / 3 / 4); an integer is its own double. *)
Example double_values :
  JS.double (1 # 10) = (3602879701896397 # 36028797018963968)%Q ∧
  JS.add (JS.double (1 # 10)) (JS.double (2 # 10)) =
    (1351079888211149 # 4503599627370496)%Q ∧
  JS.div (JS.div 100 3) 4 = (4691249611844267 # 562949953421312)%Q ∧
  JS.double 100 = 100%Q.
Proof. repeat apply conj; vm_compute; reflexivity. Qed.

(** Twelve steps of a task of duration 3 add up to a double below 100,
    which JavaScript shows as [99.99999999999999]; in exact arithmetic
    they would add up to 100. *)
Example twelve_steps_of_duration_3 :
  Nat.iter 12 (λ p, JS.add p (JS.div (JS.div 100 3) 4)) 0%Q =
    (7036874417766399 # 70368744177664)%Q ∧
  JS.ge (Nat.iter 12 (λ p, JS.add p (JS.div (JS.div 100 3) 4)) 0%Q) 100%Q =
    false ∧
  JS.ge (Nat.iter 13 (λ p, JS.add p (JS.div (JS.div 100 3) 4)) 0%Q) 100%Q =
    true.
Proof. repeat apply conj; vm_compute; reflexivity. Qed.

End Doubles.

Section DeadlockRun.
Import Deadlock.

(** C1, as the claim has it, fails on its last clause: when step 7 has
    been applied, with both threads deadlocked and the running flag off,
    the timer is not yet cleared. *)
Lemma timer_scheduled_after_step_7 :
  step deadlock_after_step_7 = 7 ∧
  status <$> threads deadlock_after_step_7 = [deadlocked; deadlocked] ∧
  isRunning deadlock_after_step_7 = false ∧
  interval deadlock_after_step_7 ≠ false.
Proof. repeat apply conj; by vm_compute. Qed.

Variable clock : nat → string.

Lemma deadlock_ticks_app (k n m : nat) (s : State) :
  ticks clock k (n + m) s = ticks clock (k + n) m (ticks clock k n s).
Proof.
  revert k s. induction n as [|n IH]; intros k s; simpl.
  - by rewrite Nat.add_0_r.
  - rewrite IH. f_equal. lia.
Qed.

Lemma deadlock_ticks_stopped (k n : nat) (s : State) :
  interval s = false → ticks clock k n s = s.
Proof.
  revert k s. induction n as [|n IH]; intros k s Hs; simpl; [done|].
  unfold onTick. rewrite Hs. by apply IH.
Qed.

Variable s0 : State.

(** C1, amended.  A run of the deadlock scenario, started from any state
    of the page: each of the first seven firings of the timer applies one
    scripted step, so that after [k] of them the step counter shows [k]
    and the log holds the first [k] script messages in order, each behind
    its time stamp; after step 7 both threads are deadlocked, the running
    flag is off and the timer is still scheduled; the firing that follows
    finds the script exhausted and does nothing but clear the timer, which
    completes the run; no later firing changes anything. *)
Theorem deadlock_run_to_completion :
  let run n := ticks clock 0 n (runDeadlockScenario s0) in
  Forall (λ k, interval (run k) = true ∧ step (run k) = Z.of_nat k ∧
               currentStep (run k) = k ∧ logs (run k) = stamped clock k)
    (seq 0 8) ∧
  last (logs (run 7%nat)) =
    Some ("[" +:+ clock 6%nat +:+
          "] 💀 DEADLOCK DETECTED! Both threads waiting forever!") ∧
  status <$> threads (run 7%nat) = [deadlocked; deadlocked] ∧
  isRunning (run 7%nat) = false ∧
  isDeadlocked (run 7%nat) = true ∧
  run 8%nat = set_timer false 7 (run 7%nat) ∧
  interval (run 8%nat) = false ∧
  ∀ m, run (8 + m)%nat = run 8%nat.
Proof.
  intros run. repeat apply conj;
    lazymatch goal with
    | |- Forall _ _ => by_evaluation_each
    | |- ∀ m, _ =>
        intros m; unfold run; rewrite deadlock_ticks_app;
        apply deadlock_ticks_stopped; by_evaluation
    | |- _ => by_evaluation
    end.
Qed.

End DeadlockRun.

Section RaceRun.
Import RaceCondition.

Lemma unsafe_ticks_app (clock : nat → Z) (k n m : nat) (s : Unsafe.State) :
  Unsafe.ticks clock k (n + m) s =
  Unsafe.ticks clock (k + n) m (Unsafe.ticks clock k n s).
Proof.
  revert k s. induction n as [|n IH]; intros k s; simpl.
  - by rewrite Nat.add_0_r.
  - rewrite IH. f_equal. lia.
Qed.

Lemma unsafe_ticks_stopped (clock : nat → Z) (k n : nat) (s : Unsafe.State) :
  Unsafe.unsafeInterval s = false → Unsafe.ticks clock k n s = s.
Proof.
  revert k s. induction n as [|n IH]; intros k s Hs; simpl; [done|].
  unfold Unsafe.onTick. rewrite Hs. by apply IH.
Qed.

Lemma atomic_ticks_app (clock : nat → Z) (k n m : nat) (s : Atomic.State) :
  Atomic.ticks clock k (n + m) s =
  Atomic.ticks clock (k + n) m (Atomic.ticks clock k n s).
Proof.
  revert k s. induction n as [|n IH]; intros k s; simpl.
  - by rewrite Nat.add_0_r.
  - rewrite IH. f_equal. lia.
Qed.

Lemma atomic_ticks_stopped (clock : nat → Z) (k n : nat) (s : Atomic.State) :
  Atomic.atomicInterval s = false → Atomic.ticks clock k n s = s.
Proof.
  revert k s. induction n as [|n IH]; intros k s Hs; simpl; [done|].
  unfold Atomic.onTick. rewrite Hs. by apply IH.
Qed.

(** C6. Both scripts of the race-condition page are deterministic.
    Whatever the state the unsafe demo is started from and whatever the
    clock shows, its run plays the nine scripted actions on the first
    nine firings of the timer and is complete on the tenth, in one and
    the same terminal state: shared counter 1, two lost updates, the
    three threads "done", the running flag off and the timer stopped.
    (Counter and lost-update count have these values as soon as the ninth
    action is played; the completing firing marks the threads "done".)
    The atomic demo plays its three
    increments and is complete on the fourth firing with the counter at 3
    and the three threads "done".  (The value a thread of the atomic demo
    displays is one more than the counter it has written, 2, 3 and 4: the
    updater that stores [counter + 1] runs after [counter++].)  Apart
    from the time stamps of the log entries nothing in either terminal
    state depends on the run. *)
Theorem race_demos_deterministic
    (cu ca : nat → Z) (u0 : Unsafe.State) (a0 : Atomic.State) :
  let urun n := Unsafe.ticks cu 0 n (Unsafe.runUnsafeDemo u0) in
  let arun n := Atomic.ticks ca 0 n (Atomic.runAtomicDemo a0) in
  (Forall (λ k, Unsafe.unsafeInterval (urun k) = true ∧
                Unsafe.stepIndex (urun k) = k ∧
                length (Unsafe.unsafeLog (urun k)) = k) (seq 0 10) ∧
   Unsafe.unsafeCounter (urun 9%nat) = Num 1 ∧
   Unsafe.lostUpdates (urun 9%nat) = 2 ∧
   Unsafe.unsafeCounter (urun 10%nat) = Num 1 ∧
   Unsafe.lostUpdates (urun 10%nat) = 2 ∧
   step <$> Unsafe.unsafeThreads (urun 10%nat) = [done; done; done] ∧
   id <$> Unsafe.unsafeThreads (urun 10%nat) = [1; 2; 3] ∧
   localValue <$> Unsafe.unsafeThreads (urun 10%nat) =
     [Some (Num 1); Some (Num 1); Some (Num 1)] ∧
   recorded <$> Unsafe.unsafeLog (urun 10%nat) = unsafe_entries cu ∧
   Unsafe.unsafeRunning (urun 10%nat) = false ∧
   Unsafe.unsafeInterval (urun 10%nat) = false ∧
   ∀ m, urun (10 + m)%nat = urun 10%nat) ∧
  (Forall (λ k, Atomic.atomicInterval (arun k) = true ∧
                Atomic.threadIndex (arun k) = k ∧
                Atomic.atomicCounter (arun k) = Z.of_nat k) (seq 0 4) ∧
   Atomic.atomicCounter (arun 4%nat) = 3 ∧
   step <$> Atomic.atomicThreads (arun 4%nat) = [done; done; done] ∧
   localValue <$> Atomic.atomicThreads (arun 4%nat) =
     [Some (Num 2); Some (Num 3); Some (Num 4)] ∧
   Atomic.atomicLog (arun 4%nat) = atomic_entries ca ∧
   Atomic.atomicRunning (arun 4%nat) = false ∧
   Atomic.atomicInterval (arun 4%nat) = false ∧
   ∀ m, arun (4 + m)%nat = arun 4%nat).
Proof.
  intros urun arun. split; repeat apply conj;
    lazymatch goal with
    | |- Forall _ _ => by_evaluation_each
    | |- ∀ m, urun _ = _ =>
        intros m; unfold urun; rewrite unsafe_ticks_app;
        apply unsafe_ticks_stopped; by_evaluation
    | |- ∀ m, arun _ = _ =>
        intros m; unfold arun; rewrite atomic_ticks_app;
        apply atomic_ticks_stopped; by_evaluation
    | |- _ => by_evaluation
    end.
Qed.

End RaceRun.

Section CasRun.
Import LocksCAS.

Lemma cas_ticks_app (clock : nat → Z) (k n m : nat) (s : CAS.State) :
  CAS.ticks clock k (n + m) s =
  CAS.ticks clock (k + n) m (CAS.ticks clock k n s).
Proof.
  revert k s. induction n as [|n IH]; intros k s; simpl.
  - by rewrite Nat.add_0_r.
  - rewrite IH. f_equal. lia.
Qed.

Lemma cas_ticks_stopped (clock : nat → Z) (k n : nat) (s : CAS.State) :
  CAS.casInterval s = false → CAS.ticks clock k n s = s.
Proof.
  revert k s. induction n as [|n IH]; intros k s Hs; simpl; [done|].
  unfold CAS.onTick. rewrite Hs. by apply IH.
Qed.

Lemma cas_tick_consistent (now : Z) (s : CAS.State) :
  Forall consistent (CAS.attempts (CAS.casDemo s)) →
  Forall consistent (CAS.attempts (CAS.casDemo (CAS.onTick now s))).
Proof.
  intros H. unfold CAS.onTick.
  destruct (CAS.casInterval s); simpl; [|done].
  destruct (CAS.threads !! CAS.attemptIndex s) as [th|]; simpl; [|done].
  apply Forall_app; split; [done|].
  apply Forall_cons_2; [|apply Forall_nil_2].
  unfold consistent; simpl. split.
  - intros E. by apply Z.eqb_eq.
  - intros E. by apply Z.eqb_eq.
Qed.

Lemma cas_ticks_consistent (clock : nat → Z) (k n : nat) (s : CAS.State) :
  Forall consistent (CAS.attempts (CAS.casDemo s)) →
  Forall consistent (CAS.attempts (CAS.casDemo (CAS.ticks clock k n s))).
Proof.
  revert k s. induction n as [|n IH]; intros k s H; simpl; [done|].
  apply IH. by apply cas_tick_consistent.
Qed.

(** The attempts of a run by their index in the list. *)
Lemma cas_attempts_by_index (clock : nat → Z) (i : nat) (a : CAS.CASAttempt) :
  cas_attempts clock !! i = Some a →
  (CAS.success a = false ↔ i = 1%nat ∨ i = 2%nat) ∧
  (CAS.success a = false → CAS.expected a ≠ CAS.actual a) ∧
  CAS.id a = Z.of_nat i + 1.
Proof.
  destruct i as [|[|[|[|[|i]]]]]; simpl; intros H; [..|done];
    injection H as <-; simpl;
    (split; [split; [try done; auto|intros [?|?]; done]|]);
    (split; [try done; intros _; lia|lia]).
Qed.

(** C10. The CAS demo is deterministic: its callback takes no random
    draw, only the time stamp it records.  Started from any state, a run
    records one attempt on each of its first five firings and is complete
    on the sixth; the attempts at indices 1 and 2 of the recorded list
    (the firings that find [attemptIndex] at 1 and 2) fail, their expected
    value differing from the actual one, and the other three succeed; the
    shared value starts at 100 and ends at 103; and at every moment of the
    run each recorded attempt succeeded exactly if its expected value was
    the actual one.  (The [id] field of the attempt at index [i] holds
    [i + 1].) *)
Theorem cas_demo_deterministic (clock : nat → Z) (s0 : CAS.State) :
  let run n := CAS.ticks clock 0 n (CAS.startCASDemo s0) in
  Forall (λ k, CAS.casInterval (run k) = true ∧
               length (CAS.attempts (CAS.casDemo (run k))) = k)
    (seq 0 6) ∧
  CAS.value (CAS.casDemo (run 0%nat)) = 100 ∧
  CAS.attempts (CAS.casDemo (run 6%nat)) = cas_attempts clock ∧
  CAS.success <$> CAS.attempts (CAS.casDemo (run 6%nat)) =
    [true; false; false; true; true] ∧
  (∀ i a, CAS.attempts (CAS.casDemo (run 6%nat)) !! i = Some a →
          (CAS.success a = false ↔ i = 1%nat ∨ i = 2%nat) ∧
          (CAS.success a = false → CAS.expected a ≠ CAS.actual a) ∧
          CAS.id a = Z.of_nat i + 1) ∧
  CAS.value (CAS.casDemo (run 6%nat)) = 103 ∧
  CAS.isRunning (CAS.casDemo (run 6%nat)) = false ∧
  CAS.casInterval (run 6%nat) = false ∧
  (∀ m, run (6 + m)%nat = run 6%nat) ∧
  (∀ n, Forall consistent (CAS.attempts (CAS.casDemo (run n)))).
Proof.
  intros run. repeat apply conj;
    lazymatch goal with
    | |- Forall _ (seq _ _) => by_evaluation_each
    | |- ∀ m, run _ = _ =>
        intros m; unfold run; rewrite cas_ticks_app;
        apply cas_ticks_stopped; by_evaluation
    | |- ∀ n, Forall _ _ =>
        intros n; unfold run; apply cas_ticks_consistent;
        simpl; apply Forall_nil_2
    | |- ∀ i a, _ =>
        replace (CAS.attempts (CAS.casDemo (run 6%nat)))
          with (cas_attempts clock) by (symmetry; by_evaluation);
        apply cas_attempts_by_index
    | |- _ => by_evaluation
    end.
Qed.

End CasRun.

(** ** Pause *)

(** C3. On each of the five pages that offer pause (producer-consumer,
    starvation, semaphore, thread pool, reader-writer) the timer callback
    returns at once when the pause flag is set: a firing that finds the flag
    set leaves every field of the state, the captured values and the
    pending timeouts as they were. *)
Theorem paused_tick_is_noop :
  (∀ now d s, ProducerConsumer.pauseRef s = true →
     ProducerConsumer.onTick now d s = s) ∧
  (∀ r s, Starvation.pauseRef s = true → Starvation.onTick r s = s) ∧
  (∀ now d s, Semaphore.pauseRef s = true → Semaphore.onTick now d s = s) ∧
  (∀ now s, ThreadPool.pauseRef s = true → ThreadPool.onTick now s = s) ∧
  (∀ now ms d s, ReaderWriter.pauseRef s = true →
     ReaderWriter.onTick now ms d s = s).
Proof.
  repeat apply conj.
  - intros now d s H. unfold ProducerConsumer.onTick. rewrite H.
    by destruct (ProducerConsumer.interval s).
  - intros r s H. unfold Starvation.onTick. rewrite H.
    by destruct (Starvation.interval s).
  - intros now d s H. unfold Semaphore.onTick. rewrite H.
    by destruct (Semaphore.interval s).
  - intros now s H. unfold ThreadPool.onTick. rewrite H.
    by destruct (ThreadPool.interval s).
  - intros now ms d s H. unfold ReaderWriter.onTick. rewrite H.
    by destruct (ReaderWriter.interval s).
Qed.

(** The theorem at each page once it has been started and then paused. *)
Lemma paused_tick_is_noop_witness :
  ProducerConsumer.onTick "10:00:00" buffer_draws buffer_paused =
    buffer_paused ∧
  Starvation.onTick (9 # 10)%Q starvation_paused = starvation_paused ∧
  Semaphore.onTick "10:00:00" semaphore_draws semaphore_paused =
    semaphore_paused ∧
  ThreadPool.onTick "10:00:00" pool_paused = pool_paused ∧
  ReaderWriter.onTick "10:00:00" 0 readers_draws readers_paused =
    readers_paused.
Proof.
  repeat apply conj.
  - apply (proj1 paused_tick_is_noop). reflexivity.
  - apply (proj1 (proj2 paused_tick_is_noop)). reflexivity.
  - apply (proj1 (proj2 (proj2 paused_tick_is_noop))). reflexivity.
  - apply (proj1 (proj2 (proj2 (proj2 paused_tick_is_noop)))). reflexivity.
  - apply (proj2 (proj2 (proj2 (proj2 paused_tick_is_noop)))). reflexivity.
Defined.

(** ** Scheduling on the starvation page *)

Section SortHead.
Context {A : Type} (key : A → Z).

Local Abbreviation cmp := (by_key key).

Lemma insert_not_nil (a : A) (l : list A) : JS.insert cmp a l ≠ [].
Proof. destruct l as [|b l]; simpl; [done|]. by destruct (cmp a b <=? 0). Qed.

Lemma sort_nil (l : list A) : JS.sort cmp l = [] → l = [].
Proof.
  destruct l as [|c l]; [done|]. unfold JS.sort; simpl.
  intros H. by apply insert_not_nil in H.
Qed.

Lemma sort_cons (c : A) (l : list A) :
  JS.sort cmp (c :: l) = JS.insert cmp c (JS.sort cmp l).
Proof. reflexivity. Qed.

(** The head of the sorted array is an element of least key. *)
Lemma sort_head_minimal (l : list A) (a : A) :
  head (JS.sort cmp l) = Some a →
  a ∈ l ∧ ∀ b, b ∈ l → key a ≤ key b.
Proof.
  revert a. induction l as [|c l IH]; intros a; [done|].
  rewrite sort_cons. destruct (JS.sort cmp l) as [|h t] eqn:Hs.
  - apply sort_nil in Hs as ->. simpl. intros [= <-].
    split; [by left|]. intros b Hb.
    apply elem_of_cons in Hb as [->|Hb]; [lia|].
    by apply elem_of_nil in Hb.
  - destruct (IH h eq_refl) as [Hin Hmin]. simpl. unfold by_key at 1.
    destruct (Z.leb_spec (key c - key h) 0); simpl; intros [= <-].
    + split; [by left|]. intros b Hb.
      apply elem_of_cons in Hb as [->|Hb]; [lia|].
      specialize (Hmin b Hb). lia.
    + split; [by right|]. intros b Hb.
      apply elem_of_cons in Hb as [->|Hb]; [lia|auto].
Qed.

End SortHead.

Section StarvationScheduling.
Import Starvation.

Lemma age_priority (t : Thread) : priority (age t) = priority t.
Proof. reflexivity. Qed.

Lemma age_running (t : Thread) :
  status (age t) = running ↔ status t = running.
Proof.
  unfold age; simpl. destruct (status t); [done| |done].
  by destruct (20 <? waitTime t).
Qed.

Lemma waitingOf_spec (ts : list Thread) (i : nat) (t : Thread) :
  (i, t) ∈ waitingOf ts ↔ ts !! i = Some t ∧ status t ≠ running.
Proof.
  unfold waitingOf.
  rewrite list_elem_of_In, filter_In, <- list_elem_of_In.
  rewrite elem_of_lookup_imap, bool_decide_eq_true. simpl. split.
  - intros [(j & u & [= -> ->] & Hj) Hst]. done.
  - intros [Hi Hst]. split; [|done]. by exists i, t.
Qed.

(** C7. Under the unfair scenario, whenever a firing of the timer gives
    the lock to a thread, that thread was not running when the firing
    began and no thread that was not running then (waiting or starving)
    has a strictly higher priority, that is, a smaller priority order.
    The firing leaves the chosen thread running and holding the lock. *)
Theorem unfair_assignment_has_top_priority
    (r : Q) (s : State) (i : nat) (t : Thread) :
  interval s = true →
  pauseRef s = false →
  cap_scenario s = unfair →
  assignment s = Some (i, t) →
  (∃ u, threads s !! i = Some u ∧ t = age u ∧ status u ≠ running) ∧
  (∀ u, u ∈ threads s → status u ≠ running →
     priorityOrder (priority t) ≤ priorityOrder (priority u)) ∧
  lockHolder (onTick r s) = Some (id t) ∧
  status <$> threads (onTick r s) !! i = Some running.
Proof.
  intros Hint Hpause Hsc Hsel.
  assert (Hhead : head (JS.sort byPriority (waitingOf (age <$> threads s)))
                  = Some (i, t)).
  { unfold assignment in Hsel. rewrite Hsc in Hsel.
    by destruct (JS.truthy (cap_lockHolder s)). }
  apply (sort_head_minimal (λ p : nat * Thread,
           priorityOrder (priority p.2))) in Hhead as [Hin Hmin].
  apply waitingOf_spec in Hin as [Hi Hst].
  rewrite list_lookup_fmap in Hi.
  destruct (threads s !! i) as [u|] eqn:Hu; [|done].
  injection Hi as <-.
  repeat apply conj.
  - exists u. repeat split. intros E. apply Hst. by apply age_running.
  - intros v Hv Hrun. apply list_elem_of_lookup_1 in Hv as [j Hj].
    specialize (Hmin (j, age v)). simpl in Hmin. apply Hmin.
    apply waitingOf_spec. split.
    + by rewrite list_lookup_fmap, Hj.
    + intros E. apply Hrun. by apply age_running.
  - unfold onTick. rewrite Hint, Hpause, Hsel. reflexivity.
  - unfold onTick. rewrite Hint, Hpause, Hsel. simpl.
    rewrite list_lookup_alter_eq.
    assert (Haged : (age <$> threads s) !! i = Some (age u))
      by (by rewrite list_lookup_fmap, Hu).
    destruct (list_find _ _) as [[j w]|]; [|by rewrite Haged].
    destruct (JS.gt r (7 # 10)); [|by rewrite Haged].
    rewrite list_lookup_alter.
    destruct (decide (j = i)) as [->|]; by rewrite Haged.
Qed.

(** The theorem at the second firing of a run started from the first
    render: thread 1 runs, thread 2 is given the lock. *)
Lemma unfair_assignment_has_top_priority_witness :
  lockHolder (onTick 0%Q starvation_second) = Some 2 ∧
  status <$> threads (onTick 0%Q starvation_second) !! 1%nat = Some running.
Proof.
  destruct (unfair_assignment_has_top_priority 0%Q starvation_second 1%nat
              (age (age (mkThread 2 "High Priority 2" high "#f97316"))))
    as (_ & _ & Hlock & Hrun); try (vm_compute; reflexivity).
  split; [exact Hlock | exact Hrun].
Defined.

End StarvationScheduling.

(** ** The bounded buffer of the producer-consumer page *)

Section BoundedBuffer.
Import ProducerConsumer.

Lemma initial_ok : buffer_ok initial.
Proof. split; simpl; try done. unfold BUFFER_SIZE. lia. Qed.

Lemma runSimulation_ok (s : State) : buffer_ok (runSimulation s).
Proof. split; simpl; try done. unfold BUFFER_SIZE. lia. Qed.

Lemma reset_ok (s : State) : buffer_ok (reset s).
Proof. split; simpl; try done. unfold BUFFER_SIZE. lia. Qed.

Lemma togglePause_ok (s : State) : buffer_ok s → buffer_ok (togglePause s).
Proof. intros [H1 H2 H3 H4]. split; simpl; done. Qed.

Lemma produceAction_interval (now : string) (n : Z) (s : State) :
  interval (produceAction now n s) = interval s.
Proof.
  unfold produceAction.
  by destruct (length (localQueue s) <? BUFFER_SIZE)%nat.
Qed.

Lemma produceAction_ok (now : string) (n : Z) (s : State) :
  interval s = true → buffer_ok s → buffer_ok (produceAction now n s).
Proof.
  intros Hi [H1 H2 H3 H4]. destruct (H4 Hi) as (Eq & Ep & Ec).
  unfold produceAction.
  destruct (Nat.ltb_spec (length (localQueue s)) BUFFER_SIZE) as [Hlt|Hge].
  - split; simpl; [| | |done].
    + rewrite length_app. simpl. lia.
    + lia.
    + rewrite Eq in *. rewrite length_app. simpl. lia.
  - split; simpl; done.
Qed.

Lemma consumeAction_ok (now : string) (n : Z) (s : State) :
  interval s = true → buffer_ok s → buffer_ok (consumeAction now n s).
Proof.
  intros Hi [H1 H2 H3 H4]. destruct (H4 Hi) as (Eq & Ep & Ec).
  unfold consumeAction. destruct (localQueue s) as [|item rest] eqn:E.
  - split; simpl; done.
  - rewrite <- Eq in *. simpl in *. split; simpl; [lia|lia|lia|done].
Qed.

Lemma onTick_ok (now : string) (d : Draws) (s : State) :
  buffer_ok s → buffer_ok (onTick now d s).
Proof.
  intros H. unfold onTick.
  destruct (interval s) eqn:Hi; simpl; [|done].
  destruct (pauseRef s); [done|].
  set (s1 := if JS.gt (produce_draw d) (4 # 10) then _ else s).
  assert (interval s1 = true ∧ buffer_ok s1) as [Hi1 H1].
  { subst s1. destruct (JS.gt (produce_draw d) (4 # 10)); [|done].
    split; [by rewrite produceAction_interval|by apply produceAction_ok]. }
  destruct (JS.gt (consume_draw d) (3 # 10)); [|done].
  by apply consumeAction_ok.
Qed.

Lemma onTimeout_ok (i : nat) (s : State) :
  buffer_ok s → buffer_ok (onTimeout i s).
Proof.
  intros [H1 H2 H3 H4]. unfold onTimeout.
  destruct (timeouts s !! i) as [[n|n|n|n]|]; split; simpl; done.
Qed.

Lemma reachable_ok (s : State) : reachable s → buffer_ok s.
Proof.
  induction 1 as [|e s _ IH]; [apply initial_ok|].
  destruct e; simpl.
  - apply runSimulation_ok.
  - apply reset_ok.
  - by apply togglePause_ok.
  - by apply onTick_ok.
  - by apply onTimeout_ok.
Qed.

(** C9. In every state the producer-consumer page can reach, the queue
    holds at most [BUFFER_SIZE] = 5 items, no more items have been
    consumed than produced, and produced minus consumed is the length of
    the queue; while a run is live, the queue and counters its callback
    works on are the ones displayed.  A producer action appends an item,
    and counts it, only when the queue is shorter than 5; on a full queue
    it leaves queue and counters alone, marks the producer blocked and logs
    the blocked event.  A consumer action removes the front item, and
    counts it, only when the queue is not empty; on an empty queue it
    leaves queue and counters alone, marks the consumer blocked and logs
    the blocked event. *)
Theorem buffer_invariants :
  (∀ s, reachable s →
     (length (queue s) ≤ 5)%nat ∧ consumed s ≤ produced s ∧
     produced s - consumed s = Z.of_nat (length (queue s)) ∧
     (interval s = true →
      localQueue s = queue s ∧ localProduced s = produced s ∧
      localConsumed s = consumed s)) ∧
  (∀ now n s,
     let s' := produceAction now n s in
     ((length (localQueue s) < 5)%nat →
        ∃ item, localQueue s' = localQueue s ++ [item] ∧
                queue s' = localQueue s' ∧
                Item.producedBy item = n ∧
                produced s' = localProduced s + 1 ∧
                localProduced s' = localProduced s + 1) ∧
     ((5 ≤ length (localQueue s))%nat →
        localQueue s' = localQueue s ∧ queue s' = queue s ∧
        produced s' = produced s ∧
        localProduced s' = localProduced s ∧
        consumed s' = consumed s ∧ itemCounter s' = itemCounter s ∧
        producers s' = on_thread n (with_status blocked) (producers s) ∧
        logs s' =
          addLog now ("Producer " +:+ pretty n +:+ ": BLOCKED - Queue full!")
            blocked_log (logs s))) ∧
  (∀ now n s,
     let s' := consumeAction now n s in
     (∀ item rest, localQueue s = item :: rest →
        localQueue s' = rest ∧ queue s' = rest ∧
        consumed s' = localConsumed s + 1 ∧
        localConsumed s' = localConsumed s + 1) ∧
     (localQueue s = [] →
        localQueue s' = [] ∧ queue s' = queue s ∧
        consumed s' = consumed s ∧
        localConsumed s' = localConsumed s ∧
        produced s' = produced s ∧
        consumers s' = on_thread n (with_status blocked) (consumers s) ∧
        logs s' =
          addLog now ("Consumer " +:+ pretty n +:+ ": BLOCKED - Queue empty!")
            blocked_log (logs s))).
Proof.
  repeat apply conj.
  - intros s Hs. by destruct (reachable_ok s Hs).
  - intros now n s s'. subst s'. unfold produceAction. split.
    + intros Hlt. apply Nat.ltb_lt in Hlt. unfold BUFFER_SIZE.
      rewrite Hlt. simpl. eexists. repeat split.
    + intros Hge. apply Nat.ltb_ge in Hge. unfold BUFFER_SIZE.
      rewrite Hge. simpl. repeat split.
  - intros now n s s'. subst s'. unfold consumeAction. split.
    + intros item rest E. rewrite E. simpl. repeat split.
    + intros E. rewrite E. simpl. repeat split.
Qed.

(** The theorem at a run that has fired once, at a production into the
    empty and into the full queue, and at a consumption from the full and
    from the empty queue. *)
Lemma buffer_invariants_witness :
  ((length (queue buffer_fired) ≤ 5)%nat ∧
   consumed buffer_fired ≤ produced buffer_fired ∧
   produced buffer_fired - consumed buffer_fired =
     Z.of_nat (length (queue buffer_fired))) ∧
  localQueue buffer_fired = queue buffer_fired ∧
  (∃ item,
     localQueue (produceAction "10:00:00" 1 buffer_started) =
       localQueue buffer_started ++ [item]) ∧
  queue (produceAction "10:00:00" 1 buffer_full) = queue buffer_full ∧
  localQueue (consumeAction "10:00:00" 1 buffer_full) =
    drop 1 (localQueue buffer_full) ∧
  queue (consumeAction "10:00:00" 1 buffer_started) = queue buffer_started.
Proof.
  destruct buffer_invariants as (Hinv & Hprod & Hcons).
  assert (Hr : reachable buffer_fired)
    by apply reachable_step, reachable_step, reachable_initial.
  repeat apply conj.
  - apply (Hinv buffer_fired Hr).
  - apply (Hinv buffer_fired Hr).
  - apply (Hinv buffer_fired Hr).
  - apply (Hinv buffer_fired Hr). reflexivity.
  - destruct (proj1 (Hprod "10:00:00" 1 buffer_started)) as (item & H & _).
    + vm_compute. lia.
    + by exists item.
  - apply (proj2 (Hprod "10:00:00" 1 buffer_full)). vm_compute. lia.
  - eapply (proj1 (Hcons "10:00:00" 1 buffer_full)). vm_compute. reflexivity.
  - apply (proj2 (Hcons "10:00:00" 1 buffer_started)). reflexivity.
Defined.

End BoundedBuffer.

(** ** Admission on the semaphore page *)

Section Admission.
Import Semaphore.

(** C8, as the claim has it, fails on its last clause: a rejection also
    advances the request counter. *)
Lemma rejection_advances_request_counter :
  availablePermits queue_full = 0 ∧
  length (waitingRequests queue_full) = 10%nat ∧
  rejectedCount (clickAddRequest "10:00:01" queue_full) =
    rejectedCount queue_full + 1 ∧
  requestCounter (clickAddRequest "10:00:01" queue_full) ≠
    requestCounter queue_full.
Proof. repeat apply conj; by vm_compute. Qed.

(** C8, amended.  [spawnRequest] looks at the render it was created in.
    It rejects the request exactly when that render shows no permit
    available and a waiting queue that already holds ten requests (ten or
    more, were the queue ever longer).  A rejection increments the
    rejected counter, logs the "REJECTED - Queue full!" line and, like
    every spawn, advances the request counter; it changes nothing else.
    Otherwise the request is admitted: with a permit available it takes
    one and joins the active requests as "processing"; with none it joins
    the waiting queue; the rejected counter stays. *)
Theorem spawn_request_outcomes (view : Render) (now : string) (s : State) :
  let s' := spawnRequest view now s in
  let label := "Request #" +:+ pretty (r_requestCounter view + 1) in
  (rejectedCount s' = rejectedCount s + 1 ↔
     r_availablePermits view ≤ 0 ∧
     (10 ≤ length (r_waitingRequests view))%nat) ∧
  (r_availablePermits view ≤ 0 →
   (10 ≤ length (r_waitingRequests view))%nat →
   s' = {| isRunning := isRunning s; isPaused := isPaused s;
           maxPermits := maxPermits s;
           availablePermits := availablePermits s;
           waitingRequests := waitingRequests s;
           activeRequests := activeRequests s;
           completedCount := completedCount s;
           rejectedCount := rejectedCount s + 1;
           logs := JS.slice_last 12 (logs s) ++
             [line now (label +:+ ": REJECTED - Queue full!")
                rejected_log];
           requestCounter := requestCounter s + 1;
           autoSpawn := autoSpawn s; interval := interval s;
           pauseRef := pauseRef s; captured := captured s |}) ∧
  (0 < r_availablePermits view →
   rejectedCount s' = rejectedCount s ∧
   activeRequests s' =
     activeRequests s ++ [with_status processing (spawned view)] ∧
   availablePermits s' = availablePermits s - 1 ∧
   waitingRequests s' = waitingRequests s ∧
   requestCounter s' = requestCounter s + 1) ∧
  (r_availablePermits view ≤ 0 →
   (length (r_waitingRequests view) < 10)%nat →
   rejectedCount s' = rejectedCount s ∧
   waitingRequests s' = waitingRequests s ++ [spawned view] ∧
   activeRequests s' = activeRequests s ∧
   availablePermits s' = availablePermits s ∧
   requestCounter s' = requestCounter s + 1).
Proof.
  intros s' label. subst s' label. unfold spawnRequest.
  destruct (Z.ltb_spec 0 (r_availablePermits view)) as [Hp|Hp];
    [|destruct (Nat.ltb_spec (length (r_waitingRequests view)) 10)
        as [Hq|Hq]];
    simpl; repeat apply conj; intros;
    first [ lia | by repeat split | split; intros; lia ].
Qed.

(** The theorem at the fourteenth click of [queue_full] (rejected), at
    the first click of a fresh run (a permit is taken) and at the fourth
    (the request waits). *)
Lemma spawn_request_outcomes_witness :
  rejectedCount (spawnRequest (render queue_full) "10:00:01" queue_full) =
    rejectedCount queue_full + 1 ∧
  requestCounter (spawnRequest (render queue_full) "10:00:01" queue_full) =
    requestCounter queue_full + 1 ∧
  availablePermits
    (spawnRequest (render fresh_run) "10:00:01" fresh_run) =
    availablePermits fresh_run - 1 ∧
  length (waitingRequests
    (spawnRequest (render permits_taken) "10:00:01" permits_taken)) = 1%nat.
Proof.
  repeat apply conj.
  - apply (proj1 (spawn_request_outcomes (render queue_full) "10:00:01"
                    queue_full)).
    split; vm_compute; [discriminate|lia].
  - rewrite (proj1 (proj2 (spawn_request_outcomes (render queue_full)
                             "10:00:01" queue_full)));
      [reflexivity | vm_compute; discriminate | vm_compute; lia].
  - apply (proj1 (proj2 (proj2 (spawn_request_outcomes (render fresh_run)
                                  "10:00:01" fresh_run)))).
    reflexivity.
  - destruct (proj2 (proj2 (proj2 (spawn_request_outcomes
                (render permits_taken) "10:00:01" permits_taken))))
      as (_ & Hwait & _).
    + vm_compute. discriminate.
    + vm_compute. lia.
    + rewrite Hwait. reflexivity.
Defined.

(** Clicking cannot make the waiting queue longer than ten. *)
Lemma click_keeps_queue_bounded (now : string) (s : State) :
  (length (waitingRequests s) ≤ 10)%nat →
  (length (waitingRequests (clickAddRequest now s)) ≤ 10)%nat.
Proof.
  intros H. unfold clickAddRequest, spawnRequest. simpl.
  destruct (0 <? availablePermits s); simpl; [done|].
  destruct (Nat.ltb_spec (length (waitingRequests s)) 10); simpl; [|done].
  rewrite length_app. simpl. lia.
Qed.

End Admission.

(** ** Reset *)

Section Reset.

(** C2, as the claim has it, fails on two pages.  On the semaphore page
    [reset] puts the available permits back to the chosen maximum, not to
    the 3 the page is created with; on the starvation page it installs
    the five threads, where the page is created with none. *)
Lemma reset_is_not_construction_default :
  Semaphore.availablePermits
    (Semaphore.reset (Semaphore.updateMaxPermits 1 Semaphore.initial)) ≠
    Semaphore.availablePermits Semaphore.initial ∧
  Starvation.threads (Starvation.reset Starvation.initial) ≠
    Starvation.threads Starvation.initial.
Proof. split; by vm_compute. Qed.

(** A timeout of the producer-consumer page that fires after a reset
    finds the producers and consumers idle and leaves them so. *)
Lemma timeout_after_reset (i : nat) (s : ProducerConsumer.State) :
  buffer_run_state s = buffer_run_state ProducerConsumer.initial →
  buffer_run_state (ProducerConsumer.onTimeout i s) =
  buffer_run_state ProducerConsumer.initial.
Proof.
  intros H. unfold ProducerConsumer.onTimeout.
  destruct (ProducerConsumer.timeouts s !! i) as [t|]; [|done].
  unfold buffer_run_state in *.
  destruct t as [n|n|n|n]; simpl in *;
    injection H as -> -> -> -> -> -> -> -> -> ->; simpl;
    repeat case_match; reflexivity.
Qed.

(** C2, amended.  On every page [reset], whenever it is called, cancels
    the timer and puts the fields that a run changes back to the values
    the page is created with, with these exceptions: what the user has
    set is kept (explanation toggles, the scenario of the starvation and
    memory-ordering pages, the semaphore's maximum and auto-spawn switch,
    the thread pool's worker count); the semaphore's available permits
    restart at the chosen maximum and the thread pool's workers as that
    many idle workers; the starvation page restarts with its five
    waiting threads.  On the locks page each demo has its own reset, which
    leaves the other demo alone.  Timeouts of the producer-consumer page
    still pending at a reset do not disturb the restored state when they
    fire. *)
Theorem reset_restores_run_state :
  (∀ s, deadlock_run_state (Deadlock.reset s) =
          deadlock_run_state Deadlock.initial ∧
        Deadlock.interval (Deadlock.reset s) = false ∧
        Deadlock.showExplanation (Deadlock.reset s) =
          Deadlock.showExplanation s) ∧
  (∀ s, memory_run_state (MemoryOrdering.reset s) =
          memory_run_state MemoryOrdering.initial ∧
        MemoryOrdering.interval (MemoryOrdering.reset s) = false ∧
        MemoryOrdering.scenario (MemoryOrdering.reset s) =
          MemoryOrdering.scenario s) ∧
  (∀ s, AsyncVsThreads.reset s = AsyncVsThreads.initial) ∧
  (∀ s, buffer_run_state (ProducerConsumer.reset s) =
          buffer_run_state ProducerConsumer.initial ∧
        ProducerConsumer.interval (ProducerConsumer.reset s) = false ∧
        ∀ fired,
          buffer_run_state
            (foldr ProducerConsumer.onTimeout (ProducerConsumer.reset s)
               fired) =
          buffer_run_state ProducerConsumer.initial) ∧
  (∀ s, readers_run_state (ReaderWriter.reset s) =
          readers_run_state ReaderWriter.initial ∧
        ReaderWriter.interval (ReaderWriter.reset s) = false) ∧
  (∀ s, pool_run_state (ThreadPool.reset s) =
          pool_run_state ThreadPool.initial ∧
        ThreadPool.interval (ThreadPool.reset s) = false ∧
        ThreadPool.workerCount (ThreadPool.reset s) =
          ThreadPool.workerCount s ∧
        ThreadPool.workers (ThreadPool.reset s) =
          ThreadPool.makeWorkers (ThreadPool.workerCount s)) ∧
  (∀ s, semaphore_run_state (Semaphore.reset s) =
          semaphore_run_state Semaphore.initial ∧
        Semaphore.interval (Semaphore.reset s) = false ∧
        Semaphore.maxPermits (Semaphore.reset s) = Semaphore.maxPermits s ∧
        Semaphore.autoSpawn (Semaphore.reset s) = Semaphore.autoSpawn s ∧
        Semaphore.availablePermits (Semaphore.reset s) =
          Semaphore.maxPermits s) ∧
  (∀ s, starvation_run_state (Starvation.reset s) =
          starvation_run_state Starvation.initial ∧
        Starvation.interval (Starvation.reset s) = false ∧
        Starvation.scenario (Starvation.reset s) = Starvation.scenario s ∧
        Starvation.showExplanation (Starvation.reset s) =
          Starvation.showExplanation s ∧
        Starvation.threads (Starvation.reset s) = Starvation.initThreads) ∧
  (∀ s, unsafe_run_state (RaceCondition.unsafe (RaceCondition.resetAll s)) =
          unsafe_run_state RaceCondition.Unsafe.initial ∧
        atomic_run_state (RaceCondition.atomic (RaceCondition.resetAll s)) =
          atomic_run_state RaceCondition.Atomic.initial ∧
        RaceCondition.playing (RaceCondition.resetAll s) = 0%nat) ∧
  (∀ s, LocksCAS.Lock.lockDemo (LocksCAS.lock (LocksCAS.resetLockDemo s)) =
          LocksCAS.Lock.lockDemo LocksCAS.Lock.initial ∧
        LocksCAS.Lock.lockInterval (LocksCAS.lock (LocksCAS.resetLockDemo s))
          = false ∧
        LocksCAS.cas (LocksCAS.resetLockDemo s) = LocksCAS.cas s ∧
        LocksCAS.showExplanation (LocksCAS.resetLockDemo s) =
          LocksCAS.showExplanation s) ∧
  (∀ s, LocksCAS.CAS.casDemo (LocksCAS.cas (LocksCAS.resetCASDemo s)) =
          LocksCAS.CAS.casDemo LocksCAS.CAS.initial ∧
        LocksCAS.CAS.casInterval (LocksCAS.cas (LocksCAS.resetCASDemo s))
          = false ∧
        LocksCAS.lock (LocksCAS.resetCASDemo s) = LocksCAS.lock s ∧
        LocksCAS.showExplanation (LocksCAS.resetCASDemo s) =
          LocksCAS.showExplanation s).
Proof.
  repeat apply conj; intros s; repeat apply conj; try reflexivity.
  intros fired. induction fired as [|i fired IH]; [reflexivity|].
  simpl. by apply timeout_after_reset.
Qed.

End Reset.

(** ** The loop of the async simulation *)

Section AsyncLoop.
Import AsyncVsThreads.

(** One iteration of the loop. *)
Lemma eventLoop_S (fuel : nat) (now : Z) (a : Async) :
  eventLoop (S fuel) now a =
  match a_tasks a !! a_current a with
  | None => a
  | Some current =>
      let '(current, log) :=
        match status current with
        | pending =>
            (started now current,
             addLog ("[Async] Started task " +:+ pretty (id current))
               (a_logs a))
        | _ => (current, a_logs a)
        end in
      match status current with
      | running =>
          match type current with
          | io =>
              eventLoop fuel now
                {| a_tasks :=
                     <[a_current a := with_status waiting current]>
                       (a_tasks a);
                   a_current := S (a_current a);
                   a_waiting := a_waiting a ++ [id current];
                   a_logs :=
                     addLog ("[Async] Task " +:+ pretty (id current) +:+
                             " awaiting I/O (yields)") log |}
          | cpu =>
              let '(current', finished) := progressed current in
              if finished then
                {| a_tasks := <[a_current a := current']> (a_tasks a);
                   a_current := S (a_current a);
                   a_waiting := a_waiting a;
                   a_logs :=
                     addLog ("[Async] Task " +:+ pretty (id current) +:+
                             " completed (CPU done)") log |}
              else
                {| a_tasks := <[a_current a := current']> (a_tasks a);
                   a_current := a_current a;
                   a_waiting := a_waiting a; a_logs := log |}
          end
      | completed | waiting =>
          eventLoop fuel now
            {| a_tasks := a_tasks a; a_current := S (a_current a);
               a_waiting := a_waiting a; a_logs := log |}
      | pending =>
          {| a_tasks := a_tasks a; a_current := a_current a;
             a_waiting := a_waiting a; a_logs := log |}
      end
  end.
Proof. reflexivity. Qed.

End AsyncLoop.

(** ** Event logs *)

Section Logs.


Lemma slice_last_snoc {A : Type} (n : nat) (prev : list A) (a : A) :
  JS.slice_last n prev ++ [a] = JS.slice_last (S n) (prev ++ [a]).
Proof.
  unfold JS.slice_last. rewrite length_app. simpl.
  replace (length prev + 1 - S n)%nat with (length prev - n)%nat by lia.
  rewrite drop_app_le by lia. done.
Qed.

Lemma slice_last_length {A : Type} (n : nat) (l : list A) :
  (length (JS.slice_last n l) ≤ n)%nat.
Proof. unfold JS.slice_last. rewrite length_drop. lia. Qed.

(** C5, as the claim has it, fails on the thread-pool page, whose log
    slices to 15 entries: the log can hold 16. *)
Lemma log_exceeds_slice_length :
  ¬ (length (ThreadPool.logs sixteen_tasks) ≤ 15)%nat.
Proof. vm_compute. lia. Qed.

Lemma lock_ticks_stopped (n : nat) (s : LocksCAS.Lock.State) :
  LocksCAS.Lock.lockInterval s = false →
  Nat.iter n LocksCAS.Lock.onTick s = s.
Proof.
  intros H. induction n as [|n IH]; [done|]. simpl. rewrite IH.
  unfold LocksCAS.Lock.onTick. by rewrite H.
Qed.

(** The log of the lock demo never passes 13 lines in a run. *)
Lemma lock_log_bounded (n : nat) (s : LocksCAS.Lock.State) :
  (length (LocksCAS.Lock.executionLog (LocksCAS.Lock.lockDemo
     (Nat.iter n LocksCAS.Lock.onTick (LocksCAS.Lock.startLockDemo s))))
   ≤ 13)%nat.
Proof.
  do 12 (destruct n as [|n]; [vm_compute; lia|]).
  replace (S (S (S (S (S (S (S (S (S (S (S (S n))))))))))))
    with (n + 12)%nat by lia.
  rewrite Nat.iter_add, lock_ticks_stopped; [vm_compute; lia|].
  vm_compute. reflexivity.
Qed.

(** The logs of the race-condition page never pass 9 and 3 entries in a
    run. *)
Lemma race_logs_bounded (cu ca : nat → Z) (n : nat)
    (u : RaceCondition.Unsafe.State) (a : RaceCondition.Atomic.State) :
  (length (RaceCondition.Unsafe.unsafeLog
     (RaceCondition.Unsafe.ticks cu 0 n
        (RaceCondition.Unsafe.runUnsafeDemo u))) ≤ 9)%nat ∧
  (length (RaceCondition.Atomic.atomicLog
     (RaceCondition.Atomic.ticks ca 0 n
        (RaceCondition.Atomic.runAtomicDemo a))) ≤ 3)%nat.
Proof.
  split.
  - do 10 (destruct n as [|n]; [vm_compute; lia|]).
    replace (S (S (S (S (S (S (S (S (S (S n))))))))))
      with (10 + n)%nat by lia.
    rewrite unsafe_ticks_app, unsafe_ticks_stopped; [vm_compute; lia|].
    vm_compute. reflexivity.
  - do 4 (destruct n as [|n]; [vm_compute; lia|]).
    replace (S (S (S (S n)))) with (4 + n)%nat by lia.
    rewrite atomic_ticks_app, atomic_ticks_stopped; [vm_compute; lia|].
    vm_compute. reflexivity.
Qed.

(** *** The bound holds whatever happens to a page *)

Lemma foldl_invariant {A B : Type} (P : A → Prop) (f : A → B → A)
    (l : list B) (a : A) :
  P a → (∀ a b, P a → P (f a b)) → P (foldl f a l).
Proof.
  intros Ha Hf. revert a Ha. induction l as [|b l IH]; intros a Ha; [done|].
  simpl. apply IH, Hf, Ha.
Qed.

Lemma snoc_bounded {A : Type} (n : nat) (prev : list A) (a : A) :
  (length (JS.slice_last n prev ++ [a]) ≤ S n)%nat.
Proof. rewrite slice_last_snoc. apply slice_last_length. Qed.

Lemma deadlock_handle_bounded (e : Deadlock.Event) (s : Deadlock.State) :
  (length (Deadlock.logs s) ≤ 9)%nat →
  (length (Deadlock.logs (Deadlock.handle e s)) ≤ 9)%nat.
Proof.
  intros H. destruct e as [| | |now]; simpl; try lia.
  unfold Deadlock.onTick. destruct (Deadlock.interval s); [|done].
  destruct (Deadlock.currentStep s) as [|[|[|[|[|[|[|n]]]]]]]; simpl;
    first [apply snoc_bounded | done].
Qed.

Lemma memory_handle_bounded (e : MemoryOrdering.Event)
    (s : MemoryOrdering.State) :
  (length (MemoryOrdering.logs s) ≤ 13)%nat →
  (length (MemoryOrdering.logs (MemoryOrdering.handle e s)) ≤ 13)%nat.
Proof.
  intros H. destruct e; simpl; try lia.
  unfold MemoryOrdering.onTick. destruct (MemoryOrdering.interval s); [|done].
  destruct (MemoryOrdering.playing s);
    destruct (MemoryOrdering.currentStep s) as [|[|[|[|[|n]]]]]; simpl;
    first [apply snoc_bounded | done].
Qed.

Lemma buffer_handle_bounded (e : ProducerConsumer.Event)
    (s : ProducerConsumer.State) :
  (length (ProducerConsumer.logs s) ≤ 13)%nat →
  (length (ProducerConsumer.logs (ProducerConsumer.handle e s)) ≤ 13)%nat.
Proof.
  intros H.
  assert (Hp : ∀ now n s,
    (length (ProducerConsumer.logs s) ≤ 13)%nat →
    (length (ProducerConsumer.logs (ProducerConsumer.produceAction now n s))
     ≤ 13)%nat).
  { intros now n s1 _. unfold ProducerConsumer.produceAction.
    destruct (_ <? _)%nat; simpl; apply snoc_bounded. }
  assert (Hc : ∀ now n s,
    (length (ProducerConsumer.logs s) ≤ 13)%nat →
    (length (ProducerConsumer.logs (ProducerConsumer.consumeAction now n s))
     ≤ 13)%nat).
  { intros now n s1 _. unfold ProducerConsumer.consumeAction.
    destruct (ProducerConsumer.localQueue s1); simpl; apply snoc_bounded. }
  destruct e as [| | |now d|i]; simpl; try lia.
  - unfold ProducerConsumer.onTick.
    destruct (ProducerConsumer.interval s); simpl; [|done].
    destruct (ProducerConsumer.pauseRef s); [done|].
    destruct (JS.gt (ProducerConsumer.consume_draw d) (3 # 10));
      destruct (JS.gt (ProducerConsumer.produce_draw d) (4 # 10)); auto.
  - unfold ProducerConsumer.onTimeout.
    destruct (ProducerConsumer.timeouts s !! i) as [[n|n|n|n]|]; done.
Qed.

Lemma starvation_handle_bounded (e : Starvation.Event)
    (s : Starvation.State) :
  (length (Starvation.logs s) ≤ 13)%nat →
  (length (Starvation.logs (Starvation.handle e s)) ≤ 13)%nat.
Proof.
  intros H. destruct e as [| | |sc|r]; simpl; try lia.
  - unfold Starvation.clickScenario. by destruct (Starvation.isRunning s).
  - unfold Starvation.onTick. destruct (Starvation.interval s); [|done].
    destruct (Starvation.pauseRef s); [done|]. simpl.
    destruct (Starvation.assignment s) as [[i t]|]; simpl;
      [apply snoc_bounded|].
    destruct (list_find _ _) as [[j w]|]; [|done].
    destruct (JS.gt r (7 # 10)); [apply snoc_bounded|done].
Qed.

Lemma semaphore_spawn_bounded (view : Semaphore.Render) (now : string)
    (s : Semaphore.State) :
  (length (Semaphore.logs (Semaphore.spawnRequest view now s)) ≤ 13)%nat.
Proof.
  unfold Semaphore.spawnRequest.
  destruct (0 <? _); [|destruct (_ <? _)%nat]; simpl; apply snoc_bounded.
Qed.

Lemma semaphore_release_bounded (now : string) (cap : Semaphore.Render)
    (done : list Semaphore.Request) (s : Semaphore.State) :
  (length (Semaphore.logs s) ≤ 13)%nat →
  (length (Semaphore.logs (Semaphore.release now cap done s)) ≤ 13)%nat.
Proof.
  intros H. unfold Semaphore.release.
  apply (foldl_invariant (λ s, (length (Semaphore.logs s) ≤ 13)%nat));
    [exact H|].
  intros a b _. apply snoc_bounded.
Qed.

Lemma semaphore_promoted_bounded (now : string)
    (promoting : list Semaphore.Request) (tempPermits : Z)
    (s : Semaphore.State) :
  (length (Semaphore.logs s) ≤ 13)%nat →
  (length (Semaphore.logs
             (Semaphore.promoted now promoting tempPermits s)) ≤ 13)%nat.
Proof.
  intros H. unfold Semaphore.promoted.
  set (ok := λ s, (length (Semaphore.logs s) ≤ 13)%nat).
  assert (H2 : ok (foldl (λ s r,
      Semaphore.addLog now
        ("Request #" +:+ pretty (Semaphore.id r) +:+ ": Acquired permit")
        Semaphore.acquired s) s promoting)).
  { apply (foldl_invariant ok); [exact H|].
    intros a b _. apply snoc_bounded. }
  destruct promoting; exact H2.
Qed.

Lemma semaphore_handle_bounded (e : Semaphore.Event) (s : Semaphore.State) :
  (length (Semaphore.logs s) ≤ 13)%nat →
  (length (Semaphore.logs (Semaphore.handle e s)) ≤ 13)%nat.
Proof.
  intros H. destruct e as [| | |delta|now|now d]; simpl; try lia.
  - unfold Semaphore.updateMaxPermits. by destruct (Semaphore.isRunning s).
  - apply semaphore_spawn_bounded.
  - unfold Semaphore.onTick. destruct (Semaphore.interval s); [|done].
    destruct (Semaphore.pauseRef s); [done|]. cbn [negb]. cbv zeta.
    destruct (Semaphore.progressed _ _) as [stillActive done].
    destruct (Semaphore.promote _ _) as [[promoting tempPermits] remaining].
    apply semaphore_release_bounded, semaphore_promoted_bounded.
    destruct (_ && _); [apply semaphore_spawn_bounded|exact H].
Qed.

Lemma async_ioStep_bounded (acc : list AsyncVsThreads.Task * list string * list Z)
    (n : Z) :
  (length acc.1.2 ≤ 11)%nat →
  (length (AsyncVsThreads.ioStep acc n).1.2 ≤ 11)%nat.
Proof.
  destruct acc as [[tasks log] kept]. intros H.
  unfold AsyncVsThreads.ioStep.
  destruct (list_find _ _) as [[j task]|]; [|exact H].
  destruct (AsyncVsThreads.status task); try exact H.
  destruct (AsyncVsThreads.progressed task) as [task' [|]]; [|exact H].
  apply (snoc_bounded 10).
Qed.

Lemma async_eventLoop_bounded (fuel : nat) (now : Z)
    (a : AsyncVsThreads.Async) :
  (length (AsyncVsThreads.a_logs a) ≤ 11)%nat →
  (length (AsyncVsThreads.a_logs (AsyncVsThreads.eventLoop fuel now a))
   ≤ 11)%nat.
Proof.
  revert a. induction fuel as [|fuel IH]; intros a H; [exact H|].
  rewrite eventLoop_S.
  destruct (AsyncVsThreads.a_tasks a !! AsyncVsThreads.a_current a)
    as [current|]; [|exact H].
  destruct (AsyncVsThreads.status current) eqn:Hst;
    cbn [AsyncVsThreads.status AsyncVsThreads.type AsyncVsThreads.started];
    rewrite ?Hst;
    try (apply IH; cbn [AsyncVsThreads.a_logs];
         first [exact H | apply (snoc_bounded 10)]);
    try exact H.
  - destruct (AsyncVsThreads.type current).
    + apply IH. apply (snoc_bounded 10).
    + destruct (AsyncVsThreads.progressed _) as [current' [|]];
        cbn [AsyncVsThreads.a_logs]; apply (snoc_bounded 10).
  - destruct (AsyncVsThreads.type current).
    + apply IH. apply (snoc_bounded 10).
    + destruct (AsyncVsThreads.progressed _) as [current' [|]];
        cbn [AsyncVsThreads.a_logs];
        first [exact H | apply (snoc_bounded 10)].
Qed.

Lemma async_handle_bounded (e : AsyncVsThreads.Event)
    (r : AsyncVsThreads.Run) :
  (length (AsyncVsThreads.logs (AsyncVsThreads.page r)) ≤ 11)%nat →
  (length (AsyncVsThreads.logs
             (AsyncVsThreads.page (AsyncVsThreads.handle e r))) ≤ 11)%nat.
Proof.
  intros H. destruct e; simpl; try lia.
  unfold AsyncVsThreads.onTick.
  destruct (AsyncVsThreads.interval (AsyncVsThreads.page r)); [|exact H].
  cbn [negb]. cbv zeta.
  set (a0 := {| AsyncVsThreads.a_tasks := _ |}).
  assert (Ha : (length (AsyncVsThreads.a_logs
                          (AsyncVsThreads.asyncUpdater
                             (AsyncVsThreads.tick r + 1) a0).1) ≤ 11)%nat).
  { unfold AsyncVsThreads.asyncUpdater.
    destruct (AsyncVsThreads.allDone _); [exact H|].
    pose proof (foldl_invariant
      (λ acc : list AsyncVsThreads.Task * list string * list Z,
         (length acc.1.2 ≤ 11)%nat)
      AsyncVsThreads.ioStep (AsyncVsThreads.a_waiting a0)
      (AsyncVsThreads.a_tasks a0, AsyncVsThreads.a_logs a0, []) H
      (λ acc n Hacc, async_ioStep_bounded acc n Hacc)) as Hio.
    destruct (foldl _ _ _) as [[tasks log] kept].
    apply async_eventLoop_bounded. exact Hio. }
  destruct (AsyncVsThreads.asyncUpdater _ _) as [a asyncDone].
  cbn [fst] in Ha.
  assert (Ht : (length (AsyncVsThreads.threadUpdater
                          (AsyncVsThreads.tick r + 1)
                          (AsyncVsThreads.threadTasks
                             (AsyncVsThreads.page r))
                          (AsyncVsThreads.a_logs a)).1.2 ≤ 11)%nat).
  { unfold AsyncVsThreads.threadUpdater.
    destruct (AsyncVsThreads.allDone _); [exact Ha|].
    destruct (list_find _ _) as [[j activeTask]|]; [|exact Ha].
    destruct (AsyncVsThreads.status activeTask);
      destruct (AsyncVsThreads.progressed _) as [t' [|]]; cbn [fst snd];
      first [exact Ha | apply (snoc_bounded 10)]. }
  destruct (AsyncVsThreads.threadUpdater _ _ _) as [[threads log] threadDone].
  destruct (AsyncVsThreads.parallelUpdater _ _) as [parallel parallelDone].
  exact Ht.
Qed.

Lemma pool_handle_bounded (e : ThreadPool.Event) (s : ThreadPool.State) :
  (length (ThreadPool.logs s) ≤ 16)%nat →
  (length (ThreadPool.logs (ThreadPool.handle e s)) ≤ 16)%nat.
Proof.
  intros H.
  destruct e as [| | |count|now d|now d|now]; simpl; try lia;
    try apply snoc_bounded.
  - unfold ThreadPool.clickWorkerCount. by destruct (ThreadPool.isRunning s).
  - unfold ThreadPool.onTick. destruct (ThreadPool.interval s); [|done].
    destruct (ThreadPool.pauseRef s); [done|]. simpl.
    destruct (ThreadPool.forEachWorker _ _) as [newWorkers acc]. simpl.
    apply (foldl_invariant (λ l : list string, (length l ≤ 16)%nat));
      [exact H|].
    intros a b _. apply snoc_bounded.
Qed.

Lemma readers_handle_bounded (e : ReaderWriter.Event)
    (s : ReaderWriter.State) :
  (length (ReaderWriter.logs s) ≤ 13)%nat →
  (length (ReaderWriter.logs (ReaderWriter.handle e s)) ≤ 13)%nat.
Proof.
  set (ok := λ s, (length (ReaderWriter.logs s) ≤ 13)%nat).
  assert (Hr : ∀ view now ms s, ok (ReaderWriter.addReader view now ms s)).
  { intros view now ms s1. unfold ReaderWriter.addReader.
    destruct (ReaderWriter.r_activeWriter view); apply snoc_bounded. }
  assert (Hw : ∀ view now ms s, ok (ReaderWriter.addWriter view now ms s)).
  { intros view now ms s1. unfold ReaderWriter.addWriter.
    destruct (ReaderWriter.r_activeWriter view),
      (ReaderWriter.r_activeReaders view); apply snoc_bounded. }
  intros H. destruct e as [| | |now ms|now ms|now ms d]; simpl; try lia;
    [apply Hr | apply Hw |].
  unfold ReaderWriter.onTick. destruct (ReaderWriter.interval s); [|done].
  destruct (ReaderWriter.pauseRef s); [done|]. cbn [negb]. cbv zeta.
  generalize (ReaderWriter.captured s). intros cap.
  destruct (ReaderWriter.finishing _ _) as [completed remaining].
  destruct (ReaderWriter.promoting _ _) as [promoted staying].
  set (s1 := ReaderWriter.set_activeReaders (λ _, remaining) s).
  assert (H1 : ok s1) by exact H.
  clearbody s1.
  assert (H2 : ok (ReaderWriter.finishWriter now
                     (ReaderWriter.writer_draw d) cap s1)).
  { unfold ReaderWriter.finishWriter.
    destruct (ReaderWriter.r_activeWriter cap); [|exact H1].
    destruct (JS.gt _ _); [|exact H1]. exact (snoc_bounded 12 _ _). }
  revert H2. generalize (ReaderWriter.finishWriter now
    (ReaderWriter.writer_draw d) cap s1). intros s2 H2.
  generalize (ReaderWriter.asksForWriter cap (ReaderWriter.activeWriter s2)).
  intros asks.
  set (s3 := ReaderWriter.set_waitingReaders (λ _, staying) s2).
  assert (H3 : ok s3) by exact H2.
  clearbody s3.
  assert (H4 : ok (ReaderWriter.arrival now ms d cap s3)).
  { unfold ReaderWriter.arrival.
    destruct (JS.gt _ _); [|exact H3].
    destruct (JS.gt _ _); [apply Hr | apply Hw]. }
  revert H4. generalize (ReaderWriter.arrival now ms d cap s3).
  intros s4 H4.
  assert (H5 : ok (ReaderWriter.finished now completed s4)).
  { unfold ReaderWriter.finished.
    apply (foldl_invariant ok); [exact H4|].
    intros a b Ha. exact (snoc_bounded 12 _ _). }
  revert H5. generalize (ReaderWriter.finished now completed s4).
  intros s5 H5.
  assert (H6 : ok (ReaderWriter.promotedLogs now promoted s5)).
  { unfold ReaderWriter.promotedLogs.
    apply (foldl_invariant ok); [exact H5|].
    intros a b Ha. exact (snoc_bounded 12 _ _). }
  revert H6. generalize (ReaderWriter.promotedLogs now promoted s5).
  intros s6 H6.
  assert (H7 : ok (if asks then ReaderWriter.startWriter now s6 else s6)).
  { destruct asks; [|exact H6]. unfold ReaderWriter.startWriter.
    destruct (ReaderWriter.activeReaders s6); [|exact H6].
    destruct (ReaderWriter.waitingWriters s6); [exact H6|].
    exact (snoc_bounded 12 _ _). }
  revert H7.
  generalize (if asks then ReaderWriter.startWriter now s6 else s6).
  intros s7 H7. unfold ReaderWriter.promotedReaders.
  apply (foldl_invariant ok); [exact H7|]. intros a b Ha. exact Ha.
Qed.

(** C5, amended.  Where a page has an [addLog], the log keeps the last
    [N] entries it had and the new one behind them, [N] being the literal
    of the page's [slice]: so it holds the [N + 1] most recent entries at
    most, which is 9 on the deadlock page, 11 on the async page, 13 on the
    memory-ordering, producer-consumer, reader-writer, semaphore and
    starvation pages and 16 on the thread-pool page; and whatever
    sequence of clicks, timer firings and timeouts a page goes through from
    its first render, its log stays within that bound.  The logs of the
    race-condition page and of the lock demo are appended to without
    truncation; a run makes them 9, 3 and 13 entries long at most. *)
Theorem logs_keep_last_entries :
  (∀ now m s,
     Deadlock.logs (Deadlock.addLog now m s) =
       JS.slice_last 9 (Deadlock.logs s ++ ["[" +:+ now +:+ "] " +:+ m]) ∧
     (length (Deadlock.logs (Deadlock.addLog now m s)) ≤ 9)%nat) ∧
  (∀ m prev,
     AsyncVsThreads.addLog m prev = JS.slice_last 11 (prev ++ [m]) ∧
     (length (AsyncVsThreads.addLog m prev) ≤ 11)%nat) ∧
  (∀ m ty s,
     ∃ entry,
       MemoryOrdering.logs (MemoryOrdering.addLog m ty s) =
         JS.slice_last 13 (MemoryOrdering.logs s ++ [entry]) ∧
       (length (MemoryOrdering.logs (MemoryOrdering.addLog m ty s))
        ≤ 13)%nat) ∧
  (∀ now m ty prev,
     ProducerConsumer.addLog now m ty prev =
       JS.slice_last 13 (prev ++ [ProducerConsumer.line now m ty]) ∧
     (length (ProducerConsumer.addLog now m ty prev) ≤ 13)%nat) ∧
  (∀ now m ty s,
     ReaderWriter.logs (ReaderWriter.addLog now m ty s) =
       JS.slice_last 13
         (ReaderWriter.logs s ++ [ReaderWriter.line now m ty]) ∧
     (length (ReaderWriter.logs (ReaderWriter.addLog now m ty s))
      ≤ 13)%nat) ∧
  (∀ now m ty s,
     Semaphore.logs (Semaphore.addLog now m ty s) =
       JS.slice_last 13 (Semaphore.logs s ++ [Semaphore.line now m ty]) ∧
     (length (Semaphore.logs (Semaphore.addLog now m ty s)) ≤ 13)%nat) ∧
  (∀ cap m prev,
     Starvation.addLog cap m prev =
       JS.slice_last 13 (prev ++ ["[" +:+ pretty cap +:+ "] " +:+ m]) ∧
     (length (Starvation.addLog cap m prev) ≤ 13)%nat) ∧
  (∀ now m prev,
     ThreadPool.addLog now m prev =
       JS.slice_last 16 (prev ++ ["[" +:+ now +:+ "] " +:+ m]) ∧
     (length (ThreadPool.addLog now m prev) ≤ 16)%nat) ∧
  (∀ events,
     (length (Deadlock.logs
        (foldl (λ s e, Deadlock.handle e s) Deadlock.initial events))
      ≤ 9)%nat) ∧
  (∀ events,
     (length (AsyncVsThreads.logs (AsyncVsThreads.page
        (foldl (λ r e, AsyncVsThreads.handle e r) AsyncVsThreads.unstarted
           events))) ≤ 11)%nat) ∧
  (∀ events,
     (length (MemoryOrdering.logs
        (foldl (λ s e, MemoryOrdering.handle e s) MemoryOrdering.initial
           events)) ≤ 13)%nat) ∧
  (∀ events,
     (length (ProducerConsumer.logs
        (foldl (λ s e, ProducerConsumer.handle e s) ProducerConsumer.initial
           events)) ≤ 13)%nat) ∧
  (∀ events,
     (length (ReaderWriter.logs
        (foldl (λ s e, ReaderWriter.handle e s) ReaderWriter.initial events))
      ≤ 13)%nat) ∧
  (∀ events,
     (length (Semaphore.logs
        (foldl (λ s e, Semaphore.handle e s) Semaphore.initial events))
      ≤ 13)%nat) ∧
  (∀ events,
     (length (Starvation.logs
        (foldl (λ s e, Starvation.handle e s) Starvation.initial events))
      ≤ 13)%nat) ∧
  (∀ events,
     (length (ThreadPool.logs
        (foldl (λ s e, ThreadPool.handle e s) ThreadPool.mounted events))
      ≤ 16)%nat) ∧
  (∀ cu ca n u a,
     (length (RaceCondition.Unsafe.unsafeLog
        (RaceCondition.Unsafe.ticks cu 0 n
           (RaceCondition.Unsafe.runUnsafeDemo u))) ≤ 9)%nat ∧
     (length (RaceCondition.Atomic.atomicLog
        (RaceCondition.Atomic.ticks ca 0 n
           (RaceCondition.Atomic.runAtomicDemo a))) ≤ 3)%nat) ∧
  (∀ n s,
     (length (LocksCAS.Lock.executionLog (LocksCAS.Lock.lockDemo
        (Nat.iter n LocksCAS.Lock.onTick (LocksCAS.Lock.startLockDemo s))))
      ≤ 13)%nat).
Proof.
  repeat apply conj; intros;
    unfold Deadlock.addLog, AsyncVsThreads.addLog, MemoryOrdering.addLog,
      ProducerConsumer.addLog, ReaderWriter.addLog, Semaphore.addLog,
      Starvation.addLog, ThreadPool.addLog; simpl;
    try (split; [apply slice_last_snoc
                |rewrite slice_last_snoc; apply slice_last_length]).
  - eexists. split; [apply slice_last_snoc|].
    rewrite slice_last_snoc. apply slice_last_length.
  - apply (foldl_invariant (λ s, (length (Deadlock.logs s) ≤ 9)%nat));
      [simpl; lia|]. intros; by apply deadlock_handle_bounded.
  - apply (foldl_invariant
             (λ r, (length (AsyncVsThreads.logs (AsyncVsThreads.page r))
                    ≤ 11)%nat));
      [simpl; lia|]. intros; by apply async_handle_bounded.
  - apply (foldl_invariant
             (λ s, (length (MemoryOrdering.logs s) ≤ 13)%nat));
      [simpl; lia|]. intros; by apply memory_handle_bounded.
  - apply (foldl_invariant
             (λ s, (length (ProducerConsumer.logs s) ≤ 13)%nat));
      [simpl; lia|]. intros; by apply buffer_handle_bounded.
  - apply (foldl_invariant (λ s, (length (ReaderWriter.logs s) ≤ 13)%nat));
      [simpl; lia|]. intros; by apply readers_handle_bounded.
  - apply (foldl_invariant (λ s, (length (Semaphore.logs s) ≤ 13)%nat));
      [simpl; lia|]. intros; by apply semaphore_handle_bounded.
  - apply (foldl_invariant (λ s, (length (Starvation.logs s) ≤ 13)%nat));
      [simpl; lia|]. intros; by apply starvation_handle_bounded.
  - apply (foldl_invariant (λ s, (length (ThreadPool.logs s) ≤ 16)%nat));
      [simpl; lia|]. intros; by apply pool_handle_bounded.
  - apply race_logs_bounded.
  - apply lock_log_bounded.
Qed.

End Logs.

(** ** The lock demo *)

Section LockRun.
Import LocksCAS.Lock.

Lemma lock_phase_of_step (k : nat) :
  phases !! ((3 * k) mod 3)%nat = Some holding ∧
  phases !! (S (3 * k) mod 3)%nat = Some releasing ∧
  phases !! (S (S (3 * k)) mod 3)%nat = Some acquiring.
Proof.
  replace (3 * k)%nat with (0 + k * 3)%nat by lia.
  replace (S (0 + k * 3))%nat with (1 + k * 3)%nat by lia.
  replace (S (1 + k * 3))%nat with (2 + k * 3)%nat by lia.
  rewrite !Nat.Div0.mod_add. done.
Qed.

(** A firing of a live timer before the fourth completion plays the phase
    its step counter selects. *)
Lemma lock_tick_live (d : LockDemo) (st : nat) :
  (length (completedThreads d) < 4)%nat →
  onTick {| lockDemo := d; lockInterval := true; step := st |} =
  match phases !! (st mod 3)%nat with
  | Some holding =>
      {| lockDemo :=
           {| active := active d; waiting := waiting d;
              currentHolder := currentHolder d;
              completedThreads := completedThreads d; phase := holding;
              executionLog := executionLog d ++
                ["Thread " +:+ LocksCAS.show (currentHolder d) +:+
                 " is doing critical work..."] |};
         lockInterval := true; step := S st |}
  | Some releasing =>
      {| lockDemo :=
           {| active := active d; waiting := waiting d;
              currentHolder := currentHolder d;
              completedThreads :=
                match currentHolder d with
                | Some c =>
                    if JS.truthy (currentHolder d)
                    then completedThreads d ++ [c]
                    else completedThreads d
                | None => completedThreads d
                end;
              phase := releasing;
              executionLog := executionLog d ++
                ["Thread " +:+ LocksCAS.show (currentHolder d) +:+
                 " released the lock"] |};
         lockInterval := true; step := S st |}
  | _ =>
      match waiting d with
      | nextThread :: rest =>
          if JS.truthy (Some nextThread) then
            {| lockDemo :=
                 {| active := active d; waiting := rest;
                    currentHolder := Some nextThread;
                    completedThreads := completedThreads d;
                    phase := acquiring;
                    executionLog := executionLog d ++
                      ["Thread " +:+ pretty nextThread +:+
                       " acquired the lock"] |};
               lockInterval := true; step := S st |}
          else
            {| lockDemo :=
                 {| active := false; waiting := waiting d;
                    currentHolder := None;
                    completedThreads := completedThreads d; phase := idle;
                    executionLog := executionLog d |};
               lockInterval := false; step := S st |}
      | [] =>
          {| lockDemo :=
               {| active := false; waiting := waiting d;
                  currentHolder := None;
                  completedThreads := completedThreads d; phase := idle;
                  executionLog := executionLog d |};
             lockInterval := false; step := S st |}
      end
  end.
Proof.
  intros H. apply Nat.leb_gt in H. unfold onTick.
  cbn -[Nat.modulo Nat.leb]. rewrite H. reflexivity.
Qed.

(** X1. While the timer of the lock demo is scheduled, a thread holds the
    lock, another waits and fewer than three threads have completed, the
    three firings that start at a step counter divisible by 3 (work,
    release, acquire) hand the lock to the head of the waiting queue: the
    holder is appended to the completed threads, the head of the queue
    becomes the holder and leaves the queue, the three lines are logged in
    that order and the timer stays scheduled. *)
Theorem lock_is_handed_over_in_queue_order
    (s : State) (h next : Z) (rest : list Z) :
  lockInterval s = true →
  (step s mod 3 = 0)%nat →
  (length (completedThreads (lockDemo s)) < 3)%nat →
  currentHolder (lockDemo s) = Some h → h ≠ 0 →
  waiting (lockDemo s) = next :: rest → next ≠ 0 →
  Nat.iter 3 onTick s =
  {| lockDemo :=
       {| active := active (lockDemo s); waiting := rest;
          currentHolder := Some next;
          completedThreads := completedThreads (lockDemo s) ++ [h];
          phase := acquiring;
          executionLog :=
            executionLog (lockDemo s) ++
            [ "Thread " +:+ pretty h +:+ " is doing critical work...";
              "Thread " +:+ pretty h +:+ " released the lock";
              "Thread " +:+ pretty next +:+ " acquired the lock" ] |};
     lockInterval := true; step := (step s + 3)%nat |}.
Proof.
  intros Hint Hstep Hlen Hh Hh0 Hw Hn0.
  apply Nat.Div0.mod_divides in Hstep as [k Hk].
  destruct s as [d live st]. cbn [lockInterval lockDemo step] in *.
  subst live st.
  destruct d as [a w c done ph log].
  cbn [completedThreads currentHolder waiting active executionLog] in *.
  subst w c.
  destruct (lock_phase_of_step k) as (P0 & P1 & P2).
  assert (Hh' : (h =? 0) = false) by (by apply Z.eqb_neq).
  assert (Hn' : (next =? 0) = false) by (by apply Z.eqb_neq).
  change (Nat.iter 3 onTick ?x) with (onTick (onTick (onTick x))).
  rewrite lock_tick_live by (cbn [completedThreads]; lia).
  rewrite P0. cbn [active waiting currentHolder completedThreads executionLog].
  rewrite lock_tick_live by (cbn [completedThreads]; lia).
  rewrite P1. cbn [active waiting currentHolder completedThreads executionLog
                   JS.truthy negb]. rewrite Hh'. cbn [negb].
  rewrite lock_tick_live
    by (cbn [completedThreads]; rewrite length_app; simpl; lia).
  rewrite P2. cbn [active waiting currentHolder completedThreads executionLog
                   JS.truthy negb LocksCAS.show]. rewrite Hn'. cbn [negb].
  rewrite <- !app_assoc. f_equal. lia.
Qed.

Lemma lock_is_handed_over_in_queue_order_witness :
  Nat.iter 3 onTick lock_held_by_7 =
  {| lockDemo :=
       {| active := true; waiting := [9]; currentHolder := Some 8;
          completedThreads := [5; 7]; phase := acquiring;
          executionLog :=
            [ "Thread 7 acquired the lock";
              "Thread 7 is doing critical work...";
              "Thread 7 released the lock";
              "Thread 8 acquired the lock" ] |};
     lockInterval := true; step := 6 |}.
Proof.
  rewrite (lock_is_handed_over_in_queue_order lock_held_by_7 7 8 [9]);
    [vm_compute; reflexivity | reflexivity | reflexivity |
     simpl; lia | reflexivity | lia | reflexivity | lia].
Defined.

Lemma lock_iter_app (n m : nat) (s : State) :
  Nat.iter (n + m) onTick s = Nat.iter m onTick (Nat.iter n onTick s).
Proof.
  rewrite Nat.add_comm. apply Nat.iter_add.
Qed.

Variable s0 : State.

(** X2. A run of the lock demo, started from any state: at each of the
    first twelve firings the timer is scheduled and the completed threads,
    the holder not yet among them and the waiting queue make up 1, 2, 3, 4
    in that order; the lock is held by threads 1, 2, 3 and 4 for three
    firings each; the twelfth firing finds four completed threads, logs
    the closing line, clears holder and timer, and nothing changes after
    it.  The exit taken on an empty queue is never reached. *)
Theorem lock_demo_serves_every_thread_once :
  let run n := Nat.iter n onTick (startLockDemo s0) in
  Forall (λ n, lockInterval (run n) = true ∧
               active (lockDemo (run n)) = true ∧
               lock_order (lockDemo (run n)) = [1; 2; 3; 4])
    (seq 0 12) ∧
  currentHolder <$> (lockDemo <$> (run <$> seq 0 12)) =
    [Some 1; Some 1; Some 1; Some 2; Some 2; Some 2; Some 3; Some 3; Some 3; Some 4; Some 4; Some 4] ∧
  completedThreads (lockDemo (run 12%nat)) = [1; 2; 3; 4] ∧
  waiting (lockDemo (run 12%nat)) = [] ∧
  currentHolder (lockDemo (run 12%nat)) = None ∧
  active (lockDemo (run 12%nat)) = false ∧
  phase (lockDemo (run 12%nat)) = idle ∧
  last (executionLog (lockDemo (run 12%nat))) =
    Some "‚úÖ All threads completed successfully!" ∧
  lockInterval (run 12%nat) = false ∧
  ∀ m, run (12 + m)%nat = run 12%nat.
Proof.
  intros run. repeat apply conj;
    lazymatch goal with
    | |- Forall _ _ => by_evaluation_each
    | |- ∀ m, _ =>
        intros m; unfold run; rewrite lock_iter_app;
        apply lock_ticks_stopped; by_evaluation
    | |- _ => by_evaluation
    end.
Qed.

End LockRun.

(** ** Who holds what on the deadlock page *)

Section DeadlockScenes.
Import Deadlock.

Lemma on_script_onTick (now : string) (s : State) :
  on_script s → on_script (onTick now s).
Proof.
  intros (k & Hk & Hs & Hc). unfold onTick.
  destruct (interval s) eqn:Hint;
    [|exists k; rewrite Hint; repeat split; done].
  specialize (Hc eq_refl). rewrite Hc.
  unfold scene in Hs. injection Hs as Ht Hl Hd.
  destruct (steps !! k) as [f|] eqn:Hf.
  - exists (S k).
    do 7 (destruct k as [|k];
            [cbn in Hf; injection Hf as <-; split; [lia|]; split;
               [unfold scene; simpl; rewrite Ht, Hl, ?Hd;
                vm_compute; reflexivity
               |done]|]).
    cbn in Hf. done.
  - exists k. split; [done|]. split; [|done].
    unfold scene. simpl. by rewrite Ht, Hl, Hd.
Qed.

Lemma deadlock_after_on_script (events : list Event) :
  on_script (deadlock_after events).
Proof.
  unfold deadlock_after. apply (foldl_invariant on_script).
  - exists 0%nat. repeat split; first [lia | done].
  - intros s e (k & Hk & Hs & Hc). destruct e; simpl.
    + exists 0%nat. repeat split; first [lia | done].
    + exists 0%nat. repeat split; first [lia | done].
    + exists k. repeat split; first [lia | done].
    + apply on_script_onTick. by exists k.
Qed.

(** An element of a list of two with two given properties. *)
Ltac pick_element :=
  first [ solve [eexists; split;
                   [apply list_elem_of_here | split; reflexivity]]
        | solve [eexists; split;
                   [apply list_elem_of_further, list_elem_of_here
                   |split; reflexivity]] ].

Ltac each_element H :=
  repeat (apply elem_of_cons in H as [->|H]);
  [..|by apply elem_of_nil in H].

Lemma scene_holders_agree (k : nat) (s : State) :
  (k ≤ 7)%nat → scene s = scene_at k →
  holders_agree s ∧ (isDeadlocked s = true → circular_wait s).
Proof.
  intros Hk Hs. unfold scene in Hs.
  do 8 (destruct k as [|k]; [
    match type of Hs with
    | _ = ?r => let v := eval vm_compute in r in change r with v in Hs
    end;
    injection Hs as Ht Hl Hd;
    unfold holders_agree, circular_wait; rewrite Ht, Hl, Hd;
    repeat apply conj;
    [ intros t l Hin Hh; each_element Hin; simpl in Hh;
      first [discriminate | injection Hh as <-; pick_element]
    | intros t n Hin Hh; each_element Hin; simpl in Hh;
      first [discriminate | injection Hh as <-; pick_element]
    | first [ discriminate
            | intros _; eexists _, _, "lock1"%string, "lock2"%string;
              split; [apply list_elem_of_here|];
              split; [apply list_elem_of_further, list_elem_of_here|];
              repeat split; done ] ]|]).
  lia.
Qed.

(** X3. Whatever sequence of clicks and firings the deadlock page goes
    through, its threads and locks agree on who holds what (a thread
    holds a lock exactly if that lock names it as holder), and whenever
    the deadlock flag is set two threads each hold the lock the other
    wants and both are marked deadlocked. *)
Theorem deadlock_page_shows_a_circular_wait (events : list Event) :
  holders_agree (deadlock_after events) ∧
  (isDeadlocked (deadlock_after events) = true →
   circular_wait (deadlock_after events)).
Proof.
  destruct (deadlock_after_on_script events) as (k & Hk & Hs & _).
  by apply (scene_holders_agree k).
Qed.

Lemma deadlock_page_shows_a_circular_wait_witness :
  circular_wait (deadlock_after deadlock_detected).
Proof.
  apply (deadlock_page_shows_a_circular_wait deadlock_detected).
  reflexivity.
Defined.

End DeadlockScenes.

(** ** Publication order on the memory-ordering page *)

Section MemoryRuns.
Import MemoryOrdering.

Lemma memory_ok_onTick (s : State) : memory_ok s → memory_ok (onTick s).
Proof.
  intros H. pose proof H as [Hp Hf Hd]. unfold onTick.
  destruct (interval s) eqn:Hint; [|done]. cbn [negb].
  destruct (playing s) eqn:Hplay.
  - (* broken *)
    assert (Hsc : scenario s = broken) by congruence.
    destruct (currentStep s) as [|[|[|[|[|k]]]]] eqn:Hk;
      split; simpl; intros; congruence.
  - assert (Hsc : scenario s = fixed) by congruence.
    specialize (Hf Hsc). specialize (Hd Hsc eq_refl). unfold published in *.
    destruct (currentStep s) as [|[|[|[|[|k]]]]] eqn:Hk;
      split; unfold published; simpl; intros; try congruence; try lia;
      try (apply Hd; lia); auto.
Qed.

Lemma memory_after_ok (events : list Event) : memory_ok (memory_after events).
Proof.
  unfold memory_after. apply (foldl_invariant memory_ok).
  - split; unfold published; simpl; try done; try (intros; lia).
  - intros s e H. destruct e; simpl.
    + split; unfold published; simpl; try done; try (intros; lia).
    + split; unfold published; simpl; try done; try (intros; lia).
    + destruct H as [Hp Hf Hd]. split; unfold published; simpl; done.
    + by apply memory_ok_onTick.
Qed.

(** X4. Whatever sequence of clicks and firings the memory-ordering page
    goes through, while it shows the fixed scenario main memory never has
    the ready flag set without holding the data 42. *)
Theorem fixed_scenario_publishes_data_before_flag (events : list Event) :
  scenario (memory_after events) = fixed →
  ready (mainMemory (memory_after events)) = true →
  data (mainMemory (memory_after events)) = 42.
Proof. apply memory_after_ok. Qed.

Lemma fixed_scenario_publishes_data_before_flag_witness :
  data (mainMemory (memory_after [RunFixed; Tick; Tick; Tick])) = 42.
Proof.
  apply (fixed_scenario_publishes_data_before_flag
           [RunFixed; Tick; Tick; Tick]); reflexivity.
Defined.

Lemma memory_iter_app (n m : nat) (s : State) :
  Nat.iter (n + m) onTick s = Nat.iter m onTick (Nat.iter n onTick s).
Proof. rewrite Nat.add_comm. apply Nat.iter_add. Qed.

Lemma memory_iter_stopped (n : nat) (s : State) :
  interval s = false → Nat.iter n onTick s = s.
Proof.
  intros H. induction n as [|n IH]; [done|]. simpl. rewrite IH.
  unfold onTick. by rewrite H.
Qed.

Variable s0 : State.

(** X5. The two scripted runs of the memory-ordering page, started from any
    state.  In the broken run main memory shows ready = true with data = 0
    after the second, third and fourth firing, the fourth sets the result
    to failure and leaves the stale value 0 in the cache of core 2; the
    fifth brings the data.  In the fixed run the data reaches main memory
    one firing before the flag and the fifth firing sets the result to
    success with 42 in the cache of core 2.  Both runs clear the running
    flag on the fifth firing and the timer on the sixth, after which
    nothing changes. *)
Theorem memory_ordering_runs :
  let broken_run n := Nat.iter n onTick (runBrokenScenario s0) in
  let fixed_run n := Nat.iter n onTick (runFixedScenario s0) in
  mainMemory <$> (broken_run <$> seq 0 7) =
    [ {| data := 0; ready := false |}; {| data := 0; ready := false |};
      {| data := 0; ready := true |}; {| data := 0; ready := true |};
      {| data := 0; ready := true |}; {| data := 42; ready := true |};
      {| data := 42; ready := true |} ] ∧
  result <$> (broken_run <$> seq 0 7) =
    [None; None; None; None; Some failure; Some failure; Some failure] ∧
  value (core2Cache (broken_run 6%nat)) = 0 ∧
  mainMemory <$> (fixed_run <$> seq 0 7) =
    [ {| data := 0; ready := false |}; {| data := 0; ready := false |};
      {| data := 42; ready := false |}; {| data := 42; ready := true |};
      {| data := 42; ready := true |}; {| data := 42; ready := true |};
      {| data := 42; ready := true |} ] ∧
  result <$> (fixed_run <$> seq 0 7) =
    [None; None; None; None; None; Some success; Some success] ∧
  value (core2Cache (fixed_run 6%nat)) = 42 ∧
  isRunning <$> (broken_run <$> seq 0 7) =
    [true; true; true; true; true; false; false] ∧
  isRunning <$> (fixed_run <$> seq 0 7) =
    [true; true; true; true; true; false; false] ∧
  interval <$> (broken_run <$> seq 0 7) =
    [true; true; true; true; true; true; false] ∧
  interval <$> (fixed_run <$> seq 0 7) =
    [true; true; true; true; true; true; false] ∧
  (∀ m, broken_run (6 + m)%nat = broken_run 6%nat) ∧
  (∀ m, fixed_run (6 + m)%nat = fixed_run 6%nat).
Proof.
  intros broken_run fixed_run. repeat apply conj;
    lazymatch goal with
    | |- ∀ m, _ =>
        intros m; unfold broken_run, fixed_run; rewrite memory_iter_app;
        apply memory_iter_stopped; by_evaluation
    | |- _ => by_evaluation
    end.
Qed.



End MemoryRuns.

(** ** Sorting rearranges *)

Section SortPermutation.
Context {A : Type} (cmp : A → A → Z).

Lemma insert_perm (a : A) (l : list A) : JS.insert cmp a l ≡ₚ a :: l.
Proof.
  induction l as [|b l IH]; simpl; [done|].
  destruct (cmp a b <=? 0); [done|].
  rewrite IH. apply Permutation_swap.
Qed.

Lemma sort_perm (l : list A) : JS.sort cmp l ≡ₚ l.
Proof.
  induction l as [|a l IH]; [done|].
  change (JS.sort cmp (a :: l)) with (JS.insert cmp a (JS.sort cmp l)).
  by rewrite insert_perm, IH.
Qed.

Lemma sort_head_elem (l : list A) (a : A) :
  head (JS.sort cmp l) = Some a → a ∈ l.
Proof.
  intros H. rewrite <- sort_perm.
  destruct (JS.sort cmp l); [done|]. injection H as ->. by left.
Qed.

Lemma sort_head_some (l : list A) (b : A) :
  b ∈ l → ∃ a, head (JS.sort cmp l) = Some a.
Proof.
  intros H. rewrite <- sort_perm in H.
  destruct (JS.sort cmp l) as [|a t]; [by apply elem_of_nil in H|].
  by exists a.
Qed.

End SortPermutation.

(** ** The starvation page as the user drives it *)

Section StarvationRuns.
Import Starvation.

Lemma stamped_addLog (m : string) (prev : list string) :
  Forall (λ l, ∃ m, l = "[0] " +:+ m) prev →
  Forall (λ l, ∃ m, l = "[0] " +:+ m) (addLog 0 m prev).
Proof.
  intros H. unfold addLog, JS.slice_last. apply Forall_app. split.
  - by apply Forall_drop.
  - apply Forall_cons_2; [|apply Forall_nil_2]. by exists m.
Qed.

Lemma starvation_onTick_ok (r : Q) (s : State) :
  starvation_ok s → starvation_ok (onTick r s).
Proof.
  intros H. pose proof H as [Ht Hi Hr Hl]. unfold onTick.
  destruct (interval s) eqn:Hint; [|done]. simpl.
  destruct (pauseRef s); [done|]. clear H.
  symmetry in Ht. destruct (Hr Ht) as [Hc Hk]. rewrite Hk.
  assert (Hl1 : Forall (λ l, ∃ m, l = "[0] " +:+ m)
    match list_find (λ t, status t = running) (age <$> threads s) with
    | Some (_, t) =>
        if match list_find (λ t, status t = running) (age <$> threads s) with
           | Some _ => JS.gt r (7 # 10)
           | None => false
           end
        then addLog 0 (name t +:+ ": Released lock") (logs s)
        else logs s
    | None => logs s
    end).
  { destruct (list_find _ _) as [[j t]|]; [|done].
    destruct (JS.gt r (7 # 10)); [|done]. by apply stamped_addLog. }
  destruct (assignment s) as [[i t]|]; split; simpl; try done;
    try (intros E; congruence).
  by apply stamped_addLog.
Qed.

Lemma starvation_perform_ok (e : Event) (s : State) :
  starvation_ok s → starvation_ok (perform e s).
Proof.
  intros H. unfold perform.
  destruct (offered e s) eqn:He; [|done].
  destruct e as [| | |sc|r]; simpl in *.
  - apply negb_true_iff in He. destruct H as [Ht Hi Hr Hl].
    destruct (Hi He) as [Hh Hk]. split; simpl; done.
  - destruct H. split; simpl; done.
  - destruct H. split; simpl; auto.
  - apply negb_true_iff in He. unfold clickScenario. rewrite He.
    destruct H. split; simpl; auto; [congruence | done].
  - by apply starvation_onTick_ok.
Qed.

Lemma starvation_play_ok (events : list Event) : starvation_ok (play events).
Proof.
  unfold play. apply (foldl_invariant starvation_ok).
  - split; simpl; done.
  - intros s e. apply starvation_perform_ok.
Qed.

(** X6. Whatever the user does on the starvation page, every line of its
    log carries the tick 0 between its brackets: [addLog] reads the tick
    of the render in which the run was started, and a run can only be
    started when the tick is zero. *)
Theorem starvation_log_is_stamped_zero (events : list Event) :
  Forall (λ l, ∃ m, l = "[0] " +:+ m) (logs (play events)).
Proof. apply starvation_play_ok. Qed.

(** X7. On the starvation page the lock is not exclusive.  In every run
    started through the page, a firing that finds one thread running, does
    not release it, and finds another thread that is not running, leaves
    both that thread and a second one running: the callback tests the lock
    holder of the render the run was started in, which is always empty. *)
Theorem starvation_lock_is_not_exclusive
    (events : list Event) (r : Q) (j i : nat) (u v : Thread) :
  interval (play events) = true →
  pauseRef (play events) = false →
  threads (play events) !! j = Some u → status u = running →
  threads (play events) !! i = Some v → status v ≠ running →
  JS.gt r (7 # 10) = false →
  ∃ k, k ≠ j ∧
    status <$> threads (onTick r (play events)) !! k = Some running ∧
    status <$> threads (onTick r (play events)) !! j = Some running.
Proof.
  intros Hint Hp Hj Hu Hi Hv Hr.
  destruct (starvation_play_ok events) as [Ht _ Hcap _].
  set (s := play events) in *.
  rewrite Hint in Ht. destruct (Hcap (eq_sym Ht)) as [Hc _].
  set (aged := age <$> threads s).
  assert (Hsel : ∃ k t, assignment s = Some (k, t) ∧
                        aged !! k = Some t ∧ status t ≠ running).
  { unfold assignment. rewrite Hc. simpl.
    assert (Hin : (i, age v) ∈ waitingOf aged).
    { apply waitingOf_spec. split.
      - unfold aged. by rewrite list_lookup_fmap, Hi.
      - intros E. apply Hv. by apply age_running. }
    unfold select.
    destruct (cap_scenario s).
    - destruct (sort_head_some byPriority _ _ Hin) as [[k t] Hk].
      exists k, t. split; [done|].
      apply sort_head_elem in Hk. by apply waitingOf_spec in Hk.
    - destruct (sort_head_some byPriorityAndWait _ _ Hin) as [[k t] Hk].
      exists k, t. split; [done|].
      apply sort_head_elem in Hk. by apply waitingOf_spec in Hk. }
  destruct Hsel as (k & t & Hsel & Hk & Hst).
  assert (Haj : aged !! j = Some (age u)).
  { unfold aged. by rewrite list_lookup_fmap, Hj. }
  assert (Hkj : k ≠ j).
  { intros ->. rewrite Haj in Hk. injection Hk as <-.
    apply Hst. by apply age_running. }
  exists k. split; [done|].
  unfold onTick. rewrite Hint, Hp, Hsel. simpl.
  fold aged. rewrite Hr.
  assert (Hts : match list_find (λ t0, status t0 = running) aged with
                | Some (i0, _) =>
                    if match list_find (λ t0, status t0 = running) aged with
                       | Some _ => false
                       | None => false
                       end
                    then alter released i0 aged else aged
                | None => aged
                end = aged).
  { by destruct (list_find _ _) as [[? ?]|]. }
  rewrite Hts. split.
  - by rewrite list_lookup_alter_eq, Hk.
  - rewrite list_lookup_alter_ne by done. rewrite Haj. simpl.
    f_equal. by apply age_running.
Qed.

Lemma starvation_lock_is_not_exclusive_witness :
  ∃ k, k ≠ 0%nat ∧
    status <$> threads (onTick 0%Q (play one_firing)) !! k = Some running ∧
    status <$> threads (onTick 0%Q (play one_firing)) !! 0%nat =
      Some running.
Proof.
  eapply (starvation_lock_is_not_exclusive one_firing 0%Q 0%nat 1%nat);
    [reflexivity | reflexivity | vm_compute; reflexivity | reflexivity |
     vm_compute; reflexivity | discriminate | reflexivity].
Defined.

End StarvationRuns.

(** ** Permits of the semaphore page *)

Section SemaphoreRuns.
Import Semaphore.

Lemma promote_take_drop (tempPermits : Z) (prev : list Request) :
  let k := (Z.to_nat tempPermits `min` length prev)%nat in
  promote tempPermits prev =
  (with_status processing <$> take k prev, tempPermits - Z.of_nat k,
   drop k prev).
Proof.
  revert tempPermits. induction prev as [|r rest IH]; intros t; simpl.
  - rewrite Nat.min_0_r. simpl. repeat (f_equal; try lia).
  - destruct (Z.ltb_spec 0 t) as [Hpos|Hneg].
    + rewrite IH.
      replace (Z.to_nat t) with (S (Z.to_nat (t - 1))) by lia.
      simpl. repeat (f_equal; try lia).
    + rewrite IH. replace (Z.to_nat t) with 0%nat by lia. simpl.
      repeat (f_equal; try lia).
Qed.

Lemma frame_addLog (now m : string) (ty : LogType) (s : State) :
  semaphore_frame (addLog now m ty s) = semaphore_frame s.
Proof. reflexivity. Qed.

Lemma frame_foldl {B : Type} (f : State → B → State) (l : list B)
    (s : State) :
  (∀ s b, semaphore_frame (f s b) = semaphore_frame s) →
  semaphore_frame (foldl f s l) = semaphore_frame s.
Proof.
  intros Hf. revert s. induction l as [|b l IH]; intros s; [done|].
  simpl. by rewrite IH, Hf.
Qed.

Lemma frame_release (now : string) (cap : Render) (done : list Request)
    (s : State) :
  semaphore_frame (release now cap done s) = semaphore_frame s.
Proof. unfold release. by rewrite frame_foldl. Qed.

Lemma frame_promoted (now : string) (promoting : list Request) (t : Z)
    (s : State) :
  semaphore_frame (promoted now promoting t s) = semaphore_frame s.
Proof.
  unfold promoted. cbv zeta. set (logged := foldl _ _ _).
  assert (E : semaphore_frame logged = semaphore_frame s)
    by (unfold logged; by rewrite frame_foldl).
  by destruct promoting.
Qed.

Lemma frame_progressActive (now : string) (d : nat → Q) (cap : Render)
    (s : State) :
  semaphore_frame (progressActive now d cap s) = semaphore_frame s.
Proof.
  unfold progressActive. destruct (progressed d (activeRequests s)) as [a c].
  by rewrite frame_release.
Qed.

Lemma frame_promoteWaiting (now : string) (cap : Render) (s : State) :
  semaphore_frame (promoteWaiting now cap s) = semaphore_frame s.
Proof.
  unfold promoteWaiting. destruct (waitingRequests s) as [|w ws]; [done|].
  destruct (promote _ _) as [[p t] r]. by rewrite frame_promoted.
Qed.

Lemma frame_spawnRequest (view : Render) (now : string) (s : State) :
  semaphore_frame (spawnRequest view now s) = semaphore_frame s.
Proof.
  unfold spawnRequest. destruct (0 <? r_availablePermits view); [done|].
  by destruct (length (r_waitingRequests view) <? 10)%nat.
Qed.

Lemma frame_onTick (now : string) (d : Draws) (s : State) :
  semaphore_frame (onTick now d s) = semaphore_frame s.
Proof.
  unfold onTick. destruct (interval s); [|done]. cbn [negb].
  destruct (pauseRef s); [done|]. cbv zeta.
  destruct (progressed _ _) as [stillActive done].
  destruct (promote _ _) as [[promoting tempPermits] remaining].
  rewrite frame_release, frame_promoted.
  destruct (_ && _); [by rewrite frame_spawnRequest|done].
Qed.

Lemma semaphore_ok_frame (s s' : State) :
  semaphore_frame s' = semaphore_frame s →
  isRunning s = true → semaphore_ok s → semaphore_ok s'.
Proof.
  unfold semaphore_frame. intros [= E1 E2 E3 E4] Hrun [Ht Hm Hi Hr].
  split.
  - congruence.
  - by rewrite E2.
  - intros E. congruence.
  - rewrite E4, E2. auto.
Qed.

Lemma semaphore_perform_ok (i : Input) (s : State) :
  semaphore_ok s → semaphore_ok (perform i s).
Proof.
  intros H. unfold perform. destruct (offered i s) eqn:Ho; [|done].
  destruct i as [[| | |delta|now|now d]|checked]; simpl in *.
  - apply negb_true_iff in Ho. destruct H as [Ht Hm Hi Hr].
    destruct (Hi Ho) as (Ha & Hw & Hc). split; simpl; try done.
  - destruct H as [Ht Hm Hi Hr]. split; simpl; try done.
  - apply (semaphore_ok_frame s); done.
  - apply negb_true_iff in Ho. unfold updateMaxPermits. rewrite Ho.
    destruct H as [Ht Hm Hi Hr]. destruct (Hi Ho) as (Ha & Hw & Hc).
    split; simpl; try done; [congruence | lia].
  - apply andb_true_iff in Ho as [Ho _].
    apply (semaphore_ok_frame s); [|done|done].
    apply frame_spawnRequest.
  - destruct (isRunning s) eqn:Hrun.
    + apply (semaphore_ok_frame s); [|done|done]. apply frame_onTick.
    + pose proof H as [Ht Hm Hi Hr]. rewrite Hrun in Ht.
      unfold onTick. by rewrite Ht.
  - destruct H as [Ht Hm Hi Hr]. split; simpl; done.
Qed.

Lemma semaphore_play_ok (inputs : list Input) : semaphore_ok (play inputs).
Proof.
  unfold play. apply (foldl_invariant semaphore_ok).
  - split; simpl; done.
  - intros s i. apply semaphore_perform_ok.
Qed.

Lemma counts_foldl {B : Type} (f : State → B → State) (l : list B)
    (s : State) :
  (∀ s b, semaphore_counts (f s b) = semaphore_counts s ∧
          waitingRequests (f s b) = waitingRequests s) →
  semaphore_counts (foldl f s l) = semaphore_counts s ∧
  waitingRequests (foldl f s l) = waitingRequests s.
Proof.
  intros Hf. revert s. induction l as [|b l IH]; intros s; [done|].
  simpl. destruct (IH (f s b)) as [-> ->]. apply Hf.
Qed.

Lemma counts_release (now : string) (cap : Render) (done : list Request)
    (s : State) :
  rejectedCount (release now cap done s) = rejectedCount s ∧
  requestCounter (release now cap done s) = requestCounter s ∧
  waitingRequests (release now cap done s) = waitingRequests s.
Proof.
  destruct (counts_foldl
    (λ s r,
       addLog now
         ("Request #" +:+ pretty (id r) +:+ ": ✓ Completed, released permit")
         released
         (set_completedCount (λ c, c + 1)
            (set_availablePermits
               (λ p, Z.min (p + 1) (r_maxPermits cap)) s))) done s)
    as [[= E1 E2] E3]; done.
Qed.

Lemma counts_promoted (now : string) (promoting : list Request) (t : Z)
    (s : State) :
  rejectedCount (promoted now promoting t s) = rejectedCount s ∧
  requestCounter (promoted now promoting t s) = requestCounter s ∧
  waitingRequests (promoted now promoting t s) = waitingRequests s.
Proof.
  unfold promoted. cbv zeta. set (logged := foldl _ _ _).
  assert (E : semaphore_counts logged = semaphore_counts s ∧
              waitingRequests logged = waitingRequests s)
    by (unfold logged; by apply counts_foldl).
  destruct E as [[= E1 E2] E3]. by destruct promoting.
Qed.

(** The active requests and the waiting queue are untouched by logging. *)
Lemma lists_foldl_addLog (now : string) (msg : Request → string)
    (ty : LogType) (l : list Request) (s : State) :
  let s' := foldl (λ s r, addLog now (msg r) ty s) s l in
  waitingRequests s' = waitingRequests s ∧
  activeRequests s' = activeRequests s ∧
  availablePermits s' = availablePermits s.
Proof.
  revert s. induction l as [|r l IH]; intros s; [done|].
  simpl. destruct (IH (addLog now (msg r) ty s)) as (-> & -> & ->). done.
Qed.

Lemma active_release (now : string) (cap : Render) (done : list Request)
    (s : State) :
  activeRequests (release now cap done s) = activeRequests s.
Proof.
  unfold release. revert s. induction done as [|r l IH]; intros s; [done|].
  simpl. by rewrite IH.
Qed.

Lemma active_promoted (now : string) (promoting : list Request) (t : Z)
    (s : State) :
  activeRequests (promoted now promoting t s) =
  activeRequests s ++ promoting.
Proof.
  unfold promoted. cbv zeta.
  destruct (lists_foldl_addLog now
              (λ r, "Request #" +:+ pretty (id r) +:+ ": Acquired permit")
              acquired promoting s) as (_ & Ha & _).
  cbv zeta in Ha. destruct promoting as [|r l].
  - by rewrite app_nil_r.
  - cbn [activeRequests set_activeRequests set_availablePermits].
    by rewrite Ha.
Qed.

(** A firing in a run started through the page: the new request, if the
    draw spawns one, is the first of the run for the callback, which finds
    a permit in the render of the start. *)
Lemma onTick_in_a_run (inputs : list Input) (now : string) (d : Draws) :
  interval (play inputs) = true →
  pauseRef (play inputs) = false →
  onTick now d (play inputs) =
  let s := play inputs in
  let k := (Z.to_nat (maxPermits s) `min` length (waitingRequests s))%nat in
  let s1 :=
    set_waitingRequests (λ _, drop k (waitingRequests s))
      (set_activeRequests
         (λ _, (progressed (progress_draw d) (activeRequests s)).1) s) in
  let s2 :=
    if r_autoSpawn (captured s) && JS.gt (spawn_draw d) (6 # 10) then
      addLog now
        ("Request #" +:+ pretty 1 +:+ ": Acquired permit (" +:+
         pretty (maxPermits s - 1) +:+ " left)") acquired
        (set_activeRequests
           (λ prev, prev ++ [ {| id := 1; status := processing;
                                 color := "#ef4444"; progress := 0%Q |} ])
           (set_availablePermits (λ prev, prev - 1)
              (set_requestCounter (λ prev, prev + 1) s1)))
    else s1 in
  release now (captured s) (progressed (progress_draw d) (activeRequests s)).2
    (promoted now (with_status processing <$> take k (waitingRequests s))
       (maxPermits s - Z.of_nat k) s2).
Proof.
  intros Hint Hp.
  destruct (semaphore_play_ok inputs) as [Ht Hm _ Hr].
  set (s := play inputs) in *. rewrite Hint in Ht.
  destruct (Hr (eq_sym Ht)) as (_ & Ha & _ & Hc).
  unfold onTick. rewrite Hint, Hp. cbn [negb]. cbv zeta.
  rewrite promote_take_drop. cbv zeta. rewrite Ha.
  destruct (progressed _ _) as [stillActive done]. cbn [fst snd].
  do 2 f_equal.
  destruct (_ && _); [|done].
  unfold spawnRequest. rewrite Ha, Hc.
  destruct (Z.ltb_spec 0 (maxPermits s)); [|lia]. reflexivity.
Qed.

(** X8. However the semaphore page is used, a firing of its timer never
    rejects a request and never lengthens the waiting queue: the request
    it may spawn is admitted on the permits of the render the run was
    started in, which always shows all permits available. *)
Theorem semaphore_timer_never_queues_or_rejects
    (inputs : list Input) (now : string) (d : Draws) :
  rejectedCount (onTick now d (play inputs)) = rejectedCount (play inputs) ∧
  (length (waitingRequests (onTick now d (play inputs))) ≤
   length (waitingRequests (play inputs)))%nat.
Proof.
  destruct (interval (play inputs)) eqn:Hint;
    [|unfold onTick; by rewrite Hint].
  destruct (pauseRef (play inputs)) eqn:Hp;
    [unfold onTick; by rewrite Hint, Hp|].
  rewrite onTick_in_a_run by done. cbv zeta.
  set (s := play inputs).
  match goal with
  | |- context [release ?n ?c ?l ?x] =>
      destruct (counts_release n c l x) as (-> & _ & ->)
  end.
  match goal with
  | |- context [promoted ?n ?l ?t ?x] =>
      destruct (counts_promoted n l t x) as (-> & _ & ->)
  end.
  destruct (_ && _); cbn [rejectedCount waitingRequests addLog set_logs
    set_activeRequests set_availablePermits set_requestCounter
    set_waitingRequests]; rewrite length_drop; split; (done || lia).
Qed.

(** X9. However the semaphore page got to its state, a firing of a
    scheduled, unpaused timer whose draw spawns a request (auto-spawn
    checked when the run started) makes it an active request, as request
    1 in the first colour, whatever the permits left: it comes behind the
    requests that stay active and before those the firing promotes from
    the waiting queue.  The request counter advances by one. *)
Theorem semaphore_timer_admits_without_permit
    (inputs : list Input) (now : string) (d : Draws) :
  interval (play inputs) = true →
  pauseRef (play inputs) = false →
  r_autoSpawn (captured (play inputs)) = true →
  JS.gt (spawn_draw d) (6 # 10) = true →
  activeRequests (onTick now d (play inputs)) =
    (progressed (progress_draw d) (activeRequests (play inputs))).1 ++
    {| id := 1; status := processing; color := "#ef4444";
       progress := 0%Q |} ::
    (with_status processing <$>
       take (Z.to_nat (maxPermits (play inputs)) `min`
             length (waitingRequests (play inputs)))
         (waitingRequests (play inputs))) ∧
  requestCounter (onTick now d (play inputs)) =
    requestCounter (play inputs) + 1.
Proof.
  intros Hint Hp Hauto Hdraw.
  rewrite onTick_in_a_run by done. cbv zeta. rewrite Hauto, Hdraw.
  cbn [andb]. split.
  - rewrite active_release, active_promoted.
    cbn [activeRequests addLog set_logs set_activeRequests
         set_availablePermits set_requestCounter set_waitingRequests].
    by rewrite <- app_assoc.
  - match goal with
    | |- context [release ?n ?c ?l ?x] =>
        destruct (counts_release n c l x) as (_ & -> & _)
    end.
    match goal with
    | |- context [promoted ?n ?l ?t ?x] =>
        destruct (counts_promoted n l t x) as (_ & -> & _)
    end.
    reflexivity.
Qed.

Lemma semaphore_timer_admits_without_permit_witness :
  activeRequests (onTick "10:00:01" slow_draws (play queue_of_one)) =
    (progressed (progress_draw slow_draws)
       (activeRequests (play queue_of_one))).1 ++
    {| id := 1; status := processing; color := "#ef4444";
       progress := 0%Q |} ::
    (with_status processing <$>
       take (Z.to_nat (maxPermits (play queue_of_one)) `min`
             length (waitingRequests (play queue_of_one)))
         (waitingRequests (play queue_of_one))) ∧
  requestCounter (onTick "10:00:01" slow_draws (play queue_of_one)) =
    requestCounter (play queue_of_one) + 1.
Proof.
  apply (semaphore_timer_admits_without_permit queue_of_one);
    vm_compute; reflexivity.
Defined.

(** The firing of the witness: requests 1, 2 and 3 hold the three
    permits and request 4 waits; the new request, numbered 1 again, comes
    before request 4, which is promoted, and the permits show 2. *)
Example semaphore_firing_with_a_queue :
  id <$> activeRequests (play queue_of_one) = [1; 2; 3] ∧
  id <$> waitingRequests (play queue_of_one) = [4] ∧
  availablePermits (play queue_of_one) = 0 ∧
  id <$> activeRequests (onTick "10:00:01" slow_draws (play queue_of_one)) =
    [1; 2; 3; 1; 4] ∧
  waitingRequests (onTick "10:00:01" slow_draws (play queue_of_one)) = [] ∧
  availablePermits (onTick "10:00:01" slow_draws (play queue_of_one)) = 2.
Proof. repeat apply conj; vm_compute; reflexivity. Qed.

(** X10. The semaphore page can show a negative number of available permits
    and more active requests than its maximum: four firings that each
    spawn a request do so in a run with three permits. *)
Theorem semaphore_admits_more_than_its_permits :
  ∃ inputs,
    availablePermits (play inputs) < 0 ∧
    maxPermits (play inputs) <
      Z.of_nat (length (activeRequests (play inputs))).
Proof. exists over_admitted. vm_compute. done. Qed.

(** X11. Whatever sequence of events the semaphore page goes through, its
    maximum number of permits stays between 1 and 8. *)
Theorem max_permits_stay_in_range (events : list Event) :
  1 ≤ maxPermits (foldl (λ s e, handle e s) initial events) ≤ 8.
Proof.
  apply (foldl_invariant (λ s, 1 ≤ maxPermits s ≤ 8)); [simpl; lia|].
  intros s e H. destruct e as [| | |delta|now|now d]; simpl; try done.
  - unfold updateMaxPermits. destruct (isRunning s); [done|]. simpl. lia.
  - pose proof (frame_spawnRequest (render s) now s) as [= _ E _ _].
    unfold clickAddRequest. by rewrite E.
  - pose proof (frame_onTick now d s) as [= _ E _ _]. by rewrite E.
Qed.

(** A firing that spawns nothing and finds nobody waiting is the first
    updater alone; one that spawns nothing and finds nobody active is the
    second alone. *)
Lemma firing_without_queue (now : string) (d : Draws) (s : State) :
  interval s = true → pauseRef s = false →
  waitingRequests s = [] →
  r_autoSpawn (captured s) && JS.gt (spawn_draw d) (6 # 10) = false →
  onTick now d s = progressActive now (progress_draw d) (captured s) s.
Proof.
  intros Hint Hp Hw Hs. unfold onTick, progressActive.
  rewrite Hint, Hp, Hw, Hs. cbn [negb promote]. cbv zeta.
  destruct (progressed _ _) as [stillActive done]. unfold promoted.
  cbn [foldl]. f_equal.
  destruct s; simpl in *. by subst.
Qed.

Lemma firing_without_active (now : string) (d : Draws) (s : State) :
  interval s = true → pauseRef s = false →
  activeRequests s = [] →
  r_autoSpawn (captured s) && JS.gt (spawn_draw d) (6 # 10) = false →
  onTick now d s = promoteWaiting now (captured s) s.
Proof.
  intros Hint Hp Ha Hs. unfold onTick, promoteWaiting.
  rewrite Hint, Hp, Ha, Hs. cbn [negb]. cbv zeta.
  change (progressed (progress_draw d) []) with
    (@nil Request, @nil Request). cbv iota beta.
  destruct (waitingRequests s) as [|w ws] eqn:Hw.
  - cbn [promote]. unfold promoted, release. cbn [foldl].
    destruct s; simpl in *. by subst.
  - destruct (promote _ _) as [[promoting tempPermits] remaining].
    unfold release. cbn [foldl]. f_equal.
    destruct s; simpl in *. by subst.
Qed.

(** X12. The second stage of the semaphore callback promotes the first [k]
    waiting requests, in order, where [k] is the smaller of the permits
    the render of the run showed and the length of the queue: they leave
    the queue, join the active requests as processing and, if [k] is not
    zero, the available permits become those of that render minus [k]. *)
Theorem waiting_requests_are_promoted_in_order
    (now : string) (cap : Render) (s : State) :
  let k := (Z.to_nat (r_availablePermits cap) `min`
            length (waitingRequests s))%nat in
  let s' := promoteWaiting now cap s in
  waitingRequests s' = drop k (waitingRequests s) ∧
  activeRequests s' =
    activeRequests s ++
    (with_status processing <$> take k (waitingRequests s)) ∧
  availablePermits s' =
    match k with
    | O => availablePermits s
    | S _ => r_availablePermits cap - Z.of_nat k
    end.
Proof.
  intros k s'. unfold s', promoteWaiting.
  destruct (waitingRequests s) as [|w ws] eqn:Hw.
  { unfold k. rewrite Nat.min_0_r. rewrite Hw. simpl.
    by rewrite app_nil_r. }
  rewrite promote_take_drop. cbv zeta. fold k. unfold promoted. cbv zeta.
  set (logged := foldl _ _ _).
  destruct (lists_foldl_addLog now
              (λ r, "Request #" +:+ pretty (id r) +:+ ": Acquired permit")
              acquired (with_status processing <$> take k (w :: ws))
              (set_waitingRequests (λ _, drop k (w :: ws)) s))
    as (Hlw & Hla & Hlp).
  fold logged in Hlw, Hla, Hlp. simpl in Hlw, Hla, Hlp.
  destruct k as [|k']; simpl.
  - rewrite app_nil_r. done.
  - rewrite Hlw, Hla. repeat split; lia.
Qed.

Lemma snd_imap_tagged {A B : Type} (g : nat → A → B) (l : list A) :
  snd <$> imap (λ i a, (g i a, a)) l = l.
Proof.
  revert g. induction l as [|a l IH]; intros g; [done|].
  simpl. f_equal. apply (IH (g ∘ S)).
Qed.

Lemma omap_cons_eq {A B : Type} (f : A → option B) (x : A) (l : list A) :
  omap f (x :: l) =
  match f x with
  | Some y => y :: omap f l
  | None => omap f l
  end.
Proof. reflexivity. Qed.

Lemma progressed_tagged (tagged : list (Q * Request)) :
  let stillActive :=
    omap (λ p : Q * Request,
            if JS.ge p.1 100%Q then None
            else Some {| id := id p.2; status := status p.2;
                         color := color p.2; progress := p.1 |}) tagged in
  let finished :=
    omap (λ p : Q * Request,
            if JS.ge p.1 100%Q
            then Some {| id := id p.2; status := completed;
                         color := color p.2; progress := 100%Q |}
            else None) tagged in
  (length stillActive + length finished = length tagged)%nat ∧
  id <$> stillActive `sublist_of` id <$> (snd <$> tagged) ∧
  Forall (λ r, (progress r < 100)%Q) stillActive.
Proof.
  induction tagged as [|[p r] tagged IH]; cbv zeta.
  { repeat split; constructor. }
  cbv zeta in IH. destruct IH as (Hlen & Hsub & Hlt).
  rewrite !omap_cons_eq. cbn [fst snd]. unfold JS.ge in *.
  destruct (Qle_bool 100 p) eqn:Hge.
  - repeat split; [simpl; lia | by apply sublist_cons | done].
  - repeat split; [simpl; lia | by apply sublist_skip |].
    apply Forall_cons_2; [|done]. simpl.
    apply Qnot_le_lt. intros Hle. apply Qle_bool_iff in Hle. congruence.
Qed.

Lemma progressed_spec (d : nat → Q) (prev : list Request) :
  let '(stillActive, finished) := progressed d prev in
  (length stillActive + length finished = length prev)%nat ∧
  id <$> stillActive `sublist_of` id <$> prev ∧
  Forall (λ r, (progress r < 100)%Q) stillActive.
Proof.
  unfold progressed.
  pose proof (progressed_tagged
                (imap (λ i r, (newProgress (d i) r, r)) prev)) as H.
  cbv zeta in H. by rewrite snd_imap_tagged, length_imap in H.
Qed.

Lemma release_foldl (now : string) (cap : Render) (l : list Request)
    (s : State) :
  let s' :=
    foldl (λ s r,
      let s :=
        set_availablePermits (λ p, Z.min (p + 1) (r_maxPermits cap)) s in
      let s := set_completedCount (λ c, c + 1) s in
      addLog now
        ("Request #" +:+ pretty (id r) +:+ ": ✓ Completed, released permit")
        released s) s l in
  activeRequests s' = activeRequests s ∧
  completedCount s' = completedCount s + Z.of_nat (length l) ∧
  availablePermits s' =
    match l with
    | [] => availablePermits s
    | _ => Z.min (availablePermits s + Z.of_nat (length l)) (r_maxPermits cap)
    end.
Proof.
  revert s. induction l as [|r l IH]; intros s.
  { simpl. repeat split; lia. }
  simpl foldl. cbv zeta.
  set (s1 := addLog _ _ _ _).
  destruct (IH s1) as (Ha & Hc & Hp). cbv zeta in Ha, Hc, Hp.
  rewrite Ha, Hc, Hp. unfold s1. simpl. repeat split; [lia|].
  destruct l; simpl; lia.
Qed.

(** X13. The first stage of the semaphore callback: the requests that leave
    the active list are counted as completed, one by one; each gives a
    permit back, up to the maximum of the render of the run; the requests
    that stay keep their order and have a progress below 100. *)
Theorem completed_requests_give_their_permit_back
    (now : string) (d : nat → Q) (cap : Render) (s : State) :
  let s' := progressActive now d cap s in
  let n :=
    (Z.of_nat (length (activeRequests s)) -
     Z.of_nat (length (activeRequests s'))) in
  0 ≤ n ∧
  completedCount s' = completedCount s + n ∧
  availablePermits s' =
    (if n =? 0 then availablePermits s
     else Z.min (availablePermits s + n) (r_maxPermits cap)) ∧
  id <$> activeRequests s' `sublist_of` id <$> activeRequests s ∧
  Forall (λ r, (progress r < 100)%Q) (activeRequests s').
Proof.
  intros s' n. unfold n, s', progressActive, release.
  pose proof (progressed_spec d (activeRequests s)) as Hspec.
  destruct (progressed d (activeRequests s)) as [a c].
  destruct Hspec as (Hlen & Hsub & Hlt).
  destruct (release_foldl now cap c (set_activeRequests (λ _, a) s))
    as (Ha & Hc & Hp). cbv zeta in Ha, Hc, Hp.
  rewrite Ha, Hc, Hp. simpl.
  replace (Z.of_nat (length (activeRequests s)) - Z.of_nat (length a))
    with (Z.of_nat (length c)) by lia.
  repeat split; [lia | | done | done].
  destruct c as [|r c]; [done|].
  destruct (Z.eqb_spec (Z.of_nat (length (r :: c))) 0) as [E|_]; [|done].
  simpl in E. lia.
Qed.

End SemaphoreRuns.

(** ** Order of the items of the producer-consumer page *)

Section Fifo.
Import ProducerConsumer.

Lemma consecutive_snoc (first : Z) (n : nat) :
  consecutive first (S n) = consecutive first n ++ [first + Z.of_nat n].
Proof. unfold consecutive. by rewrite seq_S, fmap_app. Qed.

Lemma consecutive_cons (first : Z) (n : nat) :
  consecutive first (S n) = first :: consecutive (first + 1) n.
Proof.
  unfold consecutive. cbn [seq fmap list_fmap]. f_equal; [lia|].
  rewrite <- fmap_S_seq, <- list_fmap_compose.
  apply list_fmap_ext. intros _ k _. simpl. lia.
Qed.

Lemma fifo_produceAction (now : string) (n : Z) (s : State) :
  interval s = true → buffer_ok s → fifo_ok s →
  fifo_ok (produceAction now n s).
Proof.
  intros Hi Hb [H1 H2 H3 H4 H5]. unfold produceAction.
  destruct (length (localQueue s) <? BUFFER_SIZE)%nat; [|by split].
  split; cbn [localQueue localConsumed localItemCounter localProduced
              queue consumed itemCounter produced].
  - rewrite fmap_app, length_app, H1. cbn [length fmap list_fmap Item.id].
    rewrite Nat.add_1_r, consecutive_snoc. f_equal. f_equal. lia.
  - rewrite length_app. simpl. lia.
  - lia.
  - destruct (locals_shown _ Hb Hi) as (_ & _ & <-).
    rewrite fmap_app, length_app, H1. cbn [length fmap list_fmap Item.id].
    rewrite Nat.add_1_r, consecutive_snoc. f_equal. f_equal. lia.
  - lia.
Qed.

Lemma fifo_consumeAction (now : string) (n : Z) (s : State) :
  interval s = true → buffer_ok s → fifo_ok s →
  fifo_ok (consumeAction now n s).
Proof.
  intros Hi Hb [H1 H2 H3 H4 H5]. unfold consumeAction.
  destruct (localQueue s) as [|item rest] eqn:Hq; [by split|].
  cbn [length] in *. rewrite fmap_cons, consecutive_cons in H1.
  injection H1 as Hid Hrest.
  destruct (locals_shown _ Hb Hi) as (_ & Hp & _).
  split; cbn [localQueue localConsumed localItemCounter localProduced
              queue consumed itemCounter produced]; try done; lia.
Qed.

Lemma fifo_onTick (now : string) (d : Draws) (s : State) :
  buffer_ok s → fifo_ok s → fifo_ok (onTick now d s).
Proof.
  intros Hb Hf. unfold onTick.
  destruct (interval s) eqn:Hi; [|done]. cbn [negb].
  destruct (pauseRef s); [done|].
  destruct (JS.gt (produce_draw d) _).
  - set (n := if JS.gt (producer_draw d) (5 # 10) then 1 else 2).
    pose proof (produceAction_ok now n s Hi Hb) as Hb1.
    pose proof (fifo_produceAction now n s Hi Hb Hf) as Hf1.
    destruct (JS.gt (consume_draw d) _); [|done].
    apply fifo_consumeAction; [|done|done].
    by rewrite produceAction_interval.
  - destruct (JS.gt (consume_draw d) _); [|done].
    by apply fifo_consumeAction.
Qed.

Lemma fifo_onTimeout (i : nat) (s : State) :
  fifo_ok s → fifo_ok (onTimeout i s).
Proof.
  intros [H1 H2 H3 H4 H5]. unfold onTimeout.
  destruct (timeouts s !! i) as [[n|n|n|n]|]; split; simpl; done.
Qed.

Lemma reachable_fifo (s : State) : reachable s → fifo_ok s.
Proof.
  induction 1 as [|e s Hr IH]; [by split|].
  destruct e; simpl.
  - by split.
  - destruct IH. by split.
  - destruct IH. by split.
  - apply fifo_onTick; [by apply reachable_ok | done].
  - by apply fifo_onTimeout.
Qed.

(** X14. In every state the producer-consumer page can reach, the queue
    holds the items numbered from the count of consumed items plus one, in
    order and without gap, so that an item is consumed only after every
    item produced before it; the item counter equals the count of produced
    items, which is the count of consumed ones plus the length of the
    queue. *)
Theorem items_leave_in_production_order (s : State) :
  reachable s →
  Item.id <$> queue s = consecutive (consumed s + 1) (length (queue s)) ∧
  itemCounter s = produced s ∧
  produced s = consumed s + Z.of_nat (length (queue s)).
Proof.
  intros Hr. destruct (reachable_fifo s Hr) as [_ _ _ H4 H5].
  destruct (reachable_ok s Hr) as [_ _ Hbal _].
  repeat split; [done | done | lia].
Qed.

Lemma items_leave_in_production_order_witness :
  Item.id <$> queue two_in_queue = [2; 3] ∧
  itemCounter two_in_queue = 3 ∧
  produced two_in_queue = 1 + 2.
Proof.
  apply (items_leave_in_production_order two_in_queue).
  repeat apply reachable_step. apply reachable_initial.
Defined.

End Fifo.

(** ** Tasks and workers of the thread pool *)

Section PoolRuns.
Import ThreadPool.


(** [findIndex] and [find]: the first element passing the test. *)
Lemma find_from_Some {A : Type} (p : A → bool) (k : nat) (l : list A)
    (j : nat) (a : A) :
  find_from p k l = Some (j, a) →
  ∃ i, j = (k + i)%nat ∧ l !! i = Some a ∧ p a = true.
Proof.
  revert k. induction l as [|b l IH]; intros k; simpl; [done|].
  destruct (p b) eqn:Hb.
  - intros [= <- <-]. exists 0%nat. split; [lia|done].
  - intros H. destruct (IH _ H) as (i & -> & Hi & Ha).
    exists (S i). split; [lia|done].
Qed.

Lemma find_from_None {A : Type} (p : A → bool) (k : nat) (l : list A) :
  find_from p k l = None → Forall (λ a, p a = false) l.
Proof.
  revert k. induction l as [|b l IH]; intros k; simpl; [constructor|].
  destruct (p b) eqn:Hb; [done|]. intros H. constructor; eauto.
Qed.

Lemma ids_insert (q : list Task) (i : nat) (t t' : Task) :
  q !! i = Some t → Task.id t' = Task.id t →
  Task.id <$> <[i := t']> q = Task.id <$> q.
Proof.
  intros Hi Hid. rewrite list_fmap_insert, Hid.
  apply list_insert_id. by rewrite list_lookup_fmap, Hi.
Qed.

Lemma ids_filter (q : list Task) (f : Task → bool) :
  Task.id <$> List.filter f q `sublist_of` Task.id <$> q.
Proof.
  induction q as [|t q IH]; simpl; [done|].
  destruct (f t); simpl; [by apply sublist_skip | by apply sublist_cons].
Qed.

(** The two halves of the loop body never add a task to the queue. *)
Lemma work_ids (w : Worker) (acc : Acc) :
  Task.id <$> newQueue (work w acc).2 `sublist_of` Task.id <$> newQueue acc.
Proof.
  unfold work. destruct (Worker.status w); [done|].
  destruct (Worker.currentTask w) as [c|]; [|done].
  destruct (c =? 0); [done|].
  destruct (find_from _ 0 _) as [[i t]|] eqn:Hf; [|done].
  apply find_from_Some in Hf as (? & -> & Hi & _).
  destruct (JS.ge _ _); simpl.
  - apply ids_filter.
  - by rewrite (ids_insert _ _ t).
Qed.

Lemma assign_ids (w : Worker) (acc : Acc) :
  Task.id <$> newQueue (assign w acc).2 = Task.id <$> newQueue acc.
Proof.
  unfold assign. destruct (Worker.status w); [|done].
  destruct (find_from _ 0 _) as [[i t]|] eqn:Hf; [|done].
  apply find_from_Some in Hf as (? & -> & Hi & _). simpl.
  by rewrite (ids_insert _ _ t).
Qed.

Lemma forEachWorker_ids (ws : list Worker) (acc : Acc) :
  Task.id <$> newQueue (forEachWorker ws acc).2
    `sublist_of` Task.id <$> newQueue acc.
Proof.
  revert acc. induction ws as [|w ws IH]; intros acc; simpl; [done|].
  pose proof (work_ids w acc) as H1.
  destruct (work w acc) as [w1 acc1].
  pose proof (assign_ids w1 acc1) as H2.
  destruct (assign w1 acc1) as [w2 acc2].
  pose proof (IH acc2) as H3.
  destruct (forEachWorker ws acc2) as [rest acc']. simpl in *.
  rewrite H2 in H3. by etrans.
Qed.

Lemma onTick_ids (now : string) (s : State) :
  Task.id <$> taskQueue (onTick now s) `sublist_of` Task.id <$> taskQueue s.
Proof.
  unfold onTick. destruct (interval s); [|done]. simpl.
  destruct (pauseRef s); [done|].
  pose proof (forEachWorker_ids (workers s)
    {| newQueue := taskQueue s; newCompleted := []; messages := [];
       processed := 0 |}) as H.
  by destruct (forEachWorker _ _) as [ws acc].
Qed.

Lemma onTick_taskCounter (now : string) (s : State) :
  taskCounter (onTick now s) = taskCounter s.
Proof.
  unfold onTick. destruct (interval s); [|done]. simpl.
  destruct (pauseRef s); [done|].
  by destruct (forEachWorker _ _) as [ws acc].
Qed.

Lemma newTask_id (n : Z) (d : Q) : Task.id (newTask n d) = n + 1.
Proof. reflexivity. Qed.

Lemma ids_ok_sublist (s s' : State) :
  Task.id <$> taskQueue s' `sublist_of` Task.id <$> taskQueue s →
  taskCounter s' = taskCounter s →
  ids_ok s → ids_ok s'.
Proof.
  intros Hsub Hc (Hnd & Hall & H0). repeat split.
  - by eapply sublist_NoDup.
  - rewrite Hc. rewrite Forall_forall in Hall. apply Forall_forall.
    intros n Hn. apply Hall. by eapply elem_of_sublist.
  - by rewrite Hc.
Qed.

Lemma ids_ok_append (s s' : State) (batch : list Z) :
  Task.id <$> taskQueue s' = (Task.id <$> taskQueue s) ++ batch →
  NoDup batch →
  Forall (λ n, taskCounter s < n ≤ taskCounter s') batch →
  taskCounter s ≤ taskCounter s' →
  ids_ok s → ids_ok s'.
Proof.
  intros Hq Hnd Hb Hc (Hnd0 & Hall & H0). repeat split.
  - rewrite Hq. apply NoDup_app. repeat split; [done| |done].
    intros n Hn Hn'.
    rewrite Forall_forall in Hall, Hb.
    specialize (Hall n Hn). specialize (Hb n Hn'). lia.
  - rewrite Hq. apply Forall_app. split.
    + eapply Forall_impl; [exact Hall|]. simpl. lia.
    + eapply Forall_impl; [exact Hb|]. simpl. lia.
  - lia.
Qed.

Lemma ids_ok_handle (e : Event) (s : State) : ids_ok s → ids_ok (handle e s).
Proof.
  intros H. destruct e as [| | |count|now d|now d|now]; simpl.
  - done.
  - repeat split; simpl; [constructor | constructor | lia].
  - done.
  - unfold clickWorkerCount. by destruct (isRunning s).
  - apply (ids_ok_append s _ [taskCounter s + 1]); simpl.
    + by rewrite fmap_app.
    + apply NoDup_singleton.
    + repeat constructor; lia.
    + lia.
    + done.
  - apply (ids_ok_append s _
             ((λ i : nat, taskCounter s + Z.of_nat i + 1) <$> seq 0 10)).
    + unfold addBatchTasks. cbn [taskQueue].
      by rewrite fmap_app, <- list_fmap_compose.
    + apply NoDup_fmap_2; [|apply NoDup_seq]. intros i j. lia.
    + apply Forall_fmap, Forall_seq. intros j Hj. simpl. lia.
    + simpl. lia.
    + done.
  - apply (ids_ok_sublist s); [apply onTick_ids|apply onTick_taskCounter|done].
Qed.

Lemma pool_after_ids_ok (events : list Event) : ids_ok (pool_after events).
Proof.
  unfold pool_after. apply (foldl_invariant ids_ok).
  - repeat split; simpl; [constructor | constructor | lia].
  - intros s e. apply ids_ok_handle.
Qed.

(** X15. Whatever sequence of events the thread-pool page goes through, the
    tasks in its queue have distinct ids, all positive and none above the
    task counter. *)
Theorem task_ids_are_unique (events : list Event) :
  NoDup (Task.id <$> taskQueue (pool_after events)) ∧
  Forall (λ t, 0 < Task.id t ≤ taskCounter (pool_after events))
    (taskQueue (pool_after events)).
Proof.
  destruct (pool_after_ids_ok events) as (Hnd & Hall & _).
  split; [done|]. by apply Forall_fmap in Hall.
Qed.



(** A queue without queued tasks stays so through the loop. *)
Lemma work_none_queued (w : Worker) (acc : Acc) :
  none_queued (newQueue acc) → none_queued (newQueue (work w acc).2).
Proof.
  unfold none_queued, work. intros H.
  destruct (Worker.status w); [done|].
  destruct (Worker.currentTask w) as [c|]; [|done].
  destruct (c =? 0); [done|].
  destruct (find_from _ 0 _) as [[i t]|] eqn:Hf; [|done].
  apply find_from_Some in Hf as (? & -> & Hi & _).
  destruct (JS.ge _ _); simpl.
  - rewrite Forall_forall in H. apply Forall_forall. intros u Hu.
    apply list_elem_of_In, filter_In in Hu as [Hu _].
    by apply H, list_elem_of_In.
  - apply Forall_insert; [done|].
    rewrite Forall_forall in H. apply (H t). by eapply list_elem_of_lookup_2.
Qed.

Lemma assign_none_queued (w : Worker) (acc : Acc) :
  none_queued (newQueue acc) → none_queued (newQueue (assign w acc).2).
Proof.
  unfold none_queued, assign. intros H.
  destruct (Worker.status w); [|done].
  destruct (find_from _ 0 _) as [[i t]|] eqn:Hf; [|done]. simpl.
  by apply Forall_insert.
Qed.

Lemma forEachWorker_none_queued (ws : list Worker) (acc : Acc) :
  none_queued (newQueue acc) →
  none_queued (newQueue (forEachWorker ws acc).2).
Proof.
  revert acc. induction ws as [|w ws IH]; intros acc H; simpl; [done|].
  pose proof (work_none_queued w acc H) as H1.
  destruct (work w acc) as [w1 acc1].
  pose proof (assign_none_queued w1 acc1 H1) as H2.
  destruct (assign w1 acc1) as [w2 acc2].
  pose proof (IH acc2 H2) as H3.
  by destruct (forEachWorker ws acc2) as [rest acc'].
Qed.

Lemma assign_idle (w : Worker) (acc : Acc) :
  Worker.status (assign w acc).1 = Worker.idle →
  none_queued (newQueue (assign w acc).2).
Proof.
  unfold assign. destruct (Worker.status w) eqn:Hw; simpl.
  - destruct (find_from _ 0 _) as [[i t]|] eqn:Hf; simpl; [done|].
    intros _. by eapply find_from_None.
  - by rewrite Hw.
Qed.

Lemma forEachWorker_idle (ws : list Worker) (acc : Acc) (w : Worker) :
  w ∈ (forEachWorker ws acc).1 → Worker.status w = Worker.idle →
  none_queued (newQueue (forEachWorker ws acc).2).
Proof.
  revert acc. induction ws as [|v ws IH]; intros acc; simpl.
  { intros H. by apply elem_of_nil in H. }
  destruct (work v acc) as [w1 acc1].
  pose proof (assign_idle w1 acc1) as Hidle.
  destruct (assign w1 acc1) as [w2 acc2].
  pose proof (IH acc2) as IH'.
  pose proof (forEachWorker_none_queued ws acc2) as Hmono.
  destruct (forEachWorker ws acc2) as [rest acc']. simpl in *.
  intros Hin Hst. apply elem_of_cons in Hin as [->|Hin]; auto.
Qed.

(** X17. After a firing of the scheduled, unpaused timer of the thread pool
    no worker is idle while a task is still queued. *)
Theorem no_worker_idles_beside_a_queued_task
    (now : string) (s : State) (w : Worker) :
  interval s = true → pauseRef s = false →
  w ∈ workers (onTick now s) → Worker.status w = Worker.idle →
  Forall (λ t, Task.status t ≠ Task.queued) (taskQueue (onTick now s)).
Proof.
  unfold onTick. intros -> ->. simpl.
  pose proof (forEachWorker_idle (workers s)
    {| newQueue := taskQueue s; newCompleted := []; messages := [];
       processed := 0 |} w) as H.
  destruct (forEachWorker _ _) as [ws acc]. simpl in *.
  intros Hin Hst. specialize (H Hin Hst).
  eapply Forall_impl; [exact H|]. intros t. unfold is_queued.
  by destruct (Task.status t).
Qed.

Lemma no_worker_idles_beside_a_queued_task_witness :
  Forall (λ t, Task.status t ≠ Task.queued)
    (taskQueue (onTick "10:00:01" pool_one_task)).
Proof.
  apply (no_worker_idles_beside_a_queued_task "10:00:01" pool_one_task
           idle_worker_2); [reflexivity | reflexivity | | reflexivity].
  vm_compute. apply list_elem_of_In. right. left. reflexivity.
Defined.

(** Removing a task by its id removes exactly that task. *)
Lemma filter_keeps_other_ids (q : list Task) (n : Z) :
  n ∉ Task.id <$> q →
  List.filter (λ x, negb (Task.id x =? n)) q = q.
Proof.
  induction q as [|x q IH]; simpl; [done|]. intros Hn.
  apply not_elem_of_cons in Hn as [Hx Hn].
  destruct (Z.eqb_spec (Task.id x) n) as [E|_]; [done|]. simpl.
  by rewrite IH.
Qed.

Lemma filter_removes_one (q : list Task) (i : nat) (t : Task) :
  NoDup (Task.id <$> q) → q !! i = Some t →
  S (length (List.filter (λ x, negb (Task.id x =? Task.id t)) q)) = length q.
Proof.
  revert i. induction q as [|x q IH]; intros i Hnd Hi; [done|].
  simpl in Hnd. apply NoDup_cons in Hnd as [Hx Hnd]. simpl.
  destruct i as [|i]; simpl in Hi.
  - injection Hi as ->. rewrite Z.eqb_refl. simpl.
    by rewrite filter_keeps_other_ids.
  - destruct (Z.eqb_spec (Task.id x) (Task.id t)) as [E|_].
    + exfalso. apply Hx. rewrite E. apply list_elem_of_fmap_2.
      by eapply list_elem_of_lookup_2.
    + simpl. f_equal. by eapply IH.
Qed.

Lemma work_balance (w : Worker) (acc : Acc) :
  NoDup (Task.id <$> newQueue acc) →
  pool_balance (work w acc).2 = pool_balance acc ∧
  Worker.completedTasks (work w acc).1 - Worker.completedTasks w =
    processed (work w acc).2 - processed acc.
Proof.
  unfold work, pool_balance. intros Hnd.
  destruct (Worker.status w); [split; simpl; lia|].
  destruct (Worker.currentTask w) as [c|]; [|split; simpl; lia].
  destruct (c =? 0); [split; simpl; lia|].
  destruct (find_from _ 0 _) as [[i t]|] eqn:Hf; [|split; simpl; lia].
  apply find_from_Some in Hf as (? & -> & Hi & _).
  destruct (JS.ge _ _); simpl.
  - pose proof (filter_removes_one _ _ _ Hnd Hi). split; lia.
  - rewrite length_insert. split; lia.
Qed.

Lemma assign_balance (w : Worker) (acc : Acc) :
  pool_balance (assign w acc).2 = pool_balance acc ∧
  Worker.completedTasks (assign w acc).1 = Worker.completedTasks w ∧
  processed (assign w acc).2 = processed acc.
Proof.
  unfold assign, pool_balance. destruct (Worker.status w); [|done].
  destruct (find_from _ 0 _) as [[i t]|]; [|done]. simpl.
  by rewrite length_insert.
Qed.

Lemma sum_list_cons (n : Z) (l : list Z) :
  sum_list (n :: l) = n + sum_list l.
Proof. reflexivity. Qed.

Lemma forEachWorker_balance (ws : list Worker) (acc : Acc) :
  NoDup (Task.id <$> newQueue acc) →
  pool_balance (forEachWorker ws acc).2 = pool_balance acc ∧
  sum_list (Worker.completedTasks <$> (forEachWorker ws acc).1) -
    sum_list (Worker.completedTasks <$> ws) =
    processed (forEachWorker ws acc).2 - processed acc.
Proof.
  revert acc. induction ws as [|w ws IH]; intros acc Hnd.
  { simpl. split; lia. }
  cbn [forEachWorker].
  destruct (work_balance w acc Hnd) as [B1 C1].
  pose proof (work_ids w acc) as S1.
  destruct (work w acc) as [w1 acc1]. cbn [fst snd] in *.
  assert (Hnd1 : NoDup (Task.id <$> newQueue acc1))
    by (by eapply sublist_NoDup).
  destruct (assign_balance w1 acc1) as (B2 & C2 & P2).
  pose proof (assign_ids w1 acc1) as S2.
  destruct (assign w1 acc1) as [w2 acc2]. cbn [fst snd] in *.
  assert (Hnd2 : NoDup (Task.id <$> newQueue acc2)) by (by rewrite S2).
  destruct (IH acc2 Hnd2) as [B3 C3].
  destruct (forEachWorker ws acc2) as [rest acc']. cbn [fst snd] in *.
  rewrite !fmap_cons, !sum_list_cons. split; lia.
Qed.

Lemma work_names (w : Worker) (acc : Acc) :
  Worker.id (work w acc).1 = Worker.id w ∧
  Worker.name (work w acc).1 = Worker.name w.
Proof.
  unfold work. destruct (Worker.status w); [done|].
  destruct (Worker.currentTask w) as [c|]; [|done].
  destruct (c =? 0); [done|].
  destruct (find_from _ 0 _) as [[i t]|]; [|done].
  by destruct (JS.ge _ _).
Qed.

Lemma assign_names (w : Worker) (acc : Acc) :
  Worker.id (assign w acc).1 = Worker.id w ∧
  Worker.name (assign w acc).1 = Worker.name w.
Proof.
  unfold assign. destruct (Worker.status w); [|done].
  by destruct (find_from _ 0 _) as [[i t]|].
Qed.

Lemma forEachWorker_names (ws : list Worker) (acc : Acc) :
  (λ w, (Worker.id w, Worker.name w)) <$> (forEachWorker ws acc).1 =
  (λ w, (Worker.id w, Worker.name w)) <$> ws.
Proof.
  revert acc. induction ws as [|w ws IH]; intros acc; [done|].
  cbn [forEachWorker].
  destruct (work_names w acc) as [I1 N1].
  destruct (work w acc) as [w1 acc1]. cbn [fst snd] in *.
  destruct (assign_names w1 acc1) as [I2 N2].
  destruct (assign w1 acc1) as [w2 acc2]. cbn [fst snd] in *.
  specialize (IH acc2).
  destruct (forEachWorker ws acc2) as [rest acc']. cbn [fst snd] in *.
  rewrite !fmap_cons, IH. f_equal. congruence.
Qed.

Lemma makeWorkers_credit (n : nat) :
  sum_list (Worker.completedTasks <$> makeWorkers n) = 0.
Proof.
  unfold makeWorkers. rewrite <- list_fmap_compose.
  induction (seq 0 n) as [|i l IH]; [done|].
  rewrite fmap_cons, sum_list_cons, IH. reflexivity.
Qed.

Lemma counters_ok_onTick (now : string) (s : State) :
  counters_ok s → counters_ok (onTick now s).
Proof.
  intros H. pose proof H as [Hids Ht Hn Hidle Hc Hs Hw].
  assert (Hids' := ids_ok_handle (Tick now) s Hids). simpl in Hids'.
  revert Hids'. unfold onTick.
  destruct (interval s) eqn:Hint; [|done]. cbn [negb].
  destruct (pauseRef s); [done|].
  destruct Hids as (Hnd & _ & _).
  destruct (forEachWorker_balance (workers s)
    {| newQueue := taskQueue s; newCompleted := []; messages := [];
       processed := 0 |} Hnd) as [B C].
  pose proof (forEachWorker_names (workers s)
    {| newQueue := taskQueue s; newCompleted := []; messages := [];
       processed := 0 |}) as N.
  destruct (forEachWorker _ _) as [ws acc]. unfold pool_balance in B.
  cbn [fst snd newQueue processed] in *. intros Hids'.
  split; cbn [taskQueue totalProcessed taskCounter workers completedTasks
              isRunning interval workerCount].
  - done.
  - done.
  - lia.
  - intros E. congruence.
  - lia.
  - destruct (newCompleted acc); [done|]. apply slice_last_length.
  - by rewrite N.
Qed.

Lemma counters_ok_handle (e : Event) (s : State) :
  counters_ok s → counters_ok (handle e s).
Proof.
  intros H. destruct e as [| | |count|now d|now d|now].
  - pose proof H as [Hids Ht Hn Hidle Hc Hs Hw].
    split; simpl; done.
  - pose proof H as [Hids Ht Hn Hidle Hc Hs Hw].
    split; simpl; try done; try lia.
    + apply (ids_ok_handle Reset s Hids).
    + apply makeWorkers_credit.
  - pose proof H as [Hids Ht Hn Hidle Hc Hs Hw]. split; simpl; done.
  - pose proof H as [Hids Ht Hn Hidle Hc Hs Hw].
    simpl. unfold clickWorkerCount.
    destruct (isRunning s) eqn:Hrun; [done|].
    split; simpl; try done.
    + destruct (Nat.eqb_spec count (workerCount s)) as [->|_]; [done|].
      rewrite makeWorkers_credit. symmetry. by apply Hidle.
    + destruct (Nat.eqb_spec count (workerCount s)) as [->|_]; done.
  - pose proof H as [Hids Ht Hn Hidle Hc Hs Hw].
    split; try done.
    + apply (ids_ok_handle (AddTask now d) s Hids).
    + simpl. rewrite length_app. simpl. lia.
  - pose proof H as [Hids Ht Hn Hidle Hc Hs Hw].
    split; try done.
    + apply (ids_ok_handle (AddBatchTasks now d) s Hids).
    + unfold handle, addBatchTasks.
      cbn [taskCounter totalProcessed taskQueue].
      rewrite length_app, length_fmap, length_seq. lia.
  - by apply counters_ok_onTick.
Qed.

Lemma pool_after_counters_ok (events : list Event) :
  counters_ok (pool_after events).
Proof.
  unfold pool_after. apply (foldl_invariant counters_ok).
  - split; simpl; try done.
    + repeat split; simpl; [constructor | constructor | lia].
    + lia.
  - intros s e. apply counters_ok_handle.
Qed.

(** X18. Whatever sequence of events the thread-pool page goes through, no
    task is lost or counted twice: the task counter equals the tasks
    processed plus the tasks in the queue, and the completions credited to
    the workers add up to the tasks processed. *)
Theorem every_task_is_queued_or_processed (events : list Event) :
  taskCounter (pool_after events) =
    totalProcessed (pool_after events) +
    Z.of_nat (length (taskQueue (pool_after events))) ∧
  sum_list (Worker.completedTasks <$> workers (pool_after events)) =
    totalProcessed (pool_after events).
Proof. split; apply pool_after_counters_ok. Qed.

(** X19. Whatever sequence of events the thread-pool page goes through, its
    workers are those of the chosen count, numbered and named from 1 in
    order, and the list of completed tasks shows at most 20. *)
Theorem pool_keeps_its_workers (events : list Event) :
  (λ w, (Worker.id w, Worker.name w)) <$> workers (pool_after events) =
    (λ i : nat, (Z.of_nat i + 1, "Worker " +:+ pretty (Z.of_nat i + 1)))
      <$> seq 0 (workerCount (pool_after events)) ∧
  (length (completedTasks (pool_after events)) ≤ 20)%nat.
Proof.
  destruct (pool_after_counters_ok events) as [_ _ _ _ _ Hs Hw].
  split; [|done]. rewrite Hw. unfold makeWorkers.
  by rewrite <- list_fmap_compose.
Qed.

(** Two tasks of a queue with the same id are the same task. *)
Lemma same_id_same_task (q : list Task) (t u : Task) :
  NoDup (Task.id <$> q) → t ∈ q → u ∈ q → Task.id t = Task.id u → t = u.
Proof.
  intros Hnd Ht Hu E.
  apply list_elem_of_lookup_1 in Ht as [i Hi].
  apply list_elem_of_lookup_1 in Hu as [j Hj].
  assert (i = j) as ->.
  { eapply NoDup_lookup; [exact Hnd| |].
    - by rewrite list_lookup_fmap, Hi.
    - by rewrite list_lookup_fmap, Hj, E. }
  congruence.
Qed.

Lemma elem_of_insert_other (q : list Task) (i : nat) (t u x : Task) :
  q !! i = Some t → u ∈ q → u ≠ t → u ∈ <[i := x]> q.
Proof.
  intros Hi Hu Hne. apply list_elem_of_lookup_1 in Hu as [j Hj].
  apply (list_elem_of_lookup_2 _ j).
  rewrite list_lookup_insert_ne; [done|]. intros ->. congruence.
Qed.

Lemma elem_of_insert_self (q : list Task) (i : nat) (t x : Task) :
  q !! i = Some t → x ∈ <[i := x]> q.
Proof.
  intros Hi. apply (list_elem_of_lookup_2 _ i).
  apply list_lookup_insert_eq. by eapply lookup_lt_Some.
Qed.

Lemma work_owns (front rest : list Worker) (w : Worker) (acc : Acc) :
  NoDup (Worker.id <$> front ++ w :: rest) →
  NoDup (Task.id <$> newQueue acc) →
  owns (front ++ w :: rest) (newQueue acc) →
  owns (front ++ (work w acc).1 :: rest) (newQueue (work w acc).2).
Proof.
  intros Hw Hq Ho. unfold work.
  destruct (Worker.status w) eqn:Hst; [done|].
  destruct (Worker.currentTask w) as [c|] eqn:Hc; [|done].
  destruct (c =? 0); [done|].
  destruct (find_from _ 0 _) as [[i task]|] eqn:Hf; [|done].
  apply find_from_Some in Hf as (? & -> & Hi & Hid). simpl in Hi.
  apply Z.eqb_eq in Hid.
  assert (Hin : task ∈ newQueue acc) by (by eapply list_elem_of_lookup_2).
  destruct (Ho w) as (t & Ht & Hct & Hts & Hta);
    [apply elem_of_app; right; by left | done |].
  assert (t = task) as ->.
  { apply (same_id_same_task (newQueue acc)); try done. congruence. }
  destruct (JS.ge _ _); cbn [fst snd newQueue].
  - intros v Hv Hbusy.
    assert (Hv' : v ∈ front ++ rest ∧ v ∈ front ++ w :: rest).
    { apply elem_of_app in Hv as [Hv|Hv].
      - split; apply elem_of_app; by left.
      - apply elem_of_cons in Hv as [->|Hv]; [done|].
        split; apply elem_of_app; right; [done | by right]. }
    destruct Hv' as [Hv1 Hv2].
    destruct (Ho v Hv2 Hbusy) as (u & Hu & Hcu & Hus & Hua).
    exists u. repeat split; try done.
    apply list_elem_of_In, filter_In. split; [by apply list_elem_of_In|].
    apply negb_true_iff, Z.eqb_neq. intros E.
    assert (u = task) as -> by (by apply (same_id_same_task (newQueue acc))).
    assert (Hvw : Worker.id v = Worker.id w) by congruence.
    rewrite fmap_app, fmap_cons in Hw.
    apply NoDup_app in Hw as (_ & Hw & Hw').
    apply NoDup_cons in Hw' as [Hw' _].
    apply elem_of_app in Hv1 as [Hv1|Hv1].
    + apply (Hw (Worker.id v)); [by apply list_elem_of_fmap_2|].
      rewrite Hvw. by left.
    + apply Hw'. rewrite <- Hvw. by apply list_elem_of_fmap_2.
  - intros v Hv Hbusy.
    destruct (Ho v Hv Hbusy) as (u & Hu & Hcu & Hus & Hua).
    destruct (decide (Task.id u = Task.id task)) as [E|Hne].
    + assert (u = task) as ->
        by (by apply (same_id_same_task (newQueue acc))).
      exists (with_progress (advanced task) task).
      split; [by eapply elem_of_insert_self | done].
    + exists u. split; [|done].
      eapply elem_of_insert_other; [done..|]. by intros ->.
Qed.

Lemma assign_owns (front rest : list Worker) (w : Worker) (acc : Acc) :
  owns (front ++ w :: rest) (newQueue acc) →
  owns (front ++ (assign w acc).1 :: rest) (newQueue (assign w acc).2).
Proof.
  intros Ho. unfold assign.
  destruct (Worker.status w) eqn:Hst; [|done].
  destruct (find_from _ 0 _) as [[j next]|] eqn:Hf; [|done].
  apply find_from_Some in Hf as (? & -> & Hj & Hq). simpl in Hj.
  cbn [fst snd newQueue]. intros v Hv Hbusy.
  apply elem_of_app in Hv as [Hv|Hv];
    [|apply elem_of_cons in Hv as [->|Hv]].
  - destruct (Ho v) as (u & Hu & Hcu & Hus & Hua);
      [apply elem_of_app; by left | done |].
    exists u. split; [|done]. eapply elem_of_insert_other; [done..|].
    intros ->. unfold is_queued in Hq. by rewrite Hus in Hq.
  - exists (assigned (Worker.id w) next).
    split; [by eapply elem_of_insert_self | done].
  - destruct (Ho v) as (u & Hu & Hcu & Hus & Hua);
      [apply elem_of_app; right; by right | done |].
    exists u. split; [|done]. eapply elem_of_insert_other; [done..|].
    intros ->. unfold is_queued in Hq. by rewrite Hus in Hq.
Qed.

Lemma forEachWorker_owns (front ws : list Worker) (acc : Acc) :
  NoDup (Worker.id <$> front ++ ws) →
  NoDup (Task.id <$> newQueue acc) →
  owns (front ++ ws) (newQueue acc) →
  owns (front ++ (forEachWorker ws acc).1)
    (newQueue (forEachWorker ws acc).2).
Proof.
  revert front acc. induction ws as [|w ws IH]; intros front acc Hw Hq Ho.
  { done. }
  cbn [forEachWorker].
  pose proof (work_owns front ws w acc Hw Hq Ho) as O1.
  pose proof (work_ids w acc) as S1.
  destruct (work_names w acc) as [I1 _].
  destruct (work w acc) as [w1 acc1]. cbn [fst snd] in *.
  pose proof (assign_owns front ws w1 acc1 O1) as O2.
  pose proof (assign_ids w1 acc1) as S2.
  destruct (assign_names w1 acc1) as [I2 _].
  destruct (assign w1 acc1) as [w2 acc2]. cbn [fst snd] in *.
  specialize (IH (front ++ [w2]) acc2).
  rewrite <- !app_assoc in IH. cbn [app] in IH.
  destruct (forEachWorker ws acc2) as [rest' acc']. cbn [fst snd] in *.
  apply IH.
  - rewrite fmap_app, fmap_cons in Hw |- *. congruence.
  - rewrite S2. by eapply sublist_NoDup.
  - done.
Qed.

Lemma forEachWorker_wids (ws : list Worker) (acc : Acc) :
  Worker.id <$> (forEachWorker ws acc).1 = Worker.id <$> ws.
Proof.
  pose proof (forEachWorker_names ws acc) as H.
  apply (f_equal (fmap fst)) in H.
  by rewrite <- !list_fmap_compose in H.
Qed.

Lemma makeWorkers_wids (n : nat) : NoDup (Worker.id <$> makeWorkers n).
Proof.
  unfold makeWorkers. rewrite <- list_fmap_compose.
  apply NoDup_fmap_2; [|apply NoDup_seq]. intros i j. simpl. lia.
Qed.

Lemma makeWorkers_owns (n : nat) (q : list Task) : owns (makeWorkers n) q.
Proof.
  intros w Hw Hbusy. unfold makeWorkers in Hw.
  apply list_elem_of_fmap in Hw as (i & -> & _). done.
Qed.

Lemma owns_app (ws : list Worker) (q batch : list Task) :
  owns ws q → owns ws (q ++ batch).
Proof.
  intros Ho w Hw Hbusy. destruct (Ho w Hw Hbusy) as (t & Ht & H).
  exists t. split; [|done]. apply elem_of_app. by left.
Qed.

Lemma workers_ok_handle (e : Event) (s : State) :
  workers_ok s → workers_ok (handle e s).
Proof.
  intros (Hids & Hw & Ho).
  split; [by apply ids_ok_handle|].
  destruct e as [| | |count|now d|now d|now]; simpl.
  - done.
  - split; [apply makeWorkers_wids | apply makeWorkers_owns].
  - done.
  - unfold clickWorkerCount. destruct (isRunning s); [done|]. simpl.
    destruct (count =? workerCount s)%nat; [done|].
    split; [apply makeWorkers_wids | apply makeWorkers_owns].
  - split; [done | by apply owns_app].
  - split; [done | by apply owns_app].
  - unfold onTick. destruct (interval s); [|done]. cbn [negb].
    destruct (pauseRef s); [done|].
    destruct Hids as (Hnd & _ & _).
    pose proof (forEachWorker_owns [] (workers s)
      {| newQueue := taskQueue s; newCompleted := []; messages := [];
         processed := 0 |} Hw Hnd Ho) as O.
    pose proof (forEachWorker_wids (workers s)
      {| newQueue := taskQueue s; newCompleted := []; messages := [];
         processed := 0 |}) as W.
    destruct (forEachWorker _ _) as [ws acc]. cbn [fst snd app] in *.
    cbn [workers taskQueue]. split; [by rewrite W | done].
Qed.

Lemma pool_after_workers_ok (events : list Event) :
  workers_ok (pool_after events).
Proof.
  unfold pool_after. apply (foldl_invariant workers_ok).
  - split; [|split; [apply makeWorkers_wids | apply makeWorkers_owns]].
    repeat split; simpl; [constructor | constructor | lia].
  - intros s e. apply workers_ok_handle.
Qed.

(** X20. Whatever sequence of events the thread-pool page goes through, the
    task of a busy worker is in the queue, marked as processing and
    assigned to that worker, and no other busy worker has the same
    task. *)
Theorem a_task_is_worked_on_by_one_worker
    (events : list Event) (i : nat) (w : Worker) :
  workers (pool_after events) !! i = Some w →
  Worker.status w = Worker.busy →
  (∃ t, t ∈ taskQueue (pool_after events) ∧
        Worker.currentTask w = Some (Task.id t) ∧
        Task.status t = Task.processing ∧
        Task.assignedTo t = Some (Worker.id w)) ∧
  (∀ j v, workers (pool_after events) !! j = Some v →
          Worker.status v = Worker.busy →
          Worker.currentTask v = Worker.currentTask w → j = i).
Proof.
  intros Hi Hbusy.
  destruct (pool_after_workers_ok events) as ((Hnd & _ & _) & Hw & Ho).
  set (s := pool_after events) in *.
  destruct (Ho w) as (t & Ht & Hc & Hs & Ha);
    [by eapply list_elem_of_lookup_2 | done |].
  split; [by exists t|].
  intros j v Hj Hv Hcv.
  destruct (Ho v) as (u & Hu & Hcu & Hus & Hua);
    [by eapply list_elem_of_lookup_2 | done |].
  assert (u = t) as ->.
  { apply (same_id_same_task (taskQueue s)); try done. congruence. }
  eapply NoDup_lookup; [exact Hw| |].
  - by rewrite list_lookup_fmap, Hj.
  - rewrite list_lookup_fmap, Hi. simpl. congruence.
Qed.

Lemma a_task_is_worked_on_by_one_worker_witness :
  ∃ t, t ∈ taskQueue pool_busy ∧ Task.id t = 1 ∧
       Task.status t = Task.processing ∧ Task.assignedTo t = Some 1.
Proof.
  destruct (a_task_is_worked_on_by_one_worker
              [ ClickWorkerCount 2; Start; AddTask "10:00:00" 0%Q;
                AddTask "10:00:00" 0%Q; AddTask "10:00:00" 0%Q;
                Tick "10:00:01"; Tick "10:00:02" ] 0%nat
              {| Worker.id := 1; Worker.name := "Worker 1";
                 Worker.status := Worker.busy;
                 Worker.currentTask := Some 1;
                 Worker.completedTasks := 0 |} eq_refl eq_refl)
    as [(t & Ht & Hc & Hs & Ha) _].
  exists t. injection Hc as Hc. done.
Defined.

End PoolRuns.

(** ** Readers and writers *)

Section ReadersRuns.
Import ReaderWriter.

(** What every step of a loop keeps, the loop keeps. *)
Lemma foldl_kept {A B X : Type} (g : A → X) (f : A → B → A) (l : list B)
    (a : A) :
  (∀ a b, g (f a b) = g a) → g (foldl f a l) = g a.
Proof.
  intros Hf. revert a. induction l as [|b l IH]; intros a; [done|].
  simpl. by rewrite IH, Hf.
Qed.

(** What the calls of the updaters leave alone besides. *)
Lemma rw_kept_finished (now : string) (completed : list Thread) (s : State) :
  readers_frame (finished now completed s) = readers_frame s ∧
  waitingWriters (finished now completed s) = waitingWriters s ∧
  activeWriter (finished now completed s) = activeWriter s ∧
  activeReaders (finished now completed s) = activeReaders s.
Proof. unfold finished. repeat split; by apply foldl_kept. Qed.

Lemma rw_kept_promotedLogs (now : string) (promoted : list Thread)
    (s : State) :
  readers_frame (promotedLogs now promoted s) = readers_frame s ∧
  waitingWriters (promotedLogs now promoted s) = waitingWriters s ∧
  activeWriter (promotedLogs now promoted s) = activeWriter s ∧
  activeReaders (promotedLogs now promoted s) = activeReaders s.
Proof. unfold promotedLogs. repeat split; by apply foldl_kept. Qed.

Lemma rw_kept_promotedReaders (promoted : list Thread) (s : State) :
  readers_frame (promotedReaders promoted s) = readers_frame s ∧
  waitingWriters (promotedReaders promoted s) = waitingWriters s ∧
  activeWriter (promotedReaders promoted s) = activeWriter s ∧
  activeReaders (promotedReaders promoted s) =
    activeReaders s ++ (activated <$> promoted).
Proof.
  unfold promotedReaders. repeat split; try by apply foldl_kept.
  revert s. induction promoted as [|r l IH]; intros s.
  - by rewrite app_nil_r.
  - simpl. rewrite IH. simpl. by rewrite <- app_assoc.
Qed.

Lemma rw_frame_addReader (view : Render) (now : string) (ms : Z)
    (s : State) :
  readers_frame (addReader view now ms s) = readers_frame s ∧
  waitingWriters (addReader view now ms s) = waitingWriters s ∧
  activeWriter (addReader view now ms s) = activeWriter s.
Proof. unfold addReader. by destruct (r_activeWriter view). Qed.

Lemma rw_frame_addWriter (view : Render) (now : string) (ms : Z)
    (s : State) :
  readers_frame (addWriter view now ms s) = readers_frame s.
Proof.
  unfold addWriter. destruct (r_activeWriter view); [done|].
  by destruct (r_activeReaders view).
Qed.

Lemma rw_frame_arrival (now : string) (ms : Z) (d : Draws) (cap : Render)
    (s : State) :
  readers_frame (arrival now ms d cap s) = readers_frame s.
Proof.
  unfold arrival. destruct (JS.gt _ _); [|done].
  destruct (JS.gt _ _); [apply rw_frame_addReader|apply rw_frame_addWriter].
Qed.

(** The callback of a run started from a render without writers: no
    writer can finish, none is looked for in the queue, and waiting
    readers are promoted. *)
Lemma rw_onTick_fresh (now : string) (ms : Z) (d : Draws) (s : State) :
  interval s = true → pauseRef s = false →
  r_activeWriter (captured s) = None →
  r_waitingWriters (captured s) = [] →
  onTick now ms d s =
  promotedReaders (take 3 (waitingReaders s))
    (promotedLogs now (take 3 (waitingReaders s))
       (finished now (finishing (reader_draw d) (activeReaders s)).1
          (arrival now ms d (captured s)
             (set_waitingReaders (λ _, drop 3 (waitingReaders s))
                (set_activeReaders
                   (λ _, (finishing (reader_draw d) (activeReaders s)).2)
                   s))))).
Proof.
  intros Hint Hp Hw Hww. unfold onTick. rewrite Hint, Hp. cbn [negb].
  cbv zeta. destruct (finishing _ _) as [completed remaining].
  assert (Hpr : promoting (captured s) (waitingReaders s) =
                (take 3 (waitingReaders s), drop 3 (waitingReaders s))).
  { unfold promoting. rewrite Hw, Hww. by destruct (waitingReaders s). }
  rewrite Hpr. unfold finishWriter, asksForWriter. rewrite Hw, Hww.
  cbn [fst snd].
  by destruct (activeWriter (set_activeReaders (λ _, remaining) s)).
Qed.

Lemma readers_ok_frame (s s' : State) :
  readers_frame s' = readers_frame s →
  isRunning s = true → readers_ok s → readers_ok s'.
Proof.
  unfold readers_frame.
  intros [= E1 E2 E3 E4 E5 E6] Hrun [Ht Hn Hi Hr]. split.
  - congruence.
  - by rewrite E4, E5, E6.
  - intros E. congruence.
  - rewrite E3. auto.
Qed.

Lemma rw_frame_onTick (now : string) (ms : Z) (d : Draws) (s : State) :
  readers_ok s → isRunning s = true →
  readers_frame (onTick now ms d s) = readers_frame s.
Proof.
  intros [Ht Hn Hi Hr] Hrun. destruct (Hr Hrun) as (Hw & _ & Hww & _).
  destruct (pauseRef s) eqn:Hp.
  { unfold onTick. rewrite Hp. by destruct (interval s). }
  rewrite rw_onTick_fresh by congruence.
  match goal with
  | |- context [promotedReaders ?l ?x] =>
      destruct (rw_kept_promotedReaders l x) as (-> & _)
  end.
  match goal with
  | |- context [promotedLogs ?n ?l ?x] =>
      destruct (rw_kept_promotedLogs n l x) as (-> & _)
  end.
  match goal with
  | |- context [finished ?n ?l ?x] =>
      destruct (rw_kept_finished n l x) as (-> & _)
  end.
  by rewrite rw_frame_arrival.
Qed.

Lemma readers_perform_ok (e : Event) (s : State) :
  readers_ok s → readers_ok (perform e s).
Proof.
  intros H. unfold perform. destruct (offered e s) eqn:Ho; [|done].
  destruct e as [| | |now ms|now ms|now ms d]; simpl in *.
  - apply negb_true_iff in Ho. destruct H as [Ht Hn Hi Hr].
    destruct (Hi Ho) as (Ha & Hb & Hc & Hd). split; simpl; done.
  - destruct H as [Ht Hn Hi Hr]. split; simpl; done.
  - apply (readers_ok_frame s); done.
  - apply andb_true_iff in Ho as [Ho _].
    apply (readers_ok_frame s); [|done|done]. apply rw_frame_addReader.
  - apply andb_true_iff in Ho as [Ho _].
    apply (readers_ok_frame s); [|done|done]. apply rw_frame_addWriter.
  - destruct (isRunning s) eqn:Hrun.
    + apply (readers_ok_frame s); [|done|done]. by apply rw_frame_onTick.
    + pose proof H as [Ht Hn Hi Hr]. rewrite Hrun in Ht.
      unfold onTick. by rewrite Ht.
Qed.

Lemma readers_play_ok (events : list Event) : readers_ok (play events).
Proof.
  unfold play. apply (foldl_invariant readers_ok).
  - split; simpl; done.
  - intros s e. apply readers_perform_ok.
Qed.

(** X21. However the reader-writer page is used, no write ever completes:
    the count of completed writes stays 0 and the shared data keeps its
    initial value and version.  The callback tests the active writer of
    the render the run was started in, which is always empty. *)
Theorem no_write_ever_completes (events : list Event) :
  completedWrites (play events) = 0 ∧
  dataVersion (play events) = 1 ∧
  sharedData (play events) = "Initial Value".
Proof. apply readers_play_ok. Qed.

(** X22. However the reader-writer page is used, a firing of its timer
    leaves the queue of waiting writers as it is: a writer that had to
    wait waits until the page is reset. *)
Theorem waiting_writers_are_never_promoted
    (events : list Event) (now : string) (ms : Z) (d : Draws) :
  waitingWriters (onTick now ms d (play events)) =
  waitingWriters (play events).
Proof.
  destruct (readers_play_ok events) as [Ht _ _ Hr].
  set (s := play events) in *.
  destruct (interval s) eqn:Hint; [|unfold onTick; by rewrite Hint].
  destruct (pauseRef s) eqn:Hp; [unfold onTick; by rewrite Hint, Hp|].
  destruct (Hr (eq_sym Ht)) as (Hw & Hra & Hww & _).
  rewrite rw_onTick_fresh by done.
  match goal with
  | |- context [promotedReaders ?l ?x] =>
      destruct (rw_kept_promotedReaders l x) as (_ & -> & _)
  end.
  match goal with
  | |- context [promotedLogs ?n ?l ?x] =>
      destruct (rw_kept_promotedLogs n l x) as (_ & -> & _)
  end.
  match goal with
  | |- context [finished ?n ?l ?x] =>
      destruct (rw_kept_finished n l x) as (_ & -> & _)
  end.
  unfold arrival. destruct (JS.gt (spawn_draw d) _); [|done].
  destruct (JS.gt (kind_draw d) _).
  - match goal with
    | |- context [addReader ?v ?n ?m ?x] =>
        destruct (rw_frame_addReader v n m x) as (_ & -> & _)
    end. done.
  - unfold addWriter. rewrite Hw, Hra. done.
Qed.

(** X23. However the reader-writer page got to its state, a thread that
    arrives on a firing of the scheduled, unpaused timer starts at once
    and carries the number 1, whoever is reading or writing: a writer
    becomes the active writer; a reader joins the active readers, behind
    those that go on reading and before the waiting readers, up to three,
    that the firing promotes. *)
Theorem timer_arrivals_start_at_once
    (events : list Event) (now : string) (ms : Z) (d : Draws) :
  interval (play events) = true →
  pauseRef (play events) = false →
  JS.gt (spawn_draw d) (85 # 100) = true →
  if JS.gt (kind_draw d) (3 # 10)
  then activeReaders (onTick now ms d (play events)) =
         (finishing (reader_draw d) (activeReaders (play events))).2 ++
         {| id := 1; type := reader; status := active; startTime := ms |} ::
         (activated <$> take 3 (waitingReaders (play events)))
  else activeWriter (onTick now ms d (play events)) =
         Some {| id := 1; type := writer; status := active;
                 startTime := ms |}.
Proof.
  intros Hint Hp Hs.
  destruct (readers_play_ok events) as [Ht _ _ Hr].
  set (s := play events) in *. rewrite Hint in Ht.
  destruct (Hr (eq_sym Ht)) as (Hw & Hra & Hww & Hc).
  rewrite rw_onTick_fresh by done.
  match goal with
  | |- context [promotedReaders ?l ?x] =>
      destruct (rw_kept_promotedReaders l x) as (_ & _ & -> & ->)
  end.
  match goal with
  | |- context [promotedLogs ?n ?l ?x] =>
      destruct (rw_kept_promotedLogs n l x) as (_ & _ & -> & ->)
  end.
  match goal with
  | |- context [finished ?n ?l ?x] =>
      destruct (rw_kept_finished n l x) as (_ & _ & -> & ->)
  end.
  unfold arrival. rewrite Hs.
  destruct (JS.gt (kind_draw d) _).
  - unfold addReader. rewrite Hw, Hc. simpl. by rewrite <- app_assoc.
  - unfold addWriter. rewrite Hw, Hra, Hc. done.
Qed.

Lemma timer_arrivals_start_at_once_witness :
  activeReaders (onTick "10:00:02" 5 reader_arrives (play reader_waits)) =
    (finishing (reader_draw reader_arrives)
       (activeReaders (play reader_waits))).2 ++
    {| id := 1; type := reader; status := active; startTime := 5 |} ::
    (activated <$> take 3 (waitingReaders (play reader_waits))).
Proof.
  apply (timer_arrivals_start_at_once reader_waits "10:00:02" 5
           reader_arrives); vm_compute; reflexivity.
Defined.

(** The firing of the witness: writer 1 is writing and reader 2 waits; the
    reader that arrives, numbered 1 again, starts before reader 2, which
    the firing promotes, and the writer goes on writing. *)
Example readers_firing_with_a_queue :
  id <$> activeReaders (play reader_waits) = [] ∧
  id <$> waitingReaders (play reader_waits) = [2] ∧
  id <$> activeReaders
           (onTick "10:00:02" 5 reader_arrives (play reader_waits)) =
    [1; 2] ∧
  waitingReaders (onTick "10:00:02" 5 reader_arrives (play reader_waits)) =
    [] ∧
  id <$> activeWriter
           (onTick "10:00:02" 5 reader_arrives (play reader_waits)) =
    Some 1.
Proof. repeat apply conj; vm_compute; reflexivity. Qed.

(** X24. The reader-writer page can show a writer and a reader active at
    the same time: the user adds a writer and a reader arrives on the next
    firing. *)
Theorem readers_and_writer_can_be_active_together :
  ∃ events,
    is_Some (activeWriter (play events)) ∧ activeReaders (play events) ≠ [].
Proof.
  exists (writer_added ++ [Tick "10:00:01" 5 reader_arrives]).
  vm_compute. split; [by eexists | done].
Qed.

(** X25. The two "add" buttons of the reader-writer page keep readers and
    writer apart: from a state in which no writer is active or no reader
    is, a click on either leaves such a state. *)
Theorem add_buttons_keep_readers_and_writer_apart
    (now : string) (ms : Z) (s : State) :
  exclusive s →
  exclusive (handle (AddReader now ms) s) ∧
  exclusive (handle (AddWriter now ms) s).
Proof.
  unfold exclusive. intros H. simpl. unfold addReader, addWriter. simpl.
  destruct (activeWriter s) as [w|] eqn:Hw.
  - destruct H as [H|H]; [done|]. split; right; exact H.
  - destruct (activeReaders s) as [|r rs] eqn:Hr.
    + split; [left; exact Hw | right; exact Hr].
    + split; left; exact Hw.
Qed.

Lemma add_buttons_keep_readers_and_writer_apart_witness :
  exclusive (handle (AddReader "10:00:01" 5) reader_added) ∧
  exclusive (handle (AddWriter "10:00:01" 5) reader_added).
Proof.
  apply add_buttons_keep_readers_and_writer_apart. left. reflexivity.
Defined.

End ReadersRuns.

(** ** Runs of the async-versus-threads page *)

Section AsyncRuns.
Import AsyncVsThreads.

(** The loop is over once [asyncCurrentTask] has reached the end of the
    list: fuel beyond the number of tasks left is never used. *)
Lemma eventLoop_fuel (fuel : nat) (now : Z) (a : Async) :
  (length (a_tasks a) - a_current a ≤ fuel)%nat →
  eventLoop (S fuel) now a = eventLoop fuel now a.
Proof.
  revert a. induction fuel as [|fuel IH]; intros a Hlen.
  - cbn [eventLoop]. rewrite lookup_ge_None_2; [done|lia].
  - rewrite (eventLoop_S (S fuel)), (eventLoop_S fuel now a).
    destruct (a_tasks a !! a_current a) as [current|]; [|done].
    assert (Hstep : ∀ a', length (a_tasks a') = length (a_tasks a) →
                          a_current a' = S (a_current a) →
                          eventLoop (S fuel) now a' = eventLoop fuel now a').
    { intros a' Hl Hc. apply IH. lia. }
    destruct (status current) eqn:Hst; cbn [status type started];
      rewrite ?Hst;
      try (apply Hstep; [cbn [a_tasks]; by rewrite ?length_insert|done]);
      destruct (type current);
      try (apply Hstep; [cbn [a_tasks]; by rewrite ?length_insert|done]);
      reflexivity.
Qed.

(** What a firing of a scheduled timer does to the locals and flags that
    govern the run. *)
Lemma onTick_control (r : Run) :
  interval (page r) = true →
  tick (onTick r) = tick r + 1 ∧
  cap_asyncTasks (onTick r) = cap_asyncTasks r ∧
  cap_threadTasks (onTick r) = cap_threadTasks r ∧
  cap_parallelTasks (onTick r) = cap_parallelTasks r ∧
  interval (page (onTick r)) =
    negb ((100 <? tick r + 1) || finished_at_start r) ∧
  isRunning (page (onTick r)) =
    (if (100 <? tick r + 1) || finished_at_start r then false
     else isRunning (page r)).
Proof.
  intros Hint. unfold onTick. rewrite Hint. cbn [negb].
  destruct (asyncUpdater _ _) as [a ad].
  destruct (threadUpdater _ _ _) as [[tt lg] td].
  destruct (parallelUpdater _ _) as [pt pd]. done.
Qed.

Lemma async_iter_stopped (n : nat) (r : Run) :
  interval (page r) = false → Nat.iter n onTick r = r.
Proof.
  intros H. induction n as [|n IH]; [done|]. simpl. rewrite IH.
  unfold onTick. by rewrite H.
Qed.

(** X26. A run of the comparison started while all tasks the page shows
    are completed, in particular while it shows none, is stopped by its
    first firing: the timer is cleared and the running flag dropped with
    the tick counter at 1, and no later firing changes anything. *)
Theorem run_over_finished_lists_stops_at_once (r : Run) :
  allDone (asyncTasks (page r)) = true →
  allDone (threadTasks (page r)) = true →
  allDone (parallelTasks (page r)) = true →
  interval (page (onTick (start r))) = false ∧
  isRunning (page (onTick (start r))) = false ∧
  tick (onTick (start r)) = 1 ∧
  ∀ n, Nat.iter n onTick (onTick (start r)) = onTick (start r).
Proof.
  intros Ha Ht Hp.
  destruct (onTick_control (start r) eq_refl) as (Hk & _ & _ & _ & Hi & Hr).
  assert (Hf : finished_at_start (start r) = true).
  { unfold finished_at_start. simpl. by rewrite Ha, Ht, Hp. }
  rewrite Hf, orb_true_r in Hi, Hr.
  split; [exact Hi|]. split; [exact Hr|]. split; [exact Hk|].
  intros n. apply async_iter_stopped. exact Hi.
Qed.

Lemma run_over_finished_lists_stops_at_once_witness :
  interval (page first_run) = false ∧
  isRunning (page first_run) = false ∧
  tick first_run = 1 ∧
  ∀ n, Nat.iter n onTick first_run = first_run.
Proof.
  apply (run_over_finished_lists_stops_at_once unstarted); reflexivity.
Defined.

Lemma run_goes_on (r : Run) (n : nat) :
  finished_at_start (start r) = false → (n ≤ 100)%nat →
  interval (page (Nat.iter n onTick (start r))) = true ∧
  isRunning (page (Nat.iter n onTick (start r))) = true ∧
  tick (Nat.iter n onTick (start r)) = Z.of_nat n ∧
  finished_at_start (Nat.iter n onTick (start r)) = false.
Proof.
  intros Hf. induction n as [|n IH]; intros Hn; [done|].
  destruct IH as (Hi & Hr & Hk & Hc); [lia|].
  rewrite Nat.iter_succ.
  set (r' := Nat.iter n onTick (start r)) in *.
  destruct (onTick_control r' Hi) as (Hk' & C1 & C2 & C3 & Hi' & Hr').
  rewrite Hc, Hk, orb_false_r in Hi', Hr'.
  destruct (Z.ltb_spec 100 (Z.of_nat n + 1)) as [?|_]; [lia|].
  split; [exact Hi'|]. split; [by rewrite Hr'|].
  split; [rewrite Hk', Hk; lia|].
  unfold finished_at_start in *. by rewrite C1, C2, C3.
Qed.

(** X27. A run of the comparison started while the page shows a task that
    is not completed lasts 101 firings, whatever becomes of its own tasks:
    timer and running flag are on after each of the first hundred firings
    and off after the next. *)
Theorem run_over_unfinished_lists_lasts_101_firings (r : Run) (n : nat) :
  allDone (asyncTasks (page r)) && allDone (threadTasks (page r)) &&
    allDone (parallelTasks (page r)) = false →
  (n ≤ 100)%nat →
  interval (page (Nat.iter n onTick (start r))) = true ∧
  isRunning (page (Nat.iter n onTick (start r))) = true ∧
  interval (page (Nat.iter 101 onTick (start r))) = false ∧
  isRunning (page (Nat.iter 101 onTick (start r))) = false.
Proof.
  intros Hf Hn.
  destruct (run_goes_on r n Hf Hn) as (Hi & Hr & _ & _).
  destruct (run_goes_on r 100 Hf) as (Hi' & Hr' & Hk & Hc); [lia|].
  rewrite (Nat.iter_succ 100).
  set (r' := Nat.iter 100 onTick (start r)) in *.
  destruct (onTick_control r' Hi') as (_ & _ & _ & _ & Hi2 & Hr2).
  rewrite Hk in Hi2, Hr2.
  split; [exact Hi|]. split; [exact Hr|]. split; [exact Hi2|exact Hr2].
Qed.

Lemma run_over_unfinished_lists_lasts_101_firings_witness :
  interval (page (second_run 100)) = true ∧
  isRunning (page (second_run 100)) = true ∧
  interval (page (second_run 101)) = false ∧
  isRunning (page (second_run 101)) = false.
Proof.
  apply (run_over_unfinished_lists_lasts_101_firings first_run 100);
    [vm_compute; reflexivity | lia].
Defined.

(** X28. The first run of the comparison stops after one firing with
    unfinished tasks and no time recorded.  The run started next records
    no time during its first seven firings.  In its thread simulation the
    task of duration 3 is still running after twelve firings, its
    progress a double below 100, and is completed by the thirteenth; the
    simulation has completed its four tasks after 45 firings, when the
    other two simulations have long recorded a time and it has not, and
    records its time on firing 46.  The run goes on, and ends on its
    101st firing with the three times all equal to 101; nothing changes
    after that. *)
Theorem comparison_times_are_the_length_of_the_run :
  times first_run = (0, 0, 0) ∧
  allDone (asyncTasks (page first_run)) = false ∧
  Forall (λ n, times (second_run n) = (0, 0, 0)) (seq 0 8) ∧
  (λ t, (status t, JS.ge (progress t) 100%Q)) <$>
    threadTasks (page (second_run 12)) !! 0%nat = Some (running, false) ∧
  status <$> threadTasks (page (second_run 13)) !! 0%nat = Some completed ∧
  allDone (threadTasks (page (second_run 44))) = false ∧
  allDone (threadTasks (page (second_run 45))) = true ∧
  times (second_run 45) = (45, 0, 45) ∧
  times (second_run 46) = (46, 46, 46) ∧
  allDone (asyncTasks (page (second_run 60))) = true ∧
  allDone (threadTasks (page (second_run 60))) = true ∧
  allDone (parallelTasks (page (second_run 60))) = true ∧
  interval (page (second_run 60)) = true ∧
  times (second_run 101) = (101, 101, 101) ∧
  ∀ m, second_run (101 + m) = second_run 101.
Proof.
  repeat apply conj;
    lazymatch goal with
    | |- Forall _ _ => by_evaluation_each
    | |- ∀ m, _ =>
        intros m; unfold second_run; rewrite Nat.add_comm, Nat.iter_add;
        apply async_iter_stopped; by_evaluation
    | |- _ => by_evaluation
    end.
Qed.

Lemma allDone_Forall (tasks : list Task) :
  Forall (λ t, status t = completed) tasks → allDone tasks = true.
Proof.
  induction 1 as [|t l Ht _ IH]; [done|]. unfold allDone. simpl.
  rewrite bool_decide_true by done. exact IH.
Qed.

(** X29. While some task of the thread simulation is not completed, a
    firing advances exactly one task, the first that is not completed:
    its progress becomes the double [progress + 100 / duration / 4], each
    of the three operations rounded; every other task is left as it is
    and no time is recorded. *)
Theorem thread_simulation_advances_one_task
    (now : Z) (tasks : list Task) (log : list string) :
  allDone tasks = false →
  ∃ j t,
    tasks !! j = Some t ∧ status t ≠ completed ∧
    (∀ i u, (i < j)%nat → tasks !! i = Some u → status u = completed) ∧
    progress <$> (threadUpdater now tasks log).1.1 !! j =
      Some (JS.add (progress t)
              (JS.div (JS.div 100 (inject_Z (duration t))) 4)) ∧
    (∀ i, i ≠ j → (threadUpdater now tasks log).1.1 !! i = tasks !! i) ∧
    (threadUpdater now tasks log).2 = None.
Proof.
  intros Hall. unfold threadUpdater. rewrite Hall.
  destruct (list_find _ tasks) as [[j t]|] eqn:Hf.
  - apply list_find_Some in Hf as (Hj & Ht & Hbefore).
    exists j, t. split; [done|]. split; [done|]. split.
    { intros i u Hi Hu. destruct (decide (status u = completed)); [done|].
      exfalso. by eapply Hbefore. }
    assert (Hlt : (j < length tasks)%nat) by (by eapply lookup_lt_Some).
    unfold progressed, advanced.
    destruct (status t); simpl;
      destruct (JS.ge _ _); simpl;
      (split; [by rewrite list_lookup_insert_eq|]); split; try done;
      intros i Hi; by rewrite list_lookup_insert_ne.
  - apply list_find_None in Hf. rewrite allDone_Forall in Hall; [done|].
    eapply Forall_impl; [exact Hf|]. intros u Hu. simpl in Hu.
    by destruct (decide (status u = completed)).
Qed.

Lemma thread_simulation_advances_one_task_witness :
  ∃ j t,
    createDemoTasks !! j = Some t ∧ status t ≠ completed ∧
    (∀ i u, (i < j)%nat → createDemoTasks !! i = Some u →
            status u = completed) ∧
    progress <$> (threadUpdater 1 createDemoTasks []).1.1 !! j =
      Some (JS.add (progress t)
              (JS.div (JS.div 100 (inject_Z (duration t))) 4)) ∧
    (∀ i, i ≠ j →
          (threadUpdater 1 createDemoTasks []).1.1 !! i =
          createDemoTasks !! i) ∧
    (threadUpdater 1 createDemoTasks []).2 = None.
Proof.
  apply (thread_simulation_advances_one_task 1 createDemoTasks []).
  reflexivity.
Defined.

End AsyncRuns.

(** ** Start *)

Section Starts.


(** *** A page that is not running is as [reset] leaves it *)




(** *** A timer is scheduled exactly while its demo is running *)



(** The start button is offered on the first render and again after a run
    has been reset; it is not offered during a run. *)
Example start_is_offered_between_runs :
  ThreadPool.offered ThreadPool.Start (ThreadPool.play []) = true ∧
  ThreadPool.offered ThreadPool.Start
    (ThreadPool.play
       [ThreadPool.Start; ThreadPool.AddTask "10:00:00" 0%Q;
        ThreadPool.Tick "10:00:01"]) = false ∧
  ThreadPool.offered ThreadPool.Start
    (ThreadPool.play
       [ThreadPool.Start; ThreadPool.AddTask "10:00:00" 0%Q;
        ThreadPool.Tick "10:00:01"; ThreadPool.Reset]) = true ∧
  ReaderWriter.offered ReaderWriter.Start (ReaderWriter.play []) = true ∧
  ReaderWriter.offered ReaderWriter.Start
    (ReaderWriter.play (reader_waits ++ [ReaderWriter.Reset])) = true ∧
  Semaphore.offered (Semaphore.Page Semaphore.Start)
    (Semaphore.play (queue_of_one ++ [Semaphore.Page Semaphore.Reset])) =
    true ∧
  Starvation.offered Starvation.Start
    (Starvation.play (one_firing ++ [Starvation.Reset])) = true.
Proof. repeat apply conj; vm_compute; reflexivity. Qed.


End Starts.
